(** * nextjs16-migrator: scanner, rewrite engine and backup manager

    A shallow embedding of the TypeScript sources

    - [src/analyzers/compatibility.ts]  (class [ProjectAnalyzer]),
    - [src/transformers/engine.ts]      (class [MigrationEngine]),
    - [src/utils/backup.ts]             (class [BackupManager]),
    - [src/utils/reporting.ts]          (class [ReportGenerator]),
    - [src/cli/commands/migrate.ts]     (function [migrateCommand]),

    followed by the properties of the specification that are settled on it.

    Asynchronous methods are state transformers over an explicit [World]
    (the file tree, the backup catalog, the backup directories and a trace
    of the effects performed) that either return a value or throw.  What
    the program obtains from outside its own sources -- glob, JSON.parse,
    the clock, simple-git, inquirer, jscodeshift's parser and printer, the
    build run by the performance analyzer -- is gathered in the class
    [Host]; every definition and theorem is parametric in it. *)

From Stdlib Require Import String Ascii List ZArith NArith Lia Bool.
From stdpp Require Import base option list gmap strings pretty.

Local Open Scope string_scope.
Local Open Scope list_scope.

(** ** JavaScript built-ins used by the sources *)

Module Js.

(** [content.includes(sub)].  Strings are byte sequences here (UTF-8) and
    UTF-16 code-unit sequences in JavaScript; for the ASCII needles of the
    sources the two notions of substring coincide. *)
Fixpoint includes (content sub : string) : bool :=
  if String.prefix sub content then true
  else match content with
       | EmptyString => false
       | String _ rest => includes rest sub
       end.

(** Truthiness of a [string | undefined] value: [undefined] and the empty
    string are falsy. *)
Definition truthy (v : option string) : bool :=
  match v with
  | Some s => negb (String.eqb s "")
  | None => false
  end.

(** [a || b] on [string | undefined] values. *)
Definition or_else (a b : option string) : option string :=
  if truthy a then a else b.

Definition is_digit (c : ascii) : bool :=
  let n := nat_of_ascii c in (48 <=? n)%nat && (n <=? 57)%nat.

Definition digit_value (c : ascii) : N := N.of_nat (nat_of_ascii c - 48).

(** The longest prefix of decimal digits, and what follows it. *)
Fixpoint span_digits (s : string) : string * string :=
  match s with
  | String c rest =>
      if is_digit c
      then let '(ds, tl) := span_digits rest in (String c ds, tl)
      else (EmptyString, s)
  | EmptyString => (EmptyString, EmptyString)
  end.

Fixpoint decimal (acc : N) (ds : string) : N :=
  match ds with
  | String c rest => decimal (10 * acc + digit_value c)%N rest
  | EmptyString => acc
  end.

(** [parseInt(s)] on a string that starts with a decimal digit or is
    anything else: the value of the leading digits, [None] for NaN.  (The
    sources apply it to the groups of a [\d+] match and to the first
    component of [process.version] without its leading "v".) *)
Definition parseInt (s : string) : option N :=
  let '(ds, _) := span_digits s in
  match ds with
  | EmptyString => None
  | _ => Some (decimal 0 ds)
  end.

(** One attempt of [/(\d+)\.(\d+)\.(\d+)/] at the start of [s].  Each
    [\d+] is greedy and is followed by a character that is not a digit, so
    the longest run of digits is the only candidate for each group. *)
Definition match_version_here (s : string) : option (string * string * string) :=
  let '(d1, r1) := span_digits s in
  match d1, r1 with
  | String _ _, String "."%char r1' =>
      let '(d2, r2) := span_digits r1' in
      match d2, r2 with
      | String _ _, String "."%char r2' =>
          let '(d3, _) := span_digits r2' in
          match d3 with
          | String _ _ => Some (d1, d2, d3)
          | EmptyString => None
          end
      | _, _ => None
      end
  | _, _ => None
  end.

(** [version.match(/(\d+)\.(\d+)\.(\d+)/)]: the leftmost match. *)
Fixpoint match_version (s : string) : option (string * string * string) :=
  match match_version_here s with
  | Some m => Some m
  | None =>
      match s with
      | String _ rest => match_version rest
      | EmptyString => None
      end
  end.

(** [s.slice(1)]. *)
Definition slice1 (s : string) : string :=
  match s with
  | String _ rest => rest
  | EmptyString => EmptyString
  end.

(** [s.split('.')[0]]: everything before the first dot. *)
Fixpoint before_dot (s : string) : string :=
  match s with
  | String c rest => if Ascii.eqb c "."%char then EmptyString else String c (before_dot rest)
  | EmptyString => EmptyString
  end.

End Js.

(** ** Syntax trees, as jscodeshift hands them to the rewrite rules *)

Module Ast.

(** The node types the rules inspect or build; every other ESTree type is
    [KOther].  A node carries its children in one list, laid out per kind:

    - [KCall]: [callee :: arguments];
    - [KMember computed]: [[object; property]];
    - [KAwait]: [[argument]];
    - [KImport]: [specifiers ++ [source]];
    - [KExportDefault]: [[declaration]];
    - [KFunctionDeclaration id], [KFunctionExpression id]:
      [params ++ [body]], the name [id] (or none) kept with the kind;
    - [KIdentifier name], [KLiteral value] (a string literal): none;
    - [KOther type]: the child nodes in traversal order. *)
Inductive kind :=
| KIdentifier (name : string)
| KLiteral (value : string)
| KCall
| KMember (computed : bool)
| KAwait
| KImport
| KExportDefault
| KFunctionDeclaration (id : option string)
| KFunctionExpression (id : option string)
| KOther (type : string).

#[warnings="-register-all"]
Inductive node := Node (k : kind) (children : list node).

Definition node_kind (n : node) : kind := let 'Node k _ := n in k.

(** Builders: [j.identifier], [j.literal], [j.awaitExpression],
    [j.memberExpression], [j.functionDeclaration]. *)
Definition identifier (name : string) : node := Node (KIdentifier name) [].
Definition literal (value : string) : node := Node (KLiteral value) [].
Definition awaitExpression (argument : node) : node := Node KAwait [argument].
Definition memberExpression (object property : node) (computed : bool) : node :=
  Node (KMember computed) [object; property].
Definition functionDeclaration (id : string) (params_body : list node) : node :=
  Node (KFunctionDeclaration (Some id)) params_body.

(** [j.Identifier.check(n) && n.name === name]. *)
Definition is_identifier_named (name : string) (n : node) : bool :=
  match node_kind n with
  | KIdentifier x => String.eqb x name
  | _ => false
  end.

(** A path is the position of a node below the root: the child index taken
    at every step.  jscodeshift's paths hold references to the node
    objects; the rules below never move a node that a later callback of the
    same [forEach] addresses, so positions stand for the references. *)
Definition NodePath := list nat.

(** [root.find(type)] followed by [.filter(pred)]: the paths of the nodes
    that satisfy [pred], in the order of the pre-order traversal. *)
Fixpoint find (pred : node -> bool) (n : node) : list NodePath :=
  let 'Node _ cs := n in
  (if pred n then [[]] else []) ++
  (fix children_paths (i : nat) (cs : list node) : list NodePath :=
     match cs with
     | [] => []
     | c :: cs' => map (cons i) (find pred c) ++ children_paths (S i) cs'
     end) 0%nat cs.

(** The node at a path is replaced by its image under [f]. *)
Fixpoint modify (p : NodePath) (f : node -> node) (n : node) : node :=
  match p with
  | [] => f n
  | i :: p' =>
      let 'Node k cs := n in
      match cs !! i with
      | Some c => Node k (<[i := modify p' f c]> cs)
      | None => n
      end
  end.

(** [paths.forEach(callback)], the callback mutating the node of its path
    (or, for [forEach_parent], the node one step up: [path.parent]). *)
Definition forEach (paths : list NodePath) (f : node -> node) (root : node) : node :=
  fold_left (fun t p => modify p f t) paths root.

Definition forEach_parent (paths : list NodePath) (f : node -> node) (root : node) : node :=
  fold_left (fun t p => match p with
                        | [] => t
                        | _ => modify (removelast p) f t
                        end) paths root.

(** [j(source)]: the parsed program below a [File] node. *)
Definition file (body : list node) : node :=
  Node (KOther "File") [Node (KOther "Program") body].

End Ast.

(** ** The world the tool runs in *)

(** A value returned or an exception thrown (with [error.message]). *)
Inductive Completion (A : Type) : Type :=
| Return (value : A)
| Throw (message : string).
Arguments Return {A} value.
Arguments Throw {A} message.

(** An entry of the file tree: a file with its text, or something that
    exists but cannot be read ([fs.readFile] and [fs.copy] reject on it). *)
Inductive Entry :=
| File (content : string)
| Unreadable.

(** [interface Backup] of backup.ts. *)
Record Backup := {
  id : string;
  timestamp : string;
  description : string;
  gitCommit : option string;
  filesBackup : option string
}.

(** - [tree]: the files below [process.cwd()], by relative path;
    - [metadata]: [.nextjs16-migrator/backups/metadata.json], read and
      written with [readJson]/[writeJson] only; [None] when absent;
    - [backupDirs]: the backup directory and the directories created in
      it, by path, each with the files copied into it. *)
Record FileSystem := {
  tree : gmap string Entry;
  metadata : option (list Backup);
  backupDirs : gmap string (gmap string Entry)
}.

Inductive GitCommand :=
| GitCheckIsRepo
| GitStatus
| GitAdd (pathspec : string)
| GitCommit (message : string)
| GitReset (args : list string).

(** The effects a run performs, in the order it performs them. *)
Inductive Event :=
| EvGit (command : GitCommand)
| EvEnsureDir (dir : string)
| EvCopy (src dest : string)
| EvWriteFile (file content : string)
| EvWriteJson (catalog : list Backup)
| EvRemove (dir : string)
| EvRewrite (transformation file : string)
| EvPrompt (message : string)
| EvBuild.

Record World := {
  fs : FileSystem;
  trace : list Event
}.

(** The part of [package.json] the analyzer reads; an absent
    [dependencies] object is the empty map. *)
Record PackageJson := {
  dependencies : gmap string string;
  devDependencies : gmap string string
}.

(** [interface PerformanceMetrics]. *)
Record PerformanceMetrics := {
  buildTime : Z;
  bundleSize : Z;
  coreWebVitals : string
}.

(** [interface FileToTransform], [interface ProjectAnalysis]. *)
Inductive FileType := Middleware | Config | Component | Api | Other.

Inductive Complexity := Low | Medium | High.

Record FileToTransform := {
  path : string;
  type : FileType;
  transformations : list string
}.

Record ProjectAnalysis := {
  isCompatible : bool;
  currentVersion : string;
  filesToTransform : list FileToTransform;
  issues : list string;
  recommendations : list string;
  complexity : Complexity;
  estimatedTime : string
}.

(** [interface Change], [interface Error], [interface MigrationResult]. *)
Inductive ChangeType := Transformation | Creation | Deletion.

Record Change := {
  change_file : string;
  change_description : string;
  change_type : ChangeType
}.

Record Error := {
  error_file : string;
  error_message : string
}.

Record MigrationResult := {
  successful : nat;
  failed : nat;
  changes : list Change;
  errors : list Error
}.

(** [interface MigrationReport] of reporting.ts. *)
Record MigrationReport := {
  report_timestamp : string;
  projectName : string;
  report_analysis : ProjectAnalysis;
  report_results : MigrationResult;
  performanceComparison : option (PerformanceMetrics * PerformanceMetrics);
  report_backupId : option string
}.

(** What the sources call but do not contain. *)
Class Host := {
  (** [glob(pattern, { cwd })] *)
  glob : string -> FileSystem -> list string;
  (** [JSON.parse] of the text of package.json, [None] on a syntax error *)
  JSON_parse : string -> option PackageJson;
  (** [process.version] *)
  process_version : string;
  (** [Date.now()] and [new Date().toISOString()] *)
  Date_now : World -> Z;
  Date_toISOString : World -> string;
  (** simple-git: [checkIsRepo], [status().files.length], [add], [commit]
      (the hash in [commit.commit]) and [reset], which rewrites files *)
  git_checkIsRepo : World -> Completion bool;
  git_status : World -> Completion nat;
  git_add : string -> World -> Completion unit;
  git_commit : string -> World -> Completion string;
  git_reset : list string -> World -> Completion unit * FileSystem;
  (** inquirer's [confirm] prompt *)
  prompt_confirm : string -> World -> Completion bool;
  (** jscodeshift: [j(source)] (the program body, or a syntax error) and
      [root.toSource()], which reprints against the original text *)
  j_parse : string -> Completion (list Ast.node);
  j_toSource : string -> Ast.node -> string;
  (** [PerformanceAnalyzer.analyze()]: runs [npm run build] and measures;
      it catches every error itself *)
  performance_analyze : World -> PerformanceMetrics * FileSystem;
  (** [ReportGenerator.generateHTMLReport] (an HTML template) *)
  generateHTMLReport : MigrationReport -> string
}.

(** ** Asynchronous computations *)

Definition Async (A : Type) : Type := World -> Completion A * World.

Definition ret {A} (a : A) : Async A := fun w => (Return a, w).

Definition throw {A} (message : string) : Async A := fun w => (Throw message, w).

Definition bind {A B} (c : Async A) (k : A -> Async B) : Async B :=
  fun w =>
    match c w with
    | (Return a, w') => k a w'
    | (Throw m, w') => (Throw m, w')
    end.

(** [try { c } catch (error) { handler(error.message) }] *)
Definition try_catch {A} (c : Async A) (handler : string -> Async A) : Async A :=
  fun w =>
    match c w with
    | (Return a, w') => (Return a, w')
    | (Throw m, w') => handler m w'
    end.

Declare Scope async_scope.
Delimit Scope async_scope with async.
Notation "x <- c ;; k" := (bind c (fun x => k))
  (at level 100, c at next level, right associativity) : async_scope.
Notation "c ;;; k" := (bind c (fun _ => k))
  (at level 100, right associativity) : async_scope.
Local Open Scope async_scope.

(** [for (const x of xs) { await body(x) }] *)
Fixpoint for_of {A} (xs : list A) (body : A -> Async unit) : Async unit :=
  match xs with
  | [] => ret tt
  | x :: rest => body x ;;; for_of rest body
  end.

(** The same loop over a local variable that the body updates. *)
Fixpoint for_of_with {A S} (xs : list A) (body : A -> S -> Async S) (s : S) : Async S :=
  match xs with
  | [] => ret s
  | x :: rest => s' <- body x s ;; for_of_with rest body s'
  end.

Definition get_world : Async World := fun w => (Return w, w).

Definition emit (e : Event) : Async unit :=
  fun w => (Return tt, {| fs := fs w; trace := trace w ++ [e] |}).

(** A host answer that does not change the world. *)
Definition ask {A} (q : World -> Completion A) : Async A := fun w => (q w, w).

(** ** fs-extra *)

Module Fs.

Definition pathExists (file : string) : Async bool :=
  fun w => (Return (bool_decide (is_Some (tree (fs w) !! file))), w).

Definition readFile (file : string) : Async string :=
  fun w =>
    match tree (fs w) !! file with
    | Some (File content) => (Return content, w)
    | Some Unreadable => (Throw ("EACCES: permission denied, open '" ++ file ++ "'"), w)
    | None => (Throw ("ENOENT: no such file or directory, open '" ++ file ++ "'"), w)
    end.

Definition writeFile (file content : string) : Async unit :=
  fun w =>
    (Return tt,
     {| fs := {| tree := <[file := File content]> (tree (fs w));
                 metadata := metadata (fs w);
                 backupDirs := backupDirs (fs w) |};
        trace := trace w ++ [EvWriteFile file content] |}).

(** [fs.ensureDir(dir)] for a directory below the backup directory. *)
Definition ensureDir (dir : string) : Async unit :=
  fun w =>
    (Return tt,
     {| fs := {| tree := tree (fs w);
                 metadata := metadata (fs w);
                 backupDirs := match backupDirs (fs w) !! dir with
                               | Some _ => backupDirs (fs w)
                               | None => <[dir := ∅]> (backupDirs (fs w))
                               end |};
        trace := trace w ++ [EvEnsureDir dir] |}).

(** [fs.copy(path.join(process.cwd(), file), path.join(dir, file))]: a
    project file into a backup directory. *)
Definition copy_to_backup (file dir : string) : Async unit :=
  fun w =>
    let w' := {| fs := fs w; trace := trace w ++ [EvCopy file (dir ++ "/" ++ file)] |} in
    match tree (fs w) !! file with
    | Some (File content) =>
        (Return tt,
         {| fs := {| tree := tree (fs w);
                     metadata := metadata (fs w);
                     backupDirs := <[dir := <[file := File content]>
                                              (default ∅ (backupDirs (fs w) !! dir))]>
                                     (backupDirs (fs w)) |};
            trace := trace w' |})
    | Some Unreadable => (Throw ("EACCES: permission denied, open '" ++ file ++ "'"), w')
    | None => (Throw ("ENOENT: no such file or directory, lstat '" ++ file ++ "'"), w')
    end.

(** [fs.copy(path.join(dir, file), path.join(process.cwd(), file))]: a
    file of a backup directory back onto the project root. *)
Definition copy_from_backup (dir file : string) : Async unit :=
  fun w =>
    let w' := {| fs := fs w; trace := trace w ++ [EvCopy (dir ++ "/" ++ file) file] |} in
    match backupDirs (fs w) !! dir ≫= (.!! file) with
    | Some (File content) =>
        (Return tt,
         {| fs := {| tree := <[file := File content]> (tree (fs w));
                     metadata := metadata (fs w);
                     backupDirs := backupDirs (fs w) |};
            trace := trace w' |})
    | Some Unreadable => (Throw ("EACCES: permission denied, open '" ++ dir ++ "/" ++ file ++ "'"), w')
    | None => (Throw ("ENOENT: no such file or directory, lstat '" ++ dir ++ "/" ++ file ++ "'"), w')
    end.

(** [fs.pathExists(dir)] and [fs.readdir(dir)] for a backup directory. *)
Definition dirExists (dir : string) : Async bool :=
  fun w => (Return (bool_decide (is_Some (backupDirs (fs w) !! dir))), w).

Definition readdir (dir : string) : Async (list string) :=
  fun w =>
    match backupDirs (fs w) !! dir with
    | Some files => (Return (map fst (map_to_list files)), w)
    | None => (Throw ("ENOENT: no such file or directory, scandir '" ++ dir ++ "'"), w)
    end.


(** [fs.pathExists], [fs.readJson] and [fs.writeJson] on metadata.json. *)
Definition metadataExists : Async bool :=
  fun w => (Return (bool_decide (is_Some (metadata (fs w)))), w).

Definition readMetadata : Async (list Backup) :=
  fun w =>
    match metadata (fs w) with
    | Some catalog => (Return catalog, w)
    | None => (Throw "ENOENT: no such file or directory, open 'metadata.json'", w)
    end.

Definition writeMetadata (catalog : list Backup) : Async unit :=
  fun w =>
    (Return tt,
     {| fs := {| tree := tree (fs w);
                 metadata := Some catalog;
                 backupDirs := backupDirs (fs w) |};
        trace := trace w ++ [EvWriteJson catalog] |}).

End Fs.

(** ** src/analyzers/compatibility.ts: [class ProjectAnalyzer] *)

Module Compatibility.

(** JavaScript numbers that come out of [parseInt]: [None] is NaN, for
    which every comparison is false. *)
Definition number_lt (a : option N) (b : N) : bool :=
  match a with
  | Some x => (x <? b)%N
  | None => false
  end.

Record Version := {
  major : option N;
  minor : option N;
  patch : option N
}.

Definition parseVersion (version : string) : Version :=
  match Js.match_version version with
  | Some (m1, m2, m3) =>
      {| major := Js.parseInt m1; minor := Js.parseInt m2; patch := Js.parseInt m3 |}
  | None => {| major := Some 0%N; minor := Some 0%N; patch := Some 0%N |}
  end.

(** Assignments to the fields of the [analysis] object. *)
Definition push_issue (issue : string) (a : ProjectAnalysis) : ProjectAnalysis :=
  {| isCompatible := isCompatible a; currentVersion := currentVersion a;
     filesToTransform := filesToTransform a; issues := issues a ++ [issue];
     recommendations := recommendations a; complexity := complexity a;
     estimatedTime := estimatedTime a |}.

Definition push_recommendation (r : string) (a : ProjectAnalysis) : ProjectAnalysis :=
  {| isCompatible := isCompatible a; currentVersion := currentVersion a;
     filesToTransform := filesToTransform a; issues := issues a;
     recommendations := recommendations a ++ [r]; complexity := complexity a;
     estimatedTime := estimatedTime a |}.

Definition push_file (f : FileToTransform) (a : ProjectAnalysis) : ProjectAnalysis :=
  {| isCompatible := isCompatible a; currentVersion := currentVersion a;
     filesToTransform := filesToTransform a ++ [f]; issues := issues a;
     recommendations := recommendations a; complexity := complexity a;
     estimatedTime := estimatedTime a |}.

Definition set_isCompatible (b : bool) (a : ProjectAnalysis) : ProjectAnalysis :=
  {| isCompatible := b; currentVersion := currentVersion a;
     filesToTransform := filesToTransform a; issues := issues a;
     recommendations := recommendations a; complexity := complexity a;
     estimatedTime := estimatedTime a |}.

Definition set_currentVersion (v : string) (a : ProjectAnalysis) : ProjectAnalysis :=
  {| isCompatible := isCompatible a; currentVersion := v;
     filesToTransform := filesToTransform a; issues := issues a;
     recommendations := recommendations a; complexity := complexity a;
     estimatedTime := estimatedTime a |}.

Definition set_complexity (c : Complexity) (t : string) (a : ProjectAnalysis)
    : ProjectAnalysis :=
  {| isCompatible := isCompatible a; currentVersion := currentVersion a;
     filesToTransform := filesToTransform a; issues := issues a;
     recommendations := recommendations a; complexity := c;
     estimatedTime := t |}.

Definition problematicDeps : list string := ["next-amp"; "next-pwa"; "next-seo"].

Definition patterns : list string :=
  [ "middleware.ts"; "middleware.js";
    "next.config.js"; "next.config.ts"; "next.config.mjs";
    "pages/**/*.tsx"; "pages/**/*.jsx"; "pages/**/*.ts"; "pages/**/*.js";
    "app/**/*.tsx"; "app/**/*.jsx"; "app/**/*.ts"; "app/**/*.js";
    "components/**/*.tsx"; "components/**/*.jsx";
    "lib/**/*.ts"; "lib/**/*.js";
    "utils/**/*.ts"; "utils/**/*.js" ].

Definition getFileType (filePath : string) : FileType :=
  if Js.includes filePath "middleware" || Js.includes filePath "proxy" then Middleware
  else if Js.includes filePath "next.config" then Config
  else if Js.includes filePath "pages/api" || Js.includes filePath "app/api" then Api
  else if Js.includes filePath "components" || Js.includes filePath "pages"
          || Js.includes filePath "app" then Component
  else Other.

(** [if (cond) { transformations.push(tag) }] *)
Definition push_if (cond : bool) (tag : string) (transformations : list string) : list string :=
  if cond then transformations ++ [tag] else transformations.

(** The seven checks of [analyzeFile], in the order of the source. *)
Definition detect (filePath content : string) : list string :=
  let t := [] in
  let t := push_if (String.eqb filePath "middleware.ts" || String.eqb filePath "middleware.js")
             "middleware-to-proxy" t in
  let t := push_if (Js.includes content "revalidateTag" && negb (Js.includes content "cacheLife"))
             "update-revalidate-tag" t in
  let t := push_if (Js.includes content "revalidateTag(" && negb (Js.includes content "revalidateTag("))
             "add-cache-life-profile" t in
  let t := push_if (Js.includes content "next/image" || Js.includes content "next/legacy/image")
             "update-next-image" t in
  let t := push_if (Js.includes content "params" && negb (Js.includes content "await params"))
             "make-params-async" t in
  let t := push_if (Js.includes content "searchParams" && negb (Js.includes content "await searchParams"))
             "make-search-params-async" t in
  let t := push_if ((Js.includes content "cookies()" || Js.includes content "headers()")
                    && negb (Js.includes content "await cookies()")
                    && negb (Js.includes content "await headers()"))
             "make-cookies-headers-async" t in
  t.

Definition analyzeFile (filePath : string) : Async FileToTransform :=
  content <- Fs.readFile filePath ;;
  ret {| path := filePath;
         type := getFileType filePath;
         transformations := detect filePath content |}.

Definition calculateComplexity (analysis : ProjectAnalysis) : ProjectAnalysis :=
  let fileCount := length (filesToTransform analysis) in
  let issueCount := length (issues analysis) in
  if (50 <? fileCount)%nat || (5 <? issueCount)%nat then
    set_complexity High "30-60 minutes" analysis
  else if (20 <? fileCount)%nat || (2 <? issueCount)%nat then
    set_complexity Medium "15-30 minutes" analysis
  else
    set_complexity Low "5-15 minutes" analysis.

Section WithHost.
Context `{Host}.

(** [fs.readJson(packageJsonPath)] *)
Definition readJson (file : string) : Async PackageJson :=
  text <- Fs.readFile file ;;
  match JSON_parse text with
  | Some json => ret json
  | None => throw (file ++ ": Unexpected token in JSON")
  end.

Definition analyzePackageJson (analysis : ProjectAnalysis) : Async ProjectAnalysis :=
  found <- Fs.pathExists "package.json" ;;
  if negb found then
    ret (set_isCompatible false (push_issue "No package.json found" analysis))
  else
    packageJson <- readJson "package.json" ;;
    let nextVersion :=
      Js.or_else (dependencies packageJson !! "next") (devDependencies packageJson !! "next") in
    let analysis :=
      match nextVersion with
      | Some v =>
          if Js.truthy nextVersion then
            let analysis := set_currentVersion v analysis in
            if number_lt (major (parseVersion v)) 14 then
              set_isCompatible false
                (push_issue ("Next.js version " ++ v ++
                             " is too old. Need version 14+ for migration to 16.") analysis)
            else analysis
          else
            set_isCompatible false (push_issue "Next.js not found in dependencies" analysis)
      | None =>
          set_isCompatible false (push_issue "Next.js not found in dependencies" analysis)
      end in
    ret (fold_left
           (fun analysis dep =>
              if Js.truthy (Js.or_else (dependencies packageJson !! dep)
                                       (devDependencies packageJson !! dep))
              then push_recommendation ("Consider updating or removing " ++ dep)
                     (push_issue ("Dependency " ++ dep ++
                                  " may not be compatible with Next.js 16") analysis)
              else analysis)
           problematicDeps analysis).

Definition findFilesToTransform (analysis : ProjectAnalysis) : Async ProjectAnalysis :=
  for_of_with patterns
    (fun pattern analysis =>
       w <- get_world ;;
       let files := glob pattern (fs w) in
       for_of_with files
         (fun file analysis =>
            fileAnalysis <- analyzeFile file ;;
            if (0 <? length (transformations fileAnalysis))%nat
            then ret (push_file fileAnalysis analysis)
            else ret analysis)
         analysis)
    analysis.

Definition checkCompatibility (analysis : ProjectAnalysis) : Async ProjectAnalysis :=
  w <- get_world ;;
  let ampFiles := glob "**/*.amp.*" (fs w) in
  let analysis :=
    if (0 <? length ampFiles)%nat
    then push_recommendation "Remove AMP files and configurations"
           (push_issue "AMP support has been removed in Next.js 16" analysis)
    else analysis in
  let configFiles := glob "next.config.*" (fs w) in
  analysis <-
    for_of_with configFiles
      (fun configFile analysis =>
         content <- Fs.readFile configFile ;;
         if Js.includes content "experimental.ppr"
         then ret (push_recommendation "Use cacheComponents configuration instead"
                     (push_issue "experimental.ppr flag has been removed in Next.js 16" analysis))
         else ret analysis)
      analysis ;;
  let nodeVersion := process_version in
  let majorVersion := Js.parseInt (Js.before_dot (Js.slice1 nodeVersion)) in
  if number_lt majorVersion 20 then
    ret (set_isCompatible false
           (push_issue ("Node.js " ++ nodeVersion ++
                        " is not supported. Next.js 16 requires Node.js 20.9+") analysis))
  else ret analysis.

Definition analyze : Async ProjectAnalysis :=
  let analysis :=
    {| isCompatible := true; currentVersion := "unknown"; filesToTransform := [];
       issues := []; recommendations := []; complexity := Low;
       estimatedTime := "5-10 minutes" |} in
  analysis <- analyzePackageJson analysis ;;
  analysis <- findFilesToTransform analysis ;;
  analysis <- checkCompatibility analysis ;;
  ret (calculateComplexity analysis).

End WithHost.

End Compatibility.

(** ** src/transformers/engine.ts: [class MigrationEngine] *)

Module Engine.

Import Ast.

(** jscodeshift's [FileInfo]. *)
Record FileInfo := {
  fileInfo_path : string;
  source : string
}.

Definition descriptions : list (string * string) :=
  [ ("middleware-to-proxy", "Convert middleware.ts to proxy.ts");
    ("update-revalidate-tag", "Update revalidateTag calls with cacheLife profile");
    ("add-cache-life-profile", "Add cacheLife profile to revalidateTag");
    ("update-next-image", "Update next/image imports and usage");
    ("make-params-async", "Make params usage async");
    ("make-search-params-async", "Make searchParams usage async");
    ("make-cookies-headers-async", "Make cookies/headers usage async") ].

(** [map.get(key)] on a list of entries with distinct keys. *)
Definition lookup_entry {V} (key : string) (entries : list (string * V)) : option V :=
  snd <$> List.find (fun entry => String.eqb (fst entry) key) entries.

Definition getTransformationDescription (transformation : string) : string :=
  default transformation (lookup_entry transformation descriptions).

Definition transformation_change (file transformation : string) : Change :=
  {| change_file := file;
     change_description := getTransformationDescription transformation;
     change_type := Transformation |}.

(** *** The callbacks of the seven rules *)

(** [transformMiddlewareToProxy]: on an [ExportDefaultDeclaration]. *)
Definition is_export_default (n : node) : bool :=
  match node_kind n with
  | KExportDefault => true
  | _ => false
  end.

Definition rename_default_export (n : node) : node :=
  match n with
  | Node KExportDefault (Node (KFunctionDeclaration id) params_body :: rest) =>
      if bool_decide (id = Some "middleware")
      then Node KExportDefault (Node (KFunctionDeclaration (Some "proxy")) params_body :: rest)
      else n
  | Node KExportDefault (Node (KFunctionExpression _) params_body :: rest) =>
      Node KExportDefault (functionDeclaration "proxy" params_body :: rest)
  | _ => n
  end.

(** [updateRevalidateTag]: on a [CallExpression] whose callee is the
    identifier [revalidateTag]. *)
Definition is_call_of (names : list string) (n : node) : bool :=
  match n with
  | Node KCall (callee :: _) => existsb (fun name => is_identifier_named name callee) names
  | _ => false
  end.

Definition push_max (n : node) : node :=
  match n with
  | Node KCall (callee :: args) =>
      if (length args =? 1)%nat
      then Node KCall (callee :: args ++ [literal "max"])
      else n
  | _ => n
  end.

(** [updateNextImage]: on an [ImportDeclaration] whose source is the
    literal 'next/legacy/image'. *)
Definition is_import_from (value : string) (n : node) : bool :=
  match n with
  | Node KImport cs =>
      match last cs with
      | Some (Node (KLiteral v) _) => String.eqb v value
      | _ => false
      end
  | _ => false
  end.

Definition set_import_source (value : string) (n : node) : node :=
  match n with
  | Node KImport cs => Node KImport (<[pred (length cs) := literal value]> cs)
  | _ => n
  end.

(** [makeParamsAsync], [makeSearchParamsAsync]: on the parent of an
    identifier named [name], when that parent is a [MemberExpression]. *)
Definition await_member_object (name : string) (parent : node) : node :=
  match parent with
  | Node (KMember computed) (_ :: property :: _) =>
      memberExpression (awaitExpression (identifier name)) property computed
  | _ => parent
  end.

(** [makeCookiesHeadersAsync]: on a call of [cookies] or [headers]. *)
Definition await_callee (n : node) : node :=
  match n with
  | Node KCall (callee :: args) =>
      if is_identifier_named "cookies" callee || is_identifier_named "headers" callee
      then Node KCall (awaitExpression callee :: args)
      else n
  | _ => n
  end.

Section WithHost.
Context `{Host}.

(** [const root = j(fileInfo.source); ...; return root.toSource()] *)
Definition with_root (fileInfo : FileInfo) (rewrite : node -> node) : Completion string :=
  match j_parse (source fileInfo) with
  | Return body => Return (j_toSource (source fileInfo) (rewrite (file body)))
  | Throw message => Throw message
  end.

Definition transformMiddlewareToProxy (fileInfo : FileInfo) : Completion string :=
  with_root fileInfo
    (fun root => forEach (find is_export_default root) rename_default_export root).

Definition updateRevalidateTag (fileInfo : FileInfo) : Completion string :=
  with_root fileInfo
    (fun root => forEach (find (is_call_of ["revalidateTag"]) root) push_max root).

Definition addCacheLifeProfile (fileInfo : FileInfo) : Completion string :=
  Return (source fileInfo).

Definition updateNextImage (fileInfo : FileInfo) : Completion string :=
  with_root fileInfo
    (fun root => forEach (find (is_import_from "next/legacy/image") root)
                   (set_import_source "next/image") root).

Definition makeParamsAsync (fileInfo : FileInfo) : Completion string :=
  with_root fileInfo
    (fun root => forEach_parent (find (is_identifier_named "params") root)
                   (await_member_object "params") root).

Definition makeSearchParamsAsync (fileInfo : FileInfo) : Completion string :=
  with_root fileInfo
    (fun root => forEach_parent (find (is_identifier_named "searchParams") root)
                   (await_member_object "searchParams") root).

Definition makeCookiesHeadersAsync (fileInfo : FileInfo) : Completion string :=
  with_root fileInfo
    (fun root => forEach (find (is_call_of ["cookies"; "headers"]) root) await_callee root).

(** [initializeTransformations]: the registry, a [Map] from tag to rule. *)
Definition initializeTransformations : list (string * (FileInfo -> Completion string)) :=
  [ ("middleware-to-proxy", transformMiddlewareToProxy);
    ("update-revalidate-tag", updateRevalidateTag);
    ("add-cache-life-profile", addCacheLifeProfile);
    ("update-next-image", updateNextImage);
    ("make-params-async", makeParamsAsync);
    ("make-search-params-async", makeSearchParamsAsync);
    ("make-cookies-headers-async", makeCookiesHeadersAsync) ].

(** One round of the loop over [fileToTransform.transformations]; the
    loop variables are [transformedSource] and [changes]. *)
Definition applyTransformation (filePath transformation : string)
    (state : string * list Change) : Async (string * list Change) :=
  let '(transformedSource, changes) := state in
  match lookup_entry transformation initializeTransformations with
  | Some transformer =>
      emit (EvRewrite transformation filePath) ;;;
      match transformer {| fileInfo_path := filePath; source := transformedSource |} with
      | Return transformed =>
          ret (transformed, changes ++ [transformation_change filePath transformation])
      | Throw message =>
          throw ("Transformation " ++ transformation ++ " failed: " ++ message)
      end
  | None => ret (transformedSource, changes)
  end.

Definition transformFile (fileToTransform : FileToTransform) : Async (list Change) :=
  let filePath := path fileToTransform in
  found <- Fs.pathExists filePath ;;
  if negb found then throw ("File not found: " ++ filePath)
  else
    source <- Fs.readFile filePath ;;
    final <- for_of_with (transformations fileToTransform)
               (applyTransformation filePath) (source, []) ;;
    let '(transformedSource, changes) := final in
    (if negb (String.eqb transformedSource source)
     then Fs.writeFile filePath transformedSource
     else ret tt) ;;;
    ret changes.

(** The body of the loop of [migrate]: one file, with its try/catch. *)
Definition migrateFile (file : FileToTransform) (result : MigrationResult) : Async MigrationResult :=
  try_catch
    (fileResult <- transformFile file ;;
     ret {| successful := S (successful result); failed := failed result;
            changes := changes result ++ fileResult; errors := errors result |})
    (fun message =>
       ret {| successful := successful result; failed := S (failed result);
              changes := changes result;
              errors := errors result ++ [{| error_file := path file; error_message := message |}] |}).

Definition migrateFiles (files : list FileToTransform) (result : MigrationResult) : Async MigrationResult :=
  for_of_with files migrateFile result.

Definition migrate : Async MigrationResult :=
  analysis <- Compatibility.analyze ;;
  migrateFiles (filesToTransform analysis)
    {| successful := 0; failed := 0; changes := []; errors := [] |}.

Definition previewChanges : Async (list Change) :=
  analysis <- Compatibility.analyze ;;
  ret (flat_map
         (fun file => map (transformation_change (path file)) (transformations file))
         (filesToTransform analysis)).

End WithHost.

End Engine.

(** ** src/utils/backup.ts: [class BackupManager] *)

Module BackupManager.

Definition backupDir : string := ".nextjs16-migrator/backups".

Definition filesToBackup : list string :=
  [ "package.json"; "package-lock.json"; "yarn.lock";
    "next.config.js"; "next.config.ts"; "tsconfig.json";
    "tailwind.config.js"; "tailwind.config.ts";
    ".env.local"; ".env"; "middleware.ts"; "proxy.ts" ].

(** [metadata.slice(0, n)] *)
Definition slice0 {A} (n : nat) (l : list A) : list A := take n l.

Section WithHost.
Context `{Host}.

(** A call of simple-git that does not touch the files. *)
Definition git {A} (command : GitCommand) (answer : World -> Completion A) : Async A :=
  emit (EvGit command) ;;; ask answer.

(** [this.git.reset([...])] *)
Definition git_reset_files (args : list string) : Async unit :=
  emit (EvGit (GitReset args)) ;;;
  fun w =>
    let '(outcome, files) := git_reset args w in
    (outcome, {| fs := files; trace := trace w |}).

Definition createGitBackup (backupId : string) : Async (option string) :=
  try_catch
    (isRepo <- git GitCheckIsRepo git_checkIsRepo ;;
     if negb isRepo then ret None
     else
       changed <- git GitStatus git_status ;;
       (if (0 <? changed)%nat then
          git (GitAdd ".") (git_add ".") ;;;
          let message := "Auto-commit before Next.js 16 migration backup " +:+ backupId in
          _ <- git (GitCommit message) (git_commit message) ;;
          ret tt
        else ret tt) ;;;
       git (GitAdd ".") (git_add ".") ;;;
       let message := "Next.js 16 migration backup: " +:+ backupId in
       commit <- git (GitCommit message) (git_commit message) ;;
       ret (Some commit))
    (fun _ => ret None).

Definition createFilesBackup (backupId : string) : Async string :=
  let backupPath := backupDir +:+ "/" +:+ backupId in
  Fs.ensureDir backupPath ;;;
  for_of filesToBackup
    (fun file =>
       found <- Fs.pathExists file ;;
       if found then Fs.copy_to_backup file backupPath else ret tt) ;;;
  ret backupPath.

Definition saveBackupMetadata (backup : Backup) : Async unit :=
  found <- Fs.metadataExists ;;
  metadata <- (if found then Fs.readMetadata else ret []) ;;
  let metadata := backup :: metadata in
  let metadata := if (10 <? length metadata)%nat then slice0 10 metadata else metadata in
  Fs.writeMetadata metadata.

Definition createBackup : Async string :=
  w <- get_world ;;
  let backupId := "backup-" +:+ pretty (Date_now w) in
  let timestamp := Date_toISOString w in
  Fs.ensureDir backupDir ;;;
  gitCommit <- createGitBackup backupId ;;
  filesBackup <- createFilesBackup backupId ;;
  saveBackupMetadata
    {| id := backupId; timestamp := timestamp; description := "Pre-migration backup";
       gitCommit := gitCommit; filesBackup := Some filesBackup |} ;;;
  ret backupId.

Definition listBackups : Async (list Backup) :=
  found <- Fs.metadataExists ;;
  if negb found then ret [] else Fs.readMetadata.

Definition restoreBackup (backupId : string) : Async unit :=
  backups <- listBackups ;;
  match List.find (fun b => String.eqb (id b) backupId) backups with
  | None => throw ("Backup " ++ backupId ++ " not found")
  | Some backup =>
      (match gitCommit backup with
       | Some commit =>
           if Js.truthy (Some commit)
           then try_catch (git_reset_files ["--hard"; commit]) (fun _ => ret tt)
           else ret tt
       | None => ret tt
       end) ;;;
      match filesBackup backup with
      | Some dir =>
          if Js.truthy (Some dir) then
            found <- Fs.dirExists dir ;;
            if found then
              files <- Fs.readdir dir ;;
              for_of files (fun file => Fs.copy_from_backup dir file)
            else ret tt
          else ret tt
      | None => ret tt
      end
  end.


End WithHost.

End BackupManager.

(** ** src/utils/reporting.ts and src/cli/commands/migrate.ts *)

Module Migrate.

(** [interface MigrateOptions]; [None] is an option that was not given. *)
Record MigrateOptions := {
  dryRun : option bool;
  yes : option bool;
  backup : option bool;
  performance : option bool;
  batch : option bool
}.

Definition flag (o : option bool) : bool := default false o.

Section WithHost.
Context `{Host}.

(** [ReportGenerator.generateReport] *)
Definition generateReport (data : MigrationReport) : Async string :=
  let reportPath := "migration-report.html" in
  Fs.writeFile reportPath (generateHTMLReport data) ;;;
  ret reportPath.

(** [new PerformanceAnalyzer().analyze()] *)
Definition performanceAnalyze : Async PerformanceMetrics :=
  emit EvBuild ;;;
  fun w =>
    let '(metrics, files) := performance_analyze w in
    (Return metrics, {| fs := files; trace := trace w |}).

Definition confirm (message : string) : Async bool :=
  emit (EvPrompt message) ;;; ask (prompt_confirm message).

Definition migrateCommand (options : MigrateOptions) : Async unit :=
  (* Step 1: Project Analysis *)
  analysis <- Compatibility.analyze ;;
  if negb (isCompatible analysis) then ret tt
  else
    (* Step 2: Backup Creation *)
    (if negb (bool_decide (backup options = Some false))
     then _ <- BackupManager.createBackup ;; ret tt
     else ret tt) ;;;
    (* Step 3: Confirmation (unless batch mode or --yes) *)
    proceed <-
      (if negb (flag (batch options)) && negb (flag (yes options))
       then confirm ("Ready to migrate " +:+
                     pretty (length (filesToTransform analysis)) +:+ " files?")
       else ret true) ;;
    if negb proceed then ret tt
    else
      (* Step 4: Performance Analysis (if requested) *)
      performanceBaseline <-
        (if flag (performance options)
         then m <- performanceAnalyze ;; ret (Some m)
         else ret None) ;;
      (* Step 5: Migration Execution *)
      if flag (dryRun options) then
        _ <- Engine.previewChanges ;; ret tt
      else
        results <- Engine.migrate ;;
        (* Step 6: Post-migration Analysis *)
        _ <- Compatibility.analyze ;;
        (* Step 7: Performance Comparison (if requested) *)
        performanceComparison <-
          (match performanceBaseline with
           | Some before =>
               if flag (performance options)
               then after <- performanceAnalyze ;; ret (Some (before, after))
               else ret None
           | None => ret None
           end) ;;
        (* Step 8: Generate Report *)
        w <- get_world ;;
        _ <- generateReport
               {| report_timestamp := Date_toISOString w;
                  projectName := "Next.js Project";
                  report_analysis := analysis;
                  report_results := results;
                  performanceComparison := performanceComparison;
                  report_backupId :=
                    if negb (bool_decide (backup options = Some false))
                    then Some "backup-id" else None |} ;;
        ret tt.

End WithHost.

End Migrate.

(** ** src/cli/commands/rollback.ts *)

Module Rollback.

(** [interface RollbackOptions]. *)
Record RollbackOptions := {
  yes : option bool
}.

(** inquirer's [list] prompt over the backups: the [value] of the choice
    that was taken. *)
Class ListPrompt := {
  prompt_list : string -> list Backup -> World -> Completion Backup
}.

Section WithHost.
Context `{Host} `{ListPrompt}.

Definition choose (message : string) (choices : list Backup) : Async Backup :=
  emit (EvPrompt message) ;;; ask (prompt_list message choices).

(** [backups.length === 0] is the empty list; otherwise [backups[0]] is
    its head. *)
Definition rollbackCommand (options : RollbackOptions) : Async unit :=
  try_catch
    (backups <- BackupManager.listBackups ;;
     match backups with
     | [] => ret tt
     | newest :: _ =>
         selectedBackup <-
           (if Migrate.flag (yes options) then ret newest
            else choose "Which backup would you like to restore?" backups) ;;
         proceed <-
           (if negb (Migrate.flag (yes options))
            then Migrate.confirm ("Are you sure you want to restore from backup " +:+
                                  id selectedBackup +:+ "?")
            else ret true) ;;
         if negb proceed then ret tt
         else BackupManager.restoreBackup (id selectedBackup)
     end)
    (fun message => throw message).

End WithHost.

End Rollback.

(** ** src/cli/commands/analyze.ts and src/cli/commands/interactive.ts *)

Module Analyze.

(** [interface AnalyzeOptions]. *)
Record AnalyzeOptions := {
  performance : option bool;
  detailed : option bool
}.

Section WithHost.
Context `{Host}.

(** What [analyzeCommand] prints is not part of the world. *)
Definition analyzeCommand (options : AnalyzeOptions) : Async unit :=
  try_catch
    (analysis <- Compatibility.analyze ;;
     (if Migrate.flag (performance options)
      then _ <- Migrate.performanceAnalyze ;; ret tt
      else ret tt) ;;;
     ret tt)
    (fun message => throw message).

End WithHost.

End Analyze.

Module Interactive.

(** The [value]s of the choices of the wizard's list prompt. *)
Inductive Action := ActionAnalyze | ActionMigrate | ActionRollback | ActionDocs | ActionExit.

Class ActionPrompt := {
  prompt_action : string -> World -> Completion Action
}.

Section WithHost.
Context `{Host} `{Rollback.ListPrompt} `{ActionPrompt}.

Definition interactiveCommand : Async unit :=
  action <- (emit (EvPrompt "What would you like to do?") ;;;
             ask (prompt_action "What would you like to do?")) ;;
  match action with
  | ActionAnalyze =>
      Analyze.analyzeCommand {| Analyze.performance := None; Analyze.detailed := Some true |}
  | ActionMigrate =>
      Migrate.migrateCommand
        {| Migrate.dryRun := None; Migrate.yes := None; Migrate.backup := None;
           Migrate.performance := None; Migrate.batch := None |}
  | ActionRollback => Rollback.rollbackCommand {| Rollback.yes := None |}
  | ActionDocs => ret tt
  | ActionExit => ret tt
  end.

End WithHost.

End Interactive.

(** ** A concrete host and concrete projects *)

Module Demo.

Import Ast.

(** Wildcard matching for the patterns of the analyzer, on the paths of
    the demonstration projects: [*] stands for any text and the directory
    wildcard [**/] for any prefix. *)
Fixpoint wildcard (pattern s : string) : bool :=
  match pattern with
  | EmptyString => String.eqb s ""
  | String "*"%char pattern' =>
      (fix skip (s : string) : bool :=
         wildcard pattern' s ||
         match s with
         | EmptyString => false
         | String _ s' => skip s'
         end) s
  | String c pattern' =>
      match s with
      | String d s' => Ascii.eqb c d && wildcard pattern' s'
      | EmptyString => false
      end
  end.

Fixpoint simplify_pattern (pattern : string) : string :=
  match pattern with
  | String "*"%char (String "*"%char (String "/"%char rest)) => simplify_pattern rest
  | String c rest => String c (simplify_pattern rest)
  | EmptyString => EmptyString
  end.

Definition demo_glob (pattern : string) (files : FileSystem) : list string :=
  filter (fun file => Is_true (wildcard (simplify_pattern pattern) file))
         (map fst (map_to_list (tree files))).

(** A printer for the fragment of JavaScript the demonstrations use. *)
Definition join (sep : string) (parts : list string) : string :=
  match parts with
  | [] => ""
  | first :: rest => fold_left (fun acc part => acc +:+ sep +:+ part) rest first
  end.

Fixpoint print (n : node) : string :=
  let 'Node k cs := n in
  let printed := map print cs in
  match k, printed with
  | KIdentifier name, _ => name
  | KLiteral value, _ => "'" +:+ value +:+ "'"
  | KCall, callee :: args => callee +:+ "(" +:+ join ", " args +:+ ")"
  | KMember false, [object; property] => object +:+ "." +:+ property
  | KMember true, [object; property] => object +:+ "[" +:+ property +:+ "]"
  | KAwait, [argument] => "(await " +:+ argument +:+ ")"
  | KImport, [specifier; source] => "import " +:+ specifier +:+ " from " +:+ source +:+ ";"
  | KExportDefault, [declaration] => "export default " +:+ declaration
  | KFunctionDeclaration (Some name), [body] => "function " +:+ name +:+ "() " +:+ body
  | KFunctionDeclaration None, [body] => "function () " +:+ body
  | KFunctionExpression _, [body] => "(function () " +:+ body +:+ ")"
  | KOther "ExpressionStatement", [expression] => expression +:+ ";"
  | KOther "BlockStatement", _ => "{ " +:+ join " " printed +:+ " }"
  | _, _ => join " " printed
  end.

Definition statement (expression : node) : node :=
  Node (KOther "ExpressionStatement") [expression].

Definition call (callee : string) (args : list node) : node :=
  Node KCall (identifier callee :: args).

(** The programs the demonstration parser knows. *)
Definition revalidate_program : list node :=
  [ statement (call "revalidateTag" [literal "posts"]);
    statement (call "revalidateTag" [literal "posts"; literal "hours"]);
    statement (call "revalidateTag" [call "revalidateTag" [literal "a"]]) ].

Definition revalidate_program_after : list node :=
  [ statement (call "revalidateTag" [literal "posts"; literal "max"]);
    statement (call "revalidateTag" [literal "posts"; literal "hours"]);
    statement (call "revalidateTag"
                 [call "revalidateTag" [literal "a"; literal "max"]; literal "max"]) ].

Definition middleware_program : list node :=
  [ Node KExportDefault
      [Node (KFunctionDeclaration (Some "middleware")) [Node (KOther "BlockStatement") []]] ].

Definition proxy_program : list node :=
  [ Node KExportDefault
      [Node (KFunctionDeclaration (Some "proxy")) [Node (KOther "BlockStatement") []]] ].

Definition image_program : list node :=
  [ Node KImport [identifier "Image"; literal "next/legacy/image"] ].

Definition image_program_after : list node :=
  [ Node KImport [identifier "Image"; literal "next/image"] ].

Definition corpus : list (list node) :=
  [ revalidate_program; revalidate_program_after;
    middleware_program; proxy_program;
    image_program; image_program_after ].

Definition demo_toSource (original : string) (root : node) : string := print root.

Definition demo_parse (text : string) : Completion (list node) :=
  match List.find (fun body => String.eqb (print (file body)) text) corpus with
  | Some body => Return body
  | None => Throw "Unexpected token"
  end.

(** The manifest of the demonstration projects:
    [{ "dependencies": { "next": "15.0.0" } }]. *)
Definition quoted (s : string) : string :=
  String (ascii_of_nat 34) s +:+ String (ascii_of_nat 34) "".

Definition package_json_text : string :=
  "{ " +:+ quoted "dependencies" +:+ ": { " +:+ quoted "next" +:+ ": " +:+
  quoted "15.0.0" +:+ " } }".

Definition demo_JSON_parse (text : string) : option PackageJson :=
  if String.eqb text package_json_text
  then Some {| dependencies := {[ "next" := "15.0.0" ]}; devDependencies := ∅ |}
  else None.

Definition host : Host := {|
  glob := demo_glob;
  JSON_parse := demo_JSON_parse;
  process_version := "v20.11.0";
  Date_now := fun w => (1700000000000 + Z.of_nat (length (trace w)))%Z;
  Date_toISOString := fun _ => "2023-11-14T22:13:20.000Z";
  git_checkIsRepo := fun _ => Return true;
  git_status := fun _ => Return 0%nat;
  git_add := fun _ _ => Return tt;
  git_commit := fun _ w => Return ("c0ffee" +:+ pretty (length (trace w)));
  git_reset := fun _ w => (Return tt, fs w);
  prompt_confirm := fun _ _ => Return true;
  j_parse := demo_parse;
  j_toSource := demo_toSource;
  performance_analyze :=
    fun w => ({| buildTime := 0; bundleSize := 0; coreWebVitals := "good" |}, fs w);
  generateHTMLReport := fun _ => "<html></html>"
|}.

Definition world_of (files : list (string * Entry)) : World :=
  {| fs := {| tree := list_to_map files; metadata := None; backupDirs := ∅ |};
     trace := [] |}.

(** An empty directory: no manifest. *)
Definition empty_project : World := world_of [].

(** A project with a cache-invalidation helper, a middleware and a page
    that imports the legacy image component. *)
Definition project : World :=
  world_of
    [ ("package.json", File package_json_text);
      ("lib/cache.ts", File (print (file revalidate_program)));
      ("middleware.ts", File (print (file middleware_program)));
      ("app/page.tsx", File (print (file image_program))) ].

(** The same project with a page that cannot be read. *)
Definition project_with_unreadable_page : World :=
  world_of
    [ ("package.json", File package_json_text);
      ("lib/cache.ts", File (print (file revalidate_program)));
      ("app/page.tsx", Unreadable) ].

(** A project with a file that is not valid JavaScript. *)
Definition project_with_syntax_error : World :=
  world_of
    [ ("package.json", File package_json_text);
      ("lib/broken.ts", File "revalidateTag(");
      ("lib/cache.ts", File (print (file revalidate_program))) ].

End Demo.

(** ** Vocabulary of the properties *)

(** A computation that leaves the world as it found it and whose results
    satisfy [Q]. *)
Definition reads {A} (c : Async A) (Q : A -> Prop) : Prop :=
  forall w, snd (c w) = w /\ forall a, fst (c w) = Return a -> Q a.

(** A record produced by [analyzeFile]: its tags are those [detect] finds
    in some text read at its path. *)
Definition Scanned (f : FileToTransform) : Prop :=
  exists content, transformations f = Compatibility.detect (path f) content.

Definition AllScanned (analysis : ProjectAnalysis) : Prop :=
  Forall Scanned (filesToTransform analysis).

(** The world after further effects were recorded. *)
Definition add_trace (w : World) (events : list Event) : World :=
  {| fs := fs w; trace := trace w ++ events |}.

(** The file tree after [content] was written to [file]. *)
Definition written (file content : string) (files : FileSystem) : FileSystem :=
  {| tree := <[file := File content]> (tree files);
     metadata := metadata files;
     backupDirs := backupDirs files |}.

Section EngineVocabulary.
Context `{Host}.

(** The loop of [transformFile] over the tags of a file, told without the
    world: the text after the last rule (or the error of the rule that
    threw), and the tags whose rule was invoked, in order. *)
Fixpoint run_rules (filePath : string) (tags : list string) (text : string)
    : Completion string * list string :=
  match tags with
  | [] => (Return text, [])
  | tag :: rest =>
      match Engine.lookup_entry tag Engine.initializeTransformations with
      | Some rule =>
          match rule {| Engine.fileInfo_path := filePath; Engine.source := text |} with
          | Return text' =>
              let '(outcome, invoked) := run_rules filePath rest text' in
              (outcome, tag :: invoked)
          | Throw message =>
              (Throw ("Transformation " +:+ tag +:+ " failed: " +:+ message), [tag])
          end
      | None => run_rules filePath rest text
      end
  end.

Definition rewrites (filePath : string) (invoked : list string) : list Event :=
  map (fun tag => EvRewrite tag filePath) invoked.

End EngineVocabulary.

(** The effects the engine may perform for the records of [files]: a rule
    invoked for one of the tags of a record, or the text of a record
    written at its path. *)
Definition engine_event (files : list FileToTransform) (e : Event) : Prop :=
  match e with
  | EvRewrite tag file => exists f, f ∈ files /\ path f = file /\ tag ∈ transformations f
  | EvWriteFile file _ => exists f, f ∈ files /\ path f = file
  | _ => False
  end.

(** The backup catalog: the content of metadata.json, or no entry when the
    file does not exist. *)
Definition catalog (w : World) : list Backup := default [] (metadata (fs w)).

(** A computation that leaves a part of the file system alone: [part] is
    [tree] for the project files, [metadata] for metadata.json. *)
Definition keeps {X A} (part : FileSystem -> X) (c : Async A) : Prop :=
  forall w, part (fs (snd (c w))) = part (fs w).

(** Every file of the allowlist of [createFilesBackup] that exists can be
    read. *)
Definition backup_sources_readable (w : World) : Prop :=
  forall file, file ∈ BackupManager.filesToBackup -> tree (fs w) !! file <> Some Unreadable.

Section BackupVocabulary.
Context `{Host}.

(** [n] calls of [createBackup], one after the other; the ids they return,
    in the order of creation. *)
Fixpoint createBackups (n : nat) : Async (list string) :=
  match n with
  | O => ret []
  | S n' =>
      first <- BackupManager.createBackup ;;
      others <- createBackups n' ;;
      ret (first :: others)
  end%async.

End BackupVocabulary.

(** The paths [find] collects below the children [cs] of a node, the first
    of which has index [i]. *)
Fixpoint find_children (pred : Ast.node -> bool) (i : nat) (cs : list Ast.node)
    : list Ast.NodePath :=
  match cs with
  | [] => []
  | c :: cs' => map (cons i) (Ast.find pred c) ++ find_children pred (S i) cs'
  end.

(** The rewrite of the cache-invalidation calls in the words of the
    specification: wherever the tree has a call of the identifier
    [revalidateTag] with exactly one argument, the literal 'max' is appended
    as a second argument; every other node, a call with another number of
    arguments included, keeps its kind and its children, which are
    rewritten in the same way. *)
Fixpoint append_max (n : Ast.node) : Ast.node :=
  let 'Ast.Node k cs := n in
  let cs' := map append_max cs in
  match k, cs with
  | Ast.KCall, [callee; _] =>
      if Ast.is_identifier_named "revalidateTag" callee
      then Ast.Node Ast.KCall (cs' ++ [Ast.literal "max"])
      else Ast.Node k cs'
  | _, _ => Ast.Node k cs'
  end.

(** Records, options and results of the demonstrations. *)
Module Scenario.

Definition options : Migrate.MigrateOptions :=
  {| Migrate.dryRun := None; Migrate.yes := Some true; Migrate.backup := None;
     Migrate.performance := None; Migrate.batch := None |}.

Definition no_result : MigrationResult :=
  {| successful := 0; failed := 0; changes := []; errors := [] |}.

Definition incompatible_report : ProjectAnalysis :=
  {| isCompatible := false; currentVersion := "unknown"; filesToTransform := [];
     issues := ["No package.json found"]; recommendations := [];
     complexity := Low; estimatedTime := "5-15 minutes" |}.

Definition broken : FileToTransform :=
  {| path := "lib/broken.ts"; type := Other;
     transformations := ["update-revalidate-tag"] |}.

Definition cache : FileToTransform :=
  {| path := "lib/cache.ts"; type := Other;
     transformations := ["update-revalidate-tag"] |}.

Definition middleware : FileToTransform :=
  {| path := "middleware.ts"; type := Middleware;
     transformations := ["middleware-to-proxy"] |}.

Definition cache_result : MigrationResult :=
  {| successful := 1; failed := 0;
     changes := [Engine.transformation_change "lib/cache.ts" "update-revalidate-tag"];
     errors := [] |}.

Definition cache_text : string :=
  "revalidateTag('posts'); revalidateTag('posts', 'hours'); revalidateTag(revalidateTag('a'));".


Definition eleven_ids : list string :=
  [ "backup-1700000000000"; "backup-1700000000009"; "backup-1700000000018";
    "backup-1700000000027"; "backup-1700000000036"; "backup-1700000000045";
    "backup-1700000000054"; "backup-1700000000063"; "backup-1700000000072";
    "backup-1700000000081"; "backup-1700000000090" ].

(** A report with [n] files to transform and [m] issues. *)
Definition report (n m : nat) : ProjectAnalysis :=
  {| isCompatible := true; currentVersion := "15.0.0";
     filesToTransform := repeat cache n; issues := repeat "issue" m;
     recommendations := []; complexity := Low; estimatedTime := "5-10 minutes" |}.

End Scenario.

Section ScenarioRuns.
Context `{Host}.

(** The report of [analyze] and the result of [migrate] on a world, when
    they return. *)
Definition analysis_of (w : World) : option ProjectAnalysis :=
  match fst (Compatibility.analyze w) with
  | Return analysis => Some analysis
  | Throw _ => None
  end.


End ScenarioRuns.

(** ** Vocabulary of the further properties *)

(** A computation that, run in the world [w], leaves it as it found it and
    whose result there satisfies [Q]. *)
Definition reads_in (w : World) {A} (c : Async A) (Q : A -> Prop) : Prop :=
  snd (c w) = w /\ forall a, fst (c w) = Return a -> Q a.

Section ScannerVocabulary.
Context `{Host}.

(** The major version of the host runtime, as [checkCompatibility] reads
    it off [process.version]. *)
Definition node_major : option N :=
  Js.parseInt (Js.before_dot (Js.slice1 process_version)).

(** The version of next that a manifest declares:
    [dependencies?.next || devDependencies?.next]. *)
Definition declared_next (packageJson : PackageJson) : option string :=
  Js.or_else (dependencies packageJson !! "next") (devDependencies packageJson !! "next").

(** A record as the scan of the world [w] produces them: its path is one
    that [glob] returns for a pattern of the scanner, the file there has a
    text, the tags are those detected in that text and there is at least
    one, and the type is the one of the path. *)
Definition Listed (w : World) (f : FileToTransform) : Prop :=
  exists pattern content,
    pattern ∈ Compatibility.patterns /\
    path f ∈ glob pattern (fs w) /\
    tree (fs w) !! path f = Some (File content) /\
    transformations f = Compatibility.detect (path f) content /\
    transformations f <> [] /\
    type f = Compatibility.getFileType (path f).

(** What the steps after [analyzePackageJson] keep of a report. *)
Definition same_verdict (a a' : ProjectAnalysis) : Prop :=
  isCompatible a' = isCompatible a /\
  currentVersion a' = currentVersion a /\
  issues a' = issues a /\
  recommendations a' = recommendations a.

End ScannerVocabulary.

(** The report [analyze] starts from. *)
Definition initial_analysis : ProjectAnalysis :=
  {| isCompatible := true; currentVersion := "unknown"; filesToTransform := [];
     issues := []; recommendations := []; complexity := Low;
     estimatedTime := "5-10 minutes" |}.




(** Further demonstration hosts and projects. *)
Module Further.

(** A manifest that asks for the latest release:
    [{ "dependencies": { "next": "latest" } }]. *)
Definition latest_json_text : string :=
  "{ " +:+ Demo.quoted "dependencies" +:+ ": { " +:+ Demo.quoted "next" +:+ ": " +:+
  Demo.quoted "latest" +:+ " } }".

Definition host : Host := {|
  glob := Demo.demo_glob;
  JSON_parse := fun text =>
    if String.eqb text latest_json_text
    then Some {| dependencies := {[ "next" := "latest" ]}; devDependencies := ∅ |}
    else Demo.demo_JSON_parse text;
  process_version := "v20.11.0";
  Date_now := @Date_now Demo.host;
  Date_toISOString := @Date_toISOString Demo.host;
  git_checkIsRepo := fun _ => Return false;
  git_status := @git_status Demo.host;
  git_add := @git_add Demo.host;
  git_commit := @git_commit Demo.host;
  git_reset := @git_reset Demo.host;
  prompt_confirm := fun _ _ => Return false;
  j_parse := Demo.demo_parse;
  j_toSource := Demo.demo_toSource;
  performance_analyze := @performance_analyze Demo.host;
  generateHTMLReport := @generateHTMLReport Demo.host
|}.

(** The demonstration host on a runtime that is too old. *)
Definition old_node_host : Host := {|
  glob := Demo.demo_glob;
  JSON_parse := Demo.demo_JSON_parse;
  process_version := "v18.17.0";
  Date_now := @Date_now Demo.host;
  Date_toISOString := @Date_toISOString Demo.host;
  git_checkIsRepo := @git_checkIsRepo Demo.host;
  git_status := @git_status Demo.host;
  git_add := @git_add Demo.host;
  git_commit := @git_commit Demo.host;
  git_reset := @git_reset Demo.host;
  prompt_confirm := @prompt_confirm Demo.host;
  j_parse := Demo.demo_parse;
  j_toSource := Demo.demo_toSource;
  performance_analyze := @performance_analyze Demo.host;
  generateHTMLReport := @generateHTMLReport Demo.host
|}.

Definition latest_project : World :=
  Demo.world_of
    [ ("package.json", File latest_json_text);
      ("lib/cache.ts", File (Demo.print (Ast.file Demo.revalidate_program))) ].

End Further.

(** A call with exactly one argument. *)
Definition has_one_argument (n : Ast.node) : bool :=
  match n with
  | Ast.Node Ast.KCall [_; _] => true
  | _ => false
  end.

(** The targets of a rewrite lie apart: no node that satisfies [pred] lies
    below another one.  (Import and export declarations are statements of
    the module; calls of [cookies] and [headers] take no such call as an
    argument.) *)
Fixpoint targets_apart (pred : Ast.node -> bool) (n : Ast.node) : bool :=
  let 'Ast.Node _ cs := n in
  (if pred n
   then forallb (fun c => match Ast.find pred c with [] => true | _ => false end) cs
   else true)
  && forallb (targets_apart pred) cs.

(** Every target replaced by its image under the callback, every other
    node kept, from the root down. *)
Fixpoint rewrite_targets (pred : Ast.node -> bool) (f : Ast.node -> Ast.node)
    (n : Ast.node) : Ast.node :=
  if pred n then f n
  else let 'Ast.Node k cs := n in Ast.Node k (map (rewrite_targets pred f) cs).



(** A rule invoked or a project file written. *)
Definition is_rewrite (e : Event) : Prop :=
  match e with
  | EvRewrite _ _ | EvWriteFile _ _ => True
  | _ => False
  end.

(** A computation that only adds effects to the trace, all of them in [P]. *)
Definition emits (P : Event -> Prop) {A} (c : Async A) : Prop :=
  forall w, exists events, trace (snd (c w)) = trace w ++ events /\ Forall P events.

(** The directory of the backup [backupId]. *)
Definition backup_path (backupId : string) : string :=
  BackupManager.backupDir +:+ "/" +:+ backupId.

(** A host without a repository: [checkIsRepo] answers [false]. *)
Definition no_repository `{Host} : Prop :=
  forall w, git_checkIsRepo w = Return false.

(** Further runs of the demonstrations. *)
Module Replay.

(** The list prompt answered with the first choice. *)
Definition first_choice : Rollback.ListPrompt := {|
  Rollback.prompt_list := fun _ choices _ =>
    match choices with
    | choice :: _ => Return choice
    | [] => Throw "No choices"
    end
|}.

(** The wizard asked to migrate. *)
Definition choose_migrate : Interactive.ActionPrompt := {|
  Interactive.prompt_action := fun _ _ => Return Interactive.ActionMigrate
|}.

Definition yes : Rollback.RollbackOptions := {| Rollback.yes := Some true |}.

Definition ask_first : Rollback.RollbackOptions := {| Rollback.yes := None |}.

Definition dry_run : Migrate.MigrateOptions :=
  {| Migrate.dryRun := Some true; Migrate.yes := Some true; Migrate.backup := None;
     Migrate.performance := None; Migrate.batch := None |}.

Definition ask_first_options : Migrate.MigrateOptions :=
  {| Migrate.dryRun := None; Migrate.yes := None; Migrate.backup := None;
     Migrate.performance := None; Migrate.batch := None |}.



(** The demonstration project without a repository: after a backup, and
    after a backup and a migration. *)
Definition backed_up : World := snd (@BackupManager.createBackup Further.host Demo.project).

Definition migrated : World := snd (@Engine.migrate Further.host backed_up).

(** The report of the demonstration project, and the project after a run
    of [migrateCommand --yes]. *)
Definition report : ProjectAnalysis :=
  default initial_analysis (@analysis_of Further.host Demo.project).

Definition after_command : World :=
  snd (@Migrate.migrateCommand Further.host Scenario.options Demo.project).

End Replay.

(** * Properties *)

(** ** Reasoning about asynchronous computations *)

Lemma reads_ret {A} (a : A) (Q : A -> Prop) : Q a -> reads (ret a) Q.
Proof. intros Ha w. split; [reflexivity|]. simpl. now intros ? [= <-]. Qed.

Lemma reads_throw {A} m (Q : A -> Prop) : reads (throw m) Q.
Proof. intros w. split; [reflexivity|]. discriminate. Qed.

Lemma reads_bind {A B} (c : Async A) (k : A -> Async B) (P : A -> Prop) (Q : B -> Prop) :
  reads c P -> (forall a, P a -> reads (k a) Q) -> reads (bind c k) Q.
Proof.
  intros Hc Hk w. unfold bind.
  destruct (Hc w) as [Hw Ha]. destruct (c w) as [[a|m] w'] eqn:E; simpl in *; subst w'.
  - apply Hk. now apply Ha.
  - split; [reflexivity|discriminate].
Qed.

Lemma reads_get_world (Q : World -> Prop) : (forall w, Q w) -> reads get_world Q.
Proof. intros HQ w. split; [reflexivity|]. simpl. intros ? [= <-]. apply HQ. Qed.

Lemma reads_pathExists file : reads (Fs.pathExists file) (fun _ => True).
Proof. intros w. split; [reflexivity|trivial]. Qed.

Lemma reads_readFile file : reads (Fs.readFile file) (fun _ => True).
Proof.
  intros w. unfold Fs.readFile. split; [|trivial].
  destruct (tree (fs w) !! file) as [[?|]|]; reflexivity.
Qed.

Lemma reads_for_of_with {A S} (I : S -> Prop) (xs : list A) (body : A -> S -> Async S) :
  (forall x s, I s -> reads (body x s) I) ->
  forall s, I s -> reads (for_of_with xs body s) I.
Proof.
  intros Hbody. induction xs as [|x xs IH]; intros s Hs; simpl.
  - now apply reads_ret.
  - eapply reads_bind; [apply Hbody, Hs|]. intros s' Hs'. now apply IH.
Qed.

(** ** The scanner *)

Section Scanner.
Context `{Host}.

Lemma reads_analyzeFile filePath :
  reads (Compatibility.analyzeFile filePath) (fun f => Scanned f /\ path f = filePath).
Proof.
  unfold Compatibility.analyzeFile.
  eapply reads_bind; [apply reads_readFile|]. intros content _.
  apply reads_ret. split; [now exists content | reflexivity].
Qed.

Lemma reads_analyzePackageJson analysis :
  AllScanned analysis ->
  reads (Compatibility.analyzePackageJson analysis) AllScanned.
Proof.
  intros Ha. unfold Compatibility.analyzePackageJson.
  eapply reads_bind; [apply reads_pathExists|]. intros found _.
  destruct found; cbn [negb].
  - eapply reads_bind with (P := fun _ => True).
    + unfold Compatibility.readJson.
      eapply reads_bind; [apply reads_readFile|]. intros text _.
      destruct (JSON_parse text); [now apply reads_ret | apply reads_throw].
    + intros packageJson _. apply reads_ret.
      set (start := match Js.or_else _ _ with Some _ => _ | None => _ end).
      assert (AllScanned start) as Hstart.
      { subst start. destruct (Js.or_else _ _) as [v|]; [|exact Ha].
        destruct (Js.truthy _); [|exact Ha].
        destruct (Compatibility.number_lt _ _); exact Ha. }
      clearbody start. revert start Hstart.
      generalize Compatibility.problematicDeps as deps. intros deps.
      induction deps as [|dep deps IH]; intros start Hstart; simpl.
      * exact Hstart.
      * apply IH. destruct (Js.truthy _); exact Hstart.
  - now apply reads_ret.
Qed.

Lemma reads_findFilesToTransform analysis :
  AllScanned analysis ->
  reads (Compatibility.findFilesToTransform analysis) AllScanned.
Proof.
  intros Ha. unfold Compatibility.findFilesToTransform.
  apply reads_for_of_with; [|exact Ha].
  intros pattern a Hs.
  eapply reads_bind; [apply reads_get_world with (Q := fun _ => True); trivial|].
  intros w _. apply reads_for_of_with; [|exact Hs].
  intros file a' Ha'.
  eapply reads_bind; [apply reads_analyzeFile|]. intros f [Hf _].
  destruct (0 <? _)%nat; apply reads_ret; [|exact Ha'].
  unfold AllScanned, Compatibility.push_file; simpl.
  apply Forall_app. split; [exact Ha'|]. now constructor.
Qed.

Lemma reads_checkCompatibility analysis :
  AllScanned analysis ->
  reads (Compatibility.checkCompatibility analysis) AllScanned.
Proof.
  intros Ha. unfold Compatibility.checkCompatibility.
  eapply reads_bind; [apply reads_get_world with (Q := fun _ => True); trivial|].
  intros w _.
  eapply reads_bind with (P := AllScanned).
  - apply reads_for_of_with.
    + intros configFile a Hs.
      eapply reads_bind; [apply reads_readFile|]. intros content _.
      destruct (Js.includes _ _); apply reads_ret; exact Hs.
    + destruct (0 <? _)%nat; exact Ha.
  - intros a Hs. destruct (Compatibility.number_lt _ _); apply reads_ret; exact Hs.
Qed.

Lemma AllScanned_calculateComplexity analysis :
  AllScanned analysis -> AllScanned (Compatibility.calculateComplexity analysis).
Proof.
  unfold Compatibility.calculateComplexity.
  destruct (_ || _); [trivial|]. destruct (_ || _); trivial.
Qed.

(** [analyze] only reads, and the records it returns come from
    [analyzeFile]. *)
Lemma reads_analyze : reads Compatibility.analyze AllScanned.
Proof.
  unfold Compatibility.analyze.
  eapply reads_bind; [apply reads_analyzePackageJson; constructor|]. intros a1 H1.
  eapply reads_bind; [apply reads_findFilesToTransform, H1|]. intros a2 H2.
  eapply reads_bind; [apply reads_checkCompatibility, H2|]. intros a3 H3.
  apply reads_ret. now apply AllScanned_calculateComplexity.
Qed.

Lemma analyze_world w : snd (Compatibility.analyze w) = w.
Proof. apply reads_analyze. Qed.

End Scanner.

(** ** The rewrite engine *)

Section RewriteEngine.
Context `{Host}.

Lemma emit_add_trace e w : emit e w = (Return tt, add_trace w [e]).
Proof. reflexivity. Qed.

Lemma add_trace_nil w : add_trace w [] = w.
Proof. destruct w. unfold add_trace. simpl. now rewrite app_nil_r. Qed.

Lemma add_trace_app w e1 e2 : add_trace (add_trace w e1) e2 = add_trace w (e1 ++ e2).
Proof. unfold add_trace. simpl. now rewrite <- app_assoc. Qed.

(** The loop over the tags performs [run_rules] and records the rules it
    invokes. *)
Lemma rules_loop filePath tags text changes w :
  for_of_with tags (Engine.applyTransformation filePath) (text, changes) w =
  let '(outcome, invoked) := run_rules filePath tags text in
  (match outcome with
   | Return text' =>
       Return (text', changes ++ map (Engine.transformation_change filePath) invoked)
   | Throw message => Throw message
   end,
   add_trace w (rewrites filePath invoked)).
Proof.
  revert text changes w. induction tags as [|tag rest IH]; intros text changes w.
  - simpl. unfold ret. now rewrite app_nil_r, add_trace_nil.
  - cbn [for_of_with run_rules]. unfold bind at 1.
    unfold Engine.applyTransformation at 1.
    destruct (Engine.lookup_entry tag Engine.initializeTransformations) as [rule|].
    + unfold bind at 1. rewrite emit_add_trace.
      destruct (rule _) as [text'|message].
      * unfold ret at 1. rewrite IH.
        destruct (run_rules filePath rest text') as [outcome invoked].
        cbn [rewrites map]. rewrite add_trace_app. cbn [app].
        destruct outcome; [|reflexivity].
        now rewrite <- app_assoc.
      * reflexivity.
    + unfold ret at 1. now rewrite IH.
Qed.

(** What [transformFile] does, case by case. *)
Lemma transformFile_spec (f : FileToTransform) w :
  Engine.transformFile f w =
  match tree (fs w) !! path f with
  | None => (Throw ("File not found: " +:+ path f), w)
  | Some Unreadable =>
      (Throw ("EACCES: permission denied, open '" +:+ path f +:+ "'"), w)
  | Some (File text) =>
      let '(outcome, invoked) := run_rules (path f) (transformations f) text in
      let w1 := add_trace w (rewrites (path f) invoked) in
      match outcome with
      | Throw message => (Throw message, w1)
      | Return final =>
          (Return (map (Engine.transformation_change (path f)) invoked),
           if String.eqb final text then w1
           else {| fs := written (path f) final (fs w);
                   trace := trace w1 ++ [EvWriteFile (path f) final] |})
      end
  end.
Proof.
  unfold Engine.transformFile, bind at 1, Fs.pathExists.
  destruct (tree (fs w) !! path f) as [[text|]|] eqn:E.
  - rewrite bool_decide_eq_true_2 by eauto. cbn [negb].
    unfold bind at 1, Fs.readFile. rewrite E.
    unfold bind at 1. rewrite rules_loop.
    destruct (run_rules (path f) (transformations f) text) as [[final|message] invoked];
      [|reflexivity].
    unfold bind. destruct (String.eqb final text); reflexivity.
  - rewrite bool_decide_eq_true_2 by eauto. cbn [negb].
    unfold bind at 1, Fs.readFile. now rewrite E.
  - rewrite bool_decide_eq_false_2 by (intros [? ?]; discriminate). reflexivity.
Qed.

End RewriteEngine.

Section FailureIsolation.
Context `{Host}.


Lemma migrateFile_spec (f : FileToTransform) result w :
  Engine.migrateFile f result w =
  match Engine.transformFile f w with
  | (Return fileResult, w') =>
      (Return {| successful := S (successful result); failed := failed result;
                 changes := changes result ++ fileResult; errors := errors result |}, w')
  | (Throw message, w') =>
      (Return {| successful := successful result; failed := S (failed result);
                 changes := changes result;
                 errors := errors result ++
                           [{| error_file := path f; error_message := message |}] |}, w')
  end.
Proof.
  unfold Engine.migrateFile, try_catch, bind.
  now destruct (Engine.transformFile f w) as [[fileResult|message] w'].
Qed.



End FailureIsolation.

Section EngineEffects.
Context `{Host}.

Lemma run_rules_invoked filePath tags text tag :
  tag ∈ snd (run_rules filePath tags text) -> tag ∈ tags.
Proof.
  revert text. induction tags as [|t rest IH]; intros text; cbn [run_rules].
  - simpl. intros []%elem_of_nil.
  - destruct (Engine.lookup_entry t Engine.initializeTransformations) as [rule|].
    + destruct (rule _) as [text'|message].
      * specialize (IH text'). destruct (run_rules filePath rest text') as [outcome invoked].
        simpl in *. intros [->|Hin]%elem_of_cons; [left|right; auto].
      * simpl. intros ->%list_elem_of_singleton. left.
    + intros Hin. right. eauto.
Qed.

Lemma engine_event_mono files files' e :
  files ⊆ files' -> engine_event files e -> engine_event files' e.
Proof.
  intros Hsub. destruct e; simpl; try tauto.
  - intros (f & Hf & Hp). exists f. auto.
  - intros (f & Hf & Hp & Ht). exists f. auto.
Qed.

Lemma rewrites_engine_events (f : FileToTransform) text :
  Forall (engine_event [f])
    (rewrites (path f) (snd (run_rules (path f) (transformations f) text))).
Proof.
  apply Forall_forall. intros e (tag & <- & Hin)%list_elem_of_In%in_map_iff.
  apply list_elem_of_In in Hin. exists f. split; [left|]. split; [reflexivity|]. eapply run_rules_invoked, Hin.
Qed.

(** [transformFile] rewrites at most the record's own file, and performs
    only effects of the engine for that record. *)
Lemma transformFile_effects (f : FileToTransform) w :
  exists events,
    trace (snd (Engine.transformFile f w)) = trace w ++ events /\
    Forall (engine_event [f]) events /\
    metadata (fs (snd (Engine.transformFile f w))) = metadata (fs w) /\
    backupDirs (fs (snd (Engine.transformFile f w))) = backupDirs (fs w) /\
    forall file, file <> path f ->
      tree (fs (snd (Engine.transformFile f w))) !! file = tree (fs w) !! file.
Proof.
  rewrite transformFile_spec.
  destruct (tree (fs w) !! path f) as [[text|]|].
  - pose proof (rewrites_engine_events f text) as Hev.
    destruct (run_rules (path f) (transformations f) text) as [[final|message] invoked].
    + simpl in Hev. destruct (String.eqb final text).
      * exists (rewrites (path f) invoked). simpl. auto.
      * exists (rewrites (path f) invoked ++ [EvWriteFile (path f) final]). simpl.
        rewrite <- app_assoc. split; [reflexivity|]. split.
        { apply Forall_app. split; [exact Hev|]. constructor; [|constructor].
          exists f. split; [left|reflexivity]. }
        repeat split. intros file Hne. now rewrite lookup_insert_ne.
    + exists (rewrites (path f) invoked). simpl. auto.
  - exists []. simpl. rewrite app_nil_r. auto.
  - exists []. simpl. rewrite app_nil_r. auto.
Qed.

Lemma migrateFile_world (f : FileToTransform) result w :
  snd (Engine.migrateFile f result w) = snd (Engine.transformFile f w).
Proof.
  rewrite migrateFile_spec. now destruct (Engine.transformFile f w) as [[?|?] ?].
Qed.

Lemma migrateFiles_effects files result w :
  exists events,
    trace (snd (Engine.migrateFiles files result w)) = trace w ++ events /\
    Forall (engine_event files) events /\
    metadata (fs (snd (Engine.migrateFiles files result w))) = metadata (fs w) /\
    backupDirs (fs (snd (Engine.migrateFiles files result w))) = backupDirs (fs w) /\
    forall file, file ∉ map path files ->
      tree (fs (snd (Engine.migrateFiles files result w))) !! file = tree (fs w) !! file.
Proof.
  revert result w. induction files as [|f files IH]; intros result w.
  - exists []. simpl. rewrite app_nil_r. auto.
  - unfold Engine.migrateFiles. cbn [for_of_with]. unfold bind.
    pose proof (migrateFile_world f result w) as Hw.
    destruct (transformFile_effects f w) as (ev1 & Htrace1 & Hev1 & Hmeta1 & Hdirs1 & Htree1).
    destruct (Engine.migrateFile f result w) as [[result1|message] w1] eqn:E.
    + simpl in Hw. rewrite <- Hw in *.
      destruct (IH result1 w1) as (ev2 & Htrace2 & Hev2 & Hmeta2 & Hdirs2 & Htree2).
      fold (Engine.migrateFiles files result1 w1).
      exists (ev1 ++ ev2). rewrite Htrace2, Htrace1, Hmeta2, Hmeta1, Hdirs2, Hdirs1.
      rewrite <- app_assoc. repeat split.
      * apply Forall_app. split.
        -- eapply Forall_impl; [exact Hev1|]. intros e. apply engine_event_mono.
           intros x ->%list_elem_of_singleton. left.
        -- eapply Forall_impl; [exact Hev2|]. intros e. apply engine_event_mono.
           intros x Hx. now right.
      * intros file Hfile. cbn [map] in Hfile. apply not_elem_of_cons in Hfile as [Hne Hfile].
        rewrite Htree2 by exact Hfile. now apply Htree1.
    + rewrite migrateFile_spec in E.
      destruct (Engine.transformFile f w) as [[?|?] ?]; discriminate.
Qed.

End EngineEffects.

(** ** Detection *)

Lemma elem_of_push_if cond tag (tags : list string) x :
  x ∈ Compatibility.push_if cond tag tags <-> x ∈ tags \/ (cond = true /\ x = tag).
Proof.
  unfold Compatibility.push_if. destruct cond.
  - rewrite elem_of_app, list_elem_of_singleton. intuition.
  - intuition congruence.
Qed.

(** The tags of a file, rule by rule. *)
Lemma elem_of_detect filePath content tag :
  tag ∈ Compatibility.detect filePath content <->
  (tag = "middleware-to-proxy" /\
   (String.eqb filePath "middleware.ts" || String.eqb filePath "middleware.js") = true) \/
  (tag = "update-revalidate-tag" /\
   (Js.includes content "revalidateTag" && negb (Js.includes content "cacheLife")) = true) \/
  (tag = "update-next-image" /\
   (Js.includes content "next/image" || Js.includes content "next/legacy/image") = true) \/
  (tag = "make-params-async" /\
   (Js.includes content "params" && negb (Js.includes content "await params")) = true) \/
  (tag = "make-search-params-async" /\
   (Js.includes content "searchParams" && negb (Js.includes content "await searchParams")) = true) \/
  (tag = "make-cookies-headers-async" /\
   ((Js.includes content "cookies()" || Js.includes content "headers()")
    && negb (Js.includes content "await cookies()")
    && negb (Js.includes content "await headers()")) = true).
Proof.
  unfold Compatibility.detect. rewrite !elem_of_push_if, elem_of_nil.
  rewrite andb_negb_r. intuition congruence.
Qed.

Section NeverInvoked.
Context `{Host}.

(** C9: whatever the path and the text, the scanner does not produce the
    tag 'add-cache-life-profile' (its condition is [c && !c] for
    [c = content.includes('revalidateTag(')]); the rule registered for it
    returns its input unchanged; and no run of [migrate] invokes that rule:
    the effects a run adds to the trace contain no invocation of it. *)
Theorem add_cache_life_profile_is_dead :
  (forall filePath content,
     "add-cache-life-profile" ∉ Compatibility.detect filePath content) /\
  (Engine.lookup_entry "add-cache-life-profile" Engine.initializeTransformations
     = Some Engine.addCacheLifeProfile /\
   forall fileInfo, Engine.addCacheLifeProfile fileInfo = Return (Engine.source fileInfo)) /\
  (forall w, exists events,
     trace (snd (Engine.migrate w)) = trace w ++ events /\
     forall file, EvRewrite "add-cache-life-profile" file ∉ events).
Proof.
  assert (forall filePath content,
            "add-cache-life-profile" ∉ Compatibility.detect filePath content) as Hdetect.
  { intros filePath content Hin. apply elem_of_detect in Hin.
    destruct Hin as [[? _]|[[? _]|[[? _]|[[? _]|[[? _]|[? _]]]]]]; discriminate. }
  split; [exact Hdetect|]. split; [split; reflexivity|].
  intros w. unfold Engine.migrate, bind.
  destruct (reads_analyze w) as [Hw Hscan].
  destruct (Compatibility.analyze w) as [[analysis|message] w1]; simpl in Hw; subst w1.
  - specialize (Hscan analysis eq_refl).
    destruct (migrateFiles_effects (filesToTransform analysis)
                {| successful := 0; failed := 0; changes := []; errors := [] |} w)
      as (events & Htrace & Hevents & _).
    exists events. split; [exact Htrace|].
    intros file Hin. rewrite Forall_forall in Hevents.
    destruct (Hevents _ Hin) as (f & Hf & _ & Htag).
    unfold AllScanned in Hscan. rewrite Forall_forall in Hscan.
    destruct (Hscan f Hf) as [content Hcontent].
    rewrite Hcontent in Htag. exact (Hdetect _ _ Htag).
  - exists []. simpl. rewrite app_nil_r. split; [reflexivity|].
    intros file []%elem_of_nil.
Qed.

End NeverInvoked.

Section Atomicity.
Context `{Host}.

Lemma migrateFiles_app before after result w :
  Engine.migrateFiles (before ++ after) result w =
  match Engine.migrateFiles before result w with
  | (Return result1, w1) => Engine.migrateFiles after result1 w1
  | (Throw message, w1) => (Throw message, w1)
  end.
Proof.
  unfold Engine.migrateFiles. revert result w.
  induction before as [|f before IH]; intros result w; [reflexivity|].
  cbn [app for_of_with]. unfold bind.
  destruct (Engine.migrateFile f result w) as [[result1|message] w1]; [apply IH|reflexivity].
Qed.

(** C10: [transformFile] writes the file of a record only as its last
    effect, after the rules of all its tags were invoked and returned, and
    only if the final text differs from the text it read; when it throws,
    the file system is what it was.  Hence, in a batch in which the record
    of a file occurs once, a file whose processing throws has, after the
    batch, the entry it had before the batch. *)
Theorem transformFile_is_atomic (f : FileToTransform) (w : World) :
  (exists invoked,
     let w1 := add_trace w (rewrites (path f) invoked) in
     match Engine.transformFile f w with
     | (Throw _, w') => w' = w1
     | (Return _, w') =>
         exists text final,
           tree (fs w) !! path f = Some (File text) /\
           run_rules (path f) (transformations f) text = (Return final, invoked) /\
           (final = text /\ w' = w1 \/
            final <> text /\
            w' = {| fs := written (path f) final (fs w);
                    trace := trace w1 ++ [EvWriteFile (path f) final] |})
     end) /\
  (forall before after result result1 w0 message w',
     path f ∉ map path before ->
     path f ∉ map path after ->
     Engine.migrateFiles before result w0 = (Return result1, w) ->
     Engine.transformFile f w = (Throw message, w') ->
     tree (fs (snd (Engine.migrateFiles (before ++ f :: after) result w0))) !! path f
     = tree (fs w0) !! path f).
Proof.
  split.
  - rewrite transformFile_spec.
    destruct (tree (fs w) !! path f) as [[text|]|].
    + destruct (run_rules (path f) (transformations f) text)
        as [[final|message] invoked] eqn:E; exists invoked; cbv zeta; [|reflexivity].
      exists text, final. split; [reflexivity|]. split; [exact E|].
      destruct (String.eqb final text) eqn:Eq.
      * left. apply String.eqb_eq in Eq. auto.
      * right. apply String.eqb_neq in Eq. auto.
    + exists []. cbv zeta. unfold rewrites. simpl. now rewrite add_trace_nil.
    + exists []. cbv zeta. unfold rewrites. simpl. now rewrite add_trace_nil.
  - intros before after result result1 w0 message w' Hbefore Hafter Hrun Hthrow.
    rewrite migrateFiles_app, Hrun.
    unfold Engine.migrateFiles. cbn [for_of_with]. unfold bind.
    rewrite migrateFile_spec, Hthrow.
    fold (Engine.migrateFiles after
            {| successful := successful result1; failed := S (failed result1);
               changes := changes result1;
               errors := errors result1 ++
                         [{| error_file := path f; error_message := message |}] |} w').
    destruct (migrateFiles_effects after
            {| successful := successful result1; failed := S (failed result1);
               changes := changes result1;
               errors := errors result1 ++
                         [{| error_file := path f; error_message := message |}] |} w')
      as (_ & _ & _ & _ & _ & Hafter_tree).
    rewrite Hafter_tree by exact Hafter.
    assert (fs w' = fs w) as ->.
    { rewrite transformFile_spec in Hthrow.
      destruct (tree (fs w) !! path f) as [[text|]|].
      - destruct (run_rules _ _ _) as [[?|?] ?]; [discriminate|].
        now injection Hthrow as _ <-.
      - now injection Hthrow as _ <-.
      - now injection Hthrow as _ <-. }
    destruct (migrateFiles_effects before result w0) as (_ & _ & _ & _ & _ & Hbefore_tree).
    rewrite Hrun in Hbefore_tree. now apply Hbefore_tree.
Qed.

End Atomicity.

(** ** Complexity *)

(** C8: the tier and the time estimate that [calculateComplexity] assigns
    depend on the number of files and the number of issues only: more than
    50 files or more than 5 issues give [High] and "30-60 minutes";
    otherwise more than 20 files or more than 2 issues give [Medium] and
    "15-30 minutes"; otherwise [Low] and "5-15 minutes".  So 51 files give
    [High], 21 files (with at most 5 issues) give [Medium], and 5 files
    with no issue give [Low].  The other fields are left as they are. *)
Theorem calculateComplexity_thresholds (analysis : ProjectAnalysis) :
  let fileCount := length (filesToTransform analysis) in
  let issueCount := length (issues analysis) in
  let result := Compatibility.calculateComplexity analysis in
  ((50 < fileCount \/ 5 < issueCount)%nat ->
   complexity result = High /\ estimatedTime result = "30-60 minutes") /\
  ((fileCount <= 50 /\ issueCount <= 5)%nat -> (20 < fileCount \/ 2 < issueCount)%nat ->
   complexity result = Medium /\ estimatedTime result = "15-30 minutes") /\
  ((fileCount <= 20 /\ issueCount <= 2)%nat ->
   complexity result = Low /\ estimatedTime result = "5-15 minutes") /\
  (fileCount = 51%nat -> complexity result = High) /\
  (fileCount = 21%nat -> (issueCount <= 5)%nat -> complexity result = Medium) /\
  (fileCount = 5%nat -> issueCount = 0%nat -> complexity result = Low) /\
  (isCompatible result = isCompatible analysis /\
   currentVersion result = currentVersion analysis /\
   filesToTransform result = filesToTransform analysis /\
   issues result = issues analysis /\
   recommendations result = recommendations analysis).
Proof.
  intros fileCount issueCount result.
  subst result. unfold Compatibility.calculateComplexity.
  fold fileCount issueCount.
  destruct (50 <? fileCount)%nat eqn:F50; destruct (5 <? issueCount)%nat eqn:I5;
    destruct (20 <? fileCount)%nat eqn:F20; destruct (2 <? issueCount)%nat eqn:I2;
    cbn [orb Compatibility.set_complexity complexity estimatedTime isCompatible
         currentVersion filesToTransform issues recommendations];
    rewrite ?Nat.ltb_lt, ?Nat.ltb_ge in *;
    repeat split; intros; try reflexivity; exfalso; lia.
Qed.

(** ** The compatibility gate *)

Section Gate.
Context `{Host}.

(** C1: when the analysis of the project returns a report that says
    [isCompatible = false], [migrateCommand] returns at once and the world
    is what it was before the command: no file was written, the catalog
    and the backup directories are untouched, and the trace has no new
    effect (no backup was started and no rewrite rule was invoked). *)
Theorem migrateCommand_stops_at_gate
    (options : Migrate.MigrateOptions) (w : World) (analysis : ProjectAnalysis) :
  fst (Compatibility.analyze w) = Return analysis ->
  isCompatible analysis = false ->
  Migrate.migrateCommand options w = (Return tt, w).
Proof.
  intros Hanalysis Hgate. unfold Migrate.migrateCommand, bind at 1.
  pose proof (analyze_world w) as Hw.
  destruct (Compatibility.analyze w) as [outcome w1]. simpl in *. subst.
  now rewrite Hgate.
Qed.

End Gate.

(** ** Unreadable files *)

Section Unreadable.
Context `{Host}.

Lemma for_of_with_throws {A S} (xs : list A) (body : A -> S -> Async S) (x : A) w :
  (forall y s, reads (body y s) (fun _ => True)) ->
  x ∈ xs ->
  (forall s, exists message, fst (body x s w) = Throw message) ->
  forall s, exists message, for_of_with xs body s w = (Throw message, w).
Proof.
  intros Hreads Hin Hthrow. induction xs as [|y xs IH]; intros s.
  - now apply elem_of_nil in Hin.
  - cbn [for_of_with]. unfold bind.
    destruct (Hreads y s w) as [Hw _].
    destruct (body y s w) as [[s'|message] w1] eqn:E; simpl in Hw; subst w1.
    + apply elem_of_cons in Hin as [->|Hin].
      * destruct (Hthrow s) as [message Hm]. rewrite E in Hm. discriminate.
      * now apply IH.
    + now exists message.
Qed.

Lemma reads_scan_pattern_body file analysis :
  reads (fileAnalysis <- Compatibility.analyzeFile file ;;
         if (0 <? length (transformations fileAnalysis))%nat
         then ret (Compatibility.push_file fileAnalysis analysis)
         else ret analysis)%async (fun _ => True).
Proof.
  eapply reads_bind; [apply reads_analyzeFile|]. intros f _.
  destruct (0 <? _)%nat; now apply reads_ret.
Qed.

(** C6, as the code has it: a candidate file -- a path that [glob]
    returns for one of the patterns of the scanner -- that cannot be read
    makes [analyzeFile] throw, nothing catches the error, and [analyze]
    throws: it returns no report.  (The world is left as it was.) *)
Theorem analyze_throws_on_unreadable_candidate (w : World) (pattern file : string) :
  pattern ∈ Compatibility.patterns ->
  file ∈ glob pattern (fs w) ->
  (forall content, tree (fs w) !! file <> Some (File content)) ->
  exists message, Compatibility.analyze w = (Throw message, w).
Proof.
  intros Hpattern Hfile Hunreadable.
  unfold Compatibility.analyze, bind at 1.
  destruct (reads_analyzePackageJson
              {| isCompatible := true; currentVersion := "unknown"; filesToTransform := [];
                 issues := []; recommendations := []; complexity := Low;
                 estimatedTime := "5-10 minutes" |} (Forall_nil_2 _) w) as [Hw _].
  destruct (Compatibility.analyzePackageJson _ w) as [[analysis|message] w1];
    simpl in Hw; subst w1; [|now exists message].
  unfold bind at 1.
  destruct (for_of_with_throws Compatibility.patterns
              (fun pattern analysis =>
                 w <- get_world ;;
                 for_of_with (glob pattern (fs w))
                   (fun file analysis =>
                      fileAnalysis <- Compatibility.analyzeFile file ;;
                      if (0 <? length (transformations fileAnalysis))%nat
                      then ret (Compatibility.push_file fileAnalysis analysis)
                      else ret analysis)
                   analysis)%async pattern w) with (s := analysis) as [message Hthrow].
  - intros y s. eapply reads_bind; [apply reads_get_world with (Q := fun _ => True); trivial|].
    intros w0 _. apply reads_for_of_with; [|trivial].
    intros x s0 _. apply reads_scan_pattern_body.
  - exact Hpattern.
  - intros s. unfold bind at 1, get_world.
    destruct (for_of_with_throws (glob pattern (fs w))
                (fun file analysis =>
                   fileAnalysis <- Compatibility.analyzeFile file ;;
                   if (0 <? length (transformations fileAnalysis))%nat
                   then ret (Compatibility.push_file fileAnalysis analysis)
                   else ret analysis)%async file w) with (s := s) as [message Hthrow].
    + intros y s0. apply reads_scan_pattern_body.
    + exact Hfile.
    + intros s0. unfold bind, Compatibility.analyzeFile, bind, Fs.readFile.
      destruct (tree (fs w) !! file) as [[content|]|] eqn:E.
      * now destruct (Hunreadable content).
      * eauto.
      * eauto.
    + exists message. now rewrite Hthrow.
  - exists message. unfold Compatibility.findFilesToTransform. now rewrite Hthrow.
Qed.

End Unreadable.

(** ** The backup catalog *)

Section Catalog.
Context `{Host}.

Section Keeps.
Context {X : Type} (part : FileSystem -> X).

Lemma keeps_ret {A} (a : A) : keeps part (ret a).
Proof. intros w. reflexivity. Qed.

Lemma keeps_bind {A B} (c : Async A) (k : A -> Async B) :
  keeps part c -> (forall a, keeps part (k a)) -> keeps part (bind c k).
Proof.
  intros Hc Hk w. unfold bind. specialize (Hc w).
  destruct (c w) as [[a|m] w1]; simpl in *; [|exact Hc].
  now rewrite Hk.
Qed.

Lemma keeps_try_catch {A} (c : Async A) (handler : string -> Async A) :
  keeps part c -> (forall m, keeps part (handler m)) -> keeps part (try_catch c handler).
Proof.
  intros Hc Hh w. unfold try_catch. specialize (Hc w).
  destruct (c w) as [[a|m] w1]; simpl in *; [exact Hc|].
  now rewrite Hh.
Qed.

Lemma keeps_for_of {A} (xs : list A) (body : A -> Async unit) :
  (forall x, keeps part (body x)) -> keeps part (for_of xs body).
Proof.
  intros Hbody. induction xs as [|x xs IH]; cbn [for_of].
  - apply keeps_ret.
  - apply keeps_bind; [apply Hbody|]. intros _. exact IH.
Qed.

Lemma keeps_git {A} command (answer : World -> Completion A) :
  keeps part (BackupManager.git command answer).
Proof. intros w. reflexivity. Qed.

Lemma keeps_createGitBackup backupId :
  keeps part (BackupManager.createGitBackup backupId).
Proof.
  unfold BackupManager.createGitBackup.
  apply keeps_try_catch; [|intros; apply keeps_ret].
  apply keeps_bind; [apply keeps_git|]. intros isRepo.
  destruct isRepo; cbn [negb]; [|apply keeps_ret].
  apply keeps_bind; [apply keeps_git|]. intros changed.
  apply keeps_bind.
  - destruct (0 <? changed)%nat; [|apply keeps_ret].
    apply keeps_bind; [apply keeps_git|]. intros _.
    apply keeps_bind; [apply keeps_git|]. intros _. apply keeps_ret.
  - intros _. apply keeps_bind; [apply keeps_git|]. intros _.
    apply keeps_bind; [apply keeps_git|]. intros commit. apply keeps_ret.
Qed.

End Keeps.

Lemma keeps_tree_copy_to_backup file dir : keeps tree (Fs.copy_to_backup file dir).
Proof.
  intros w. unfold Fs.copy_to_backup.
  now destruct (tree (fs w) !! file) as [[?|]|].
Qed.

Lemma keeps_metadata_copy_to_backup file dir : keeps metadata (Fs.copy_to_backup file dir).
Proof.
  intros w. unfold Fs.copy_to_backup.
  now destruct (tree (fs w) !! file) as [[?|]|].
Qed.

Lemma keeps_createFilesBackup {X} (part : FileSystem -> X) backupId :
  (forall file dir, keeps part (Fs.copy_to_backup file dir)) ->
  (forall dir, keeps part (Fs.ensureDir dir)) ->
  keeps part (BackupManager.createFilesBackup backupId).
Proof.
  intros Hcopy Hdir. unfold BackupManager.createFilesBackup.
  apply keeps_bind; [apply Hdir|]. intros _.
  apply keeps_bind; [|intros; apply keeps_ret].
  apply keeps_for_of. intros file.
  apply keeps_bind; [now intros w|]. intros found.
  destruct found; [apply Hcopy|apply keeps_ret].
Qed.

(** [saveBackupMetadata] puts the new entry in front and keeps the first
    ten; the entries that stay keep their order. *)
Lemma saveBackupMetadata_spec (backup : Backup) w :
  BackupManager.saveBackupMetadata backup w =
  (Return tt,
   {| fs := {| tree := tree (fs w);
               metadata := Some (take 10 (backup :: catalog w));
               backupDirs := backupDirs (fs w) |};
      trace := trace w ++ [EvWriteJson (take 10 (backup :: catalog w))] |}).
Proof.
  unfold BackupManager.saveBackupMetadata, bind at 1, Fs.metadataExists, catalog.
  assert (forall l : list Backup,
            (if (10 <? length (backup :: l))%nat
             then BackupManager.slice0 10 (backup :: l) else backup :: l)
            = take 10 (backup :: l)) as Hslice.
  { intros l. destruct (10 <? length (backup :: l))%nat eqn:E; [reflexivity|].
    apply Nat.ltb_ge in E. symmetry. now apply take_ge. }
  destruct (metadata (fs w)) as [entries|] eqn:E.
  - rewrite bool_decide_eq_true_2 by eauto.
    unfold bind, Fs.readMetadata. rewrite E. cbn [default].
    unfold Fs.writeMetadata. now rewrite Hslice.
  - rewrite bool_decide_eq_false_2 by (intros [? ?]; discriminate).
    unfold bind, ret. cbn [default]. unfold Fs.writeMetadata. now rewrite Hslice.
Qed.

Lemma listBackups_spec w : BackupManager.listBackups w = (Return (catalog w), w).
Proof.
  unfold BackupManager.listBackups, bind, Fs.metadataExists, catalog.
  destruct (metadata (fs w)) as [entries|] eqn:E.
  - rewrite bool_decide_eq_true_2 by eauto. cbn [negb]. unfold Fs.readMetadata. now rewrite E.
  - rewrite bool_decide_eq_false_2 by (intros [? ?]; discriminate). reflexivity.
Qed.

(** A call of [createBackup] that returns has put an entry with the
    returned id in front of the catalog. *)
Lemma createBackup_catalog w backupId w' :
  BackupManager.createBackup w = (Return backupId, w') ->
  exists backup, id backup = backupId /\ catalog w' = take 10 (backup :: catalog w).
Proof.
  unfold BackupManager.createBackup, bind at 1, get_world.
  set (backupId0 := "backup-" +:+ pretty (Date_now w)).
  unfold bind at 1.
  destruct (Fs.ensureDir BackupManager.backupDir w) as [[[]|m] w1] eqn:E1; [|discriminate].
  assert (metadata (fs w1) = metadata (fs w)) as H1.
  { unfold Fs.ensureDir in E1. now injection E1 as <-. }
  unfold bind at 1.
  pose proof (keeps_createGitBackup metadata backupId0 w1) as H2.
  destruct (BackupManager.createGitBackup backupId0 w1) as [[commit|m] w2]; [|discriminate].
  unfold bind at 1.
  pose proof (keeps_createFilesBackup metadata backupId0
                keeps_metadata_copy_to_backup (fun dir w => eq_refl) w2) as H3.
  destruct (BackupManager.createFilesBackup backupId0 w2) as [[dir|m] w3]; [|discriminate].
  unfold bind at 1. rewrite saveBackupMetadata_spec. unfold ret.
  intros [= <- <-]. eexists (Build_Backup _ _ _ _ _). split; [reflexivity|].
  unfold catalog. simpl in *. now rewrite H3, H2, H1.
Qed.

Lemma take_app_take {A} (n : nat) (l k : list A) :
  take n (l ++ take n k) = take n (l ++ k).
Proof. rewrite !take_app, take_take. do 2 f_equal. lia. Qed.

Lemma createBackups_catalog n w ids w' :
  createBackups (S n) w = (Return ids, w') ->
  exists created,
    map id created = ids /\ length created = S n /\
    catalog w' = take 10 (rev created ++ catalog w).
Proof.
  revert w ids w'. induction n as [|n IH]; intros w ids w'.
  - cbn [createBackups]. unfold bind at 1.
    destruct (BackupManager.createBackup w) as [[first|m] w1] eqn:E; [|discriminate].
    unfold bind, ret. intros [= <- <-].
    destruct (createBackup_catalog _ _ _ E) as (backup & Hid & Hcat).
    exists [backup]. simpl. rewrite Hid. auto.
  - change (createBackups (S (S n))) with
      (first <- BackupManager.createBackup ;;
       others <- createBackups (S n) ;; ret (first :: others))%async.
    unfold bind at 1.
    destruct (BackupManager.createBackup w) as [[first|m] w1] eqn:E; [|discriminate].
    unfold bind at 1.
    destruct (createBackups (S n) w1) as [[others|m] w2] eqn:E2; [|discriminate].
    unfold ret. intros [= <- <-].
    destruct (createBackup_catalog _ _ _ E) as (backup & Hid & Hcat).
    destruct (IH _ _ _ E2) as (created & Hids & Hlen & Hcat2).
    exists (backup :: created). cbn [map length rev]. rewrite Hid, Hids, Hlen.
    split; [reflexivity|]. split; [reflexivity|].
    rewrite Hcat2, Hcat. rewrite <- app_assoc. cbn [app].
    apply take_app_take.
Qed.

Lemma for_of_returns {A} (I : World -> Prop) (xs : list A) (body : A -> Async unit) :
  (forall x w, x ∈ xs -> I w -> exists w', body x w = (Return tt, w') /\ I w') ->
  forall w, I w -> exists w', for_of xs body w = (Return tt, w') /\ I w'.
Proof.
  induction xs as [|x xs IH]; intros Hbody w Hw.
  - exists w. now split.
  - cbn [for_of]. unfold bind.
    destruct (Hbody x w) as (w1 & -> & Hw1); [left|exact Hw|].
    apply IH; [|exact Hw1]. intros y w2 Hy. apply Hbody. now right.
Qed.

Lemma createFilesBackup_returns backupId w :
  backup_sources_readable w ->
  exists dir w', BackupManager.createFilesBackup backupId w = (Return dir, w').
Proof.
  intros Hreadable. unfold BackupManager.createFilesBackup, bind at 1.
  destruct (Fs.ensureDir _ w) as [[[]|m] w1] eqn:E1; [|discriminate].
  assert (tree (fs w1) = tree (fs w)) as Htree1.
  { unfold Fs.ensureDir in E1. now injection E1 as <-. }
  unfold bind at 1.
  destruct (for_of_returns (fun w' => tree (fs w') = tree (fs w))
              BackupManager.filesToBackup
              (fun file =>
                 found <- Fs.pathExists file ;;
                 if found then Fs.copy_to_backup file
                                 (BackupManager.backupDir +:+ "/" +:+ backupId)
                 else ret tt)%async) with (w := w1) as (w2 & -> & _).
  - intros file w0 Hfile Hw0. unfold bind, Fs.pathExists.
    destruct (tree (fs w0) !! file) as [[content|]|] eqn:E.
    + rewrite bool_decide_eq_true_2 by eauto.
      unfold Fs.copy_to_backup. rewrite E. eexists. split; [reflexivity|exact Hw0].
    + rewrite Hw0 in E. now destruct (Hreadable file Hfile).
    + rewrite bool_decide_eq_false_2 by (intros [? ?]; discriminate).
      exists w0. now split.
  - exact Htree1.
  - unfold ret. eauto.
Qed.

(** [createBackup] returns when the files it copies can be read, and it
    leaves the project files as they are. *)
Lemma createBackup_returns w :
  backup_sources_readable w ->
  exists backupId w',
    BackupManager.createBackup w = (Return backupId, w') /\ tree (fs w') = tree (fs w).
Proof.
  intros Hreadable. unfold BackupManager.createBackup, bind at 1, get_world.
  set (backupId0 := "backup-" +:+ pretty (Date_now w)).
  unfold bind at 1.
  destruct (Fs.ensureDir BackupManager.backupDir w) as [[[]|m] w1] eqn:E1; [|discriminate].
  assert (tree (fs w1) = tree (fs w)) as H1.
  { unfold Fs.ensureDir in E1. now injection E1 as <-. }
  unfold bind at 1.
  pose proof (keeps_createGitBackup tree backupId0 w1) as H2.
  assert (exists commit w2, BackupManager.createGitBackup backupId0 w1 = (Return commit, w2))
    as (commit & w2 & E2).
  { unfold BackupManager.createGitBackup, try_catch.
    destruct (bind _ _ w1) as [[commit|m] w2]; unfold ret; eauto. }
  rewrite E2 in *. simpl in H2.
  unfold bind at 1.
  pose proof (keeps_createFilesBackup tree backupId0
                keeps_tree_copy_to_backup (fun dir w => eq_refl) w2) as H3.
  destruct (createFilesBackup_returns backupId0 w2) as (dir & w3 & E3).
  { intros file Hfile. rewrite H2, H1. now apply Hreadable. }
  rewrite E3 in *. simpl in H3.
  unfold bind at 1. rewrite saveBackupMetadata_spec. unfold ret.
  eexists _, _. split; [reflexivity|]. simpl. now rewrite H3, H2, H1.
Qed.

Lemma createBackups_returns n w :
  backup_sources_readable w ->
  exists ids w', createBackups n w = (Return ids, w').
Proof.
  revert w. induction n as [|n IH]; intros w Hreadable.
  - exists [], w. reflexivity.
  - cbn [createBackups]. unfold bind at 1.
    destruct (createBackup_returns w Hreadable) as (first & w1 & -> & Htree).
    destruct (IH w1) as (others & w2 & E).
    { intros file Hfile. rewrite Htree. now apply Hreadable. }
    unfold bind. rewrite E. unfold ret. eauto.
Qed.

(** C3: eleven calls of [createBackup], one after the other, all return
    when the files that [createFilesBackup] copies can be read; and after
    eleven calls that returned, [listBackups] returns ten entries, the
    newest first: their ids are the ids of the last ten calls, in the
    reverse of the order of creation.  An insertion,
    [saveBackupMetadata], puts the new entry in front of the entries there
    are and keeps the first ten of that list, so the entries that stay are
    in the order they were in. *)
Theorem catalog_after_eleven_backups (w : World) :
  (backup_sources_readable w ->
   exists ids w', createBackups 11 w = (Return ids, w')) /\
  (forall ids w',
     createBackups 11 w = (Return ids, w') ->
     exists entries,
       BackupManager.listBackups w' = (Return entries, w') /\
       length entries = 10%nat /\
       map id entries = rev (drop 1 ids)) /\
  (forall backup w0,
     catalog (snd (BackupManager.saveBackupMetadata backup w0))
     = take 10 (backup :: catalog w0)).
Proof.
  split; [apply createBackups_returns|]. split.
  - intros ids w' Hrun.
    destruct (createBackups_catalog _ _ _ _ Hrun) as (created & Hids & Hlen & Hcat).
    exists (catalog w'). rewrite listBackups_spec. split; [reflexivity|].
    rewrite Hcat, <- Hids.
    assert (take 10 (rev created ++ catalog w) = rev (drop 1 created)) as ->.
    { rewrite take_app_le by (rewrite length_rev; lia).
      rewrite <- (rev_involutive (take 10 (rev created))). f_equal.
      destruct created as [|first created]; [discriminate|].
      cbn [rev]. rewrite take_app_le by (rewrite length_rev; simpl in Hlen; lia).
      rewrite take_ge by (rewrite length_rev; simpl in Hlen; lia).
      now rewrite rev_involutive. }
    split.
    + rewrite length_rev, length_drop. lia.
    + rewrite map_rev. f_equal. destruct created; [discriminate|reflexivity].
  - intros backup w0. now rewrite saveBackupMetadata_spec.
Qed.

(** C5: for an id that no entry of the catalog has, [restoreBackup]
    throws "Backup <id> not found" and the world is what it was: no file
    was copied, and the trace has no new effect, so no reset of the
    repository was attempted. *)
Theorem restoreBackup_unknown_id (backupId : string) (w : World) :
  (forall backup, backup ∈ catalog w -> id backup <> backupId) ->
  BackupManager.restoreBackup backupId w
  = (Throw ("Backup " +:+ backupId +:+ " not found"), w).
Proof.
  intros Hnone. unfold BackupManager.restoreBackup, bind at 1.
  rewrite listBackups_spec.
  destruct (List.find _ (catalog w)) as [backup|] eqn:E; [|reflexivity].
  apply find_some in E as [Hin Heq].
  apply String.eqb_eq in Heq. apply list_elem_of_In in Hin.
  now destruct (Hnone backup Hin).
Qed.

End Catalog.

(** ** Syntax trees *)

Section Trees.
Import Ast.

Lemma node_induction (P : node -> Prop) :
  (forall k cs, Forall P cs -> P (Node k cs)) -> forall n, P n.
Proof.
  intros Hnode. fix IH 1. intros [k cs]. apply Hnode.
  induction cs as [|c cs IHcs]; constructor; [apply IH|exact IHcs].
Qed.

Lemma find_unfold pred k cs :
  find pred (Node k cs) =
  (if pred (Node k cs) then [[]] else []) ++ find_children pred 0 cs.
Proof.
  cbn [find]. f_equal. generalize 0%nat as i. intros i. revert i.
  induction cs as [|c cs IH]; intros i; [reflexivity|].
  cbn [find_children]. now rewrite <- IH.
Qed.

Lemma forEach_app ps qs f root :
  forEach (ps ++ qs) f root = forEach qs f (forEach ps f root).
Proof. unfold forEach. apply fold_left_app. Qed.

(** Callbacks at paths below the child [i] act on that child. *)
Lemma forEach_child ps f k cs i c :
  cs !! i = Some c ->
  forEach (map (cons i) ps) f (Node k cs) = Node k (<[i := forEach ps f c]> cs).
Proof.
  revert cs c. induction ps as [|p ps IH]; intros cs c Hc.
  - simpl. now rewrite list_insert_id.
  - cbn [map]. unfold forEach in *. cbn [fold_left modify]. rewrite Hc.
    rewrite (IH _ (modify p f c)).
    + now rewrite list_insert_insert_eq.
    + apply list_lookup_insert_eq. eapply lookup_lt_Some, Hc.
Qed.

(** Callbacks at the paths below the children act child by child. *)
Lemma forEach_children pred f (g : node -> node) k pre cs post :
  Forall (fun c => forEach (find pred c) f c = g c) cs ->
  forEach (find_children pred (length pre) cs) f (Node k (pre ++ cs ++ post))
  = Node k (pre ++ map g cs ++ post).
Proof.
  revert pre. induction cs as [|c cs IH]; intros pre Hcs.
  - reflexivity.
  - apply Forall_cons in Hcs as [Hc Hcs].
    cbn [find_children]. rewrite forEach_app.
    rewrite (forEach_child _ _ _ _ _ c).
    + rewrite Hc. cbn [map app].
      replace (<[length pre := g c]> (pre ++ c :: cs ++ post))
        with ((pre ++ [g c]) ++ cs ++ post).
      * replace (S (length pre)) with (length (pre ++ [g c]))
          by (rewrite length_app; simpl; lia).
        rewrite (IH _ Hcs). now rewrite <- app_assoc.
      * rewrite <- app_assoc. cbn [app].
        rewrite insert_app_r_alt by lia. now rewrite Nat.sub_diag.
    + rewrite lookup_app_r by lia. now rewrite Nat.sub_diag.
Qed.

(** The collected paths and their callback, together, are [append_max]. *)
Lemma push_max_everywhere (root : node) :
  forEach (find (Engine.is_call_of ["revalidateTag"]) root) Engine.push_max root
  = append_max root.
Proof.
  induction root as [k cs IH] using node_induction.
  rewrite find_unfold.
  pose proof (forEach_children (Engine.is_call_of ["revalidateTag"]) Engine.push_max
                append_max k [] cs) as Hchildren.
  cbn [app length] in Hchildren.
  pose proof (Hchildren [] IH) as Hsame. rewrite !app_nil_r in Hsame.
  pose proof (Hchildren [literal "max"] IH) as Hpushed.
  destruct (Engine.is_call_of ["revalidateTag"] (Node k cs)) eqn:Htarget.
  - destruct k; try discriminate. destruct cs as [|callee args]; [discriminate|].
    cbn [Engine.is_call_of existsb] in Htarget. rewrite orb_false_r in Htarget.
    cbn [app]. unfold forEach at 1. cbn [fold_left modify].
    fold (forEach (find_children (Engine.is_call_of ["revalidateTag"]) 0 (callee :: args))
            Engine.push_max (Engine.push_max (Node KCall (callee :: args)))).
    unfold Engine.push_max at 2.
    destruct args as [|arg [|arg2 args]]; cbn [length Nat.eqb].
    + rewrite Hsame. reflexivity.
    + change (callee :: [arg] ++ [literal "max"]) with ([callee; arg] ++ [literal "max"]).
      rewrite Hpushed. cbn [append_max]. now rewrite Htarget.
    + rewrite Hsame. reflexivity.
  - cbn [app]. rewrite Hsame.
    destruct k; try reflexivity.
    destruct cs as [|callee [|arg [|arg2 args]]]; try reflexivity.
    cbn [Engine.is_call_of existsb] in Htarget. rewrite orb_false_r in Htarget.
    cbn [append_max]. now rewrite Htarget.
Qed.

End Trees.

(** ** Cache invalidation *)

Section CacheInvalidation.
Context `{Host}.



End CacheInvalidation.

(** ** Detection after a rewrite *)

Section Redetection.
Context `{Host}.


End Redetection.

(** ** The properties on concrete projects *)

Lemma calculateComplexity_thresholds_witness :
  complexity (Compatibility.calculateComplexity (Scenario.report 51 0)) = High /\
  complexity (Compatibility.calculateComplexity (Scenario.report 21 5)) = Medium /\
  complexity (Compatibility.calculateComplexity (Scenario.report 5 0)) = Low /\
  complexity (Compatibility.calculateComplexity (Scenario.report 0 6)) = High /\
  estimatedTime (Compatibility.calculateComplexity (Scenario.report 0 3)) = "15-30 minutes".
Proof.
  split; [|split; [|split; [|split]]].
  - apply (calculateComplexity_thresholds (Scenario.report 51 0)). reflexivity.
  - apply (calculateComplexity_thresholds (Scenario.report 21 5)); [reflexivity|].
    vm_compute. lia.
  - apply (calculateComplexity_thresholds (Scenario.report 5 0)); reflexivity.
  - pose proof (calculateComplexity_thresholds (Scenario.report 0 6)) as T.
    cbv zeta in T. destruct T as (Thigh & _).
    apply Thigh. right. vm_compute. lia.
  - pose proof (calculateComplexity_thresholds (Scenario.report 0 3)) as T.
    cbv zeta in T. destruct T as (_ & Tmedium & _).
    apply Tmedium; [|right]; vm_compute; lia.
Defined.

Lemma migrateCommand_stops_at_gate_witness :
  fst (@Compatibility.analyze Demo.host Demo.empty_project)
    = Return Scenario.incompatible_report /\
  @Migrate.migrateCommand Demo.host Scenario.options Demo.empty_project
    = (Return tt, Demo.empty_project).
Proof.
  assert (fst (@Compatibility.analyze Demo.host Demo.empty_project)
          = Return Scenario.incompatible_report) as Hreport by (vm_compute; reflexivity).
  split; [exact Hreport|].
  apply (migrateCommand_stops_at_gate (H := Demo.host) Scenario.options Demo.empty_project
           Scenario.incompatible_report Hreport).
  reflexivity.
Defined.

Lemma catalog_after_eleven_backups_witness :
  let run := @createBackups Demo.host 11 Demo.project in
  backup_sources_readable Demo.project /\
  run = (Return Scenario.eleven_ids, snd run) /\
  exists entries,
    @BackupManager.listBackups (snd run) = (Return entries, snd run) /\
    length entries = 10%nat /\
    map id entries = rev (drop 1 Scenario.eleven_ids).
Proof.
  intros run.
  assert (backup_sources_readable Demo.project) as Hreadable.
  { intros file Hfile. apply list_elem_of_In in Hfile.
    repeat (destruct Hfile as [<-|Hfile]; [vm_compute; discriminate|]).
    destruct Hfile. }
  assert (run = (Return Scenario.eleven_ids, snd run)) as Hrun by (vm_compute; reflexivity).
  split; [exact Hreadable|]. split; [exact Hrun|].
  destruct (catalog_after_eleven_backups (H := Demo.host) Demo.project)
    as (Hreturns & Hcatalog & _).
  destruct (Hreturns Hreadable) as (ids & w' & Hids).
  exact (Hcatalog Scenario.eleven_ids (snd run) Hrun).
Defined.

Lemma restoreBackup_unknown_id_witness :
  let w := snd (@BackupManager.createBackup Demo.host Demo.project) in
  map id (catalog w) = ["backup-1700000000000"] /\
  @BackupManager.restoreBackup Demo.host "backup-42" w
    = (Throw "Backup backup-42 not found", w).
Proof.
  intros w. split; [vm_compute; reflexivity|].
  apply (restoreBackup_unknown_id (H := Demo.host) "backup-42" w).
  intros backup Hin. apply list_elem_of_In in Hin. vm_compute in Hin.
  destruct Hin as [<-|[]]. discriminate.
Defined.


Lemma transformFile_is_atomic_witness :
  let w := Demo.project_with_syntax_error in
  let w1 := snd (@Engine.migrateFiles Demo.host [Scenario.cache] Scenario.no_result w) in
  @Engine.transformFile Demo.host Scenario.broken w1
    = (Throw "Transformation update-revalidate-tag failed: Unexpected token",
       add_trace w1 [EvRewrite "update-revalidate-tag" "lib/broken.ts"]) /\
  tree (fs (snd (@Engine.migrateFiles Demo.host [Scenario.cache; Scenario.broken]
                   Scenario.no_result w))) !! "lib/broken.ts"
    = Some (File "revalidateTag(").
Proof.
  intros w w1.
  assert (@Engine.transformFile Demo.host Scenario.broken w1
          = (Throw "Transformation update-revalidate-tag failed: Unexpected token",
             add_trace w1 [EvRewrite "update-revalidate-tag" "lib/broken.ts"])) as Hthrow
    by (vm_compute; reflexivity).
  split; [exact Hthrow|].
  transitivity (tree (fs w) !! path Scenario.broken); [|vm_compute; reflexivity].
  apply (proj2 (transformFile_is_atomic (H := Demo.host) Scenario.broken w1)
           [Scenario.cache] [] Scenario.no_result Scenario.cache_result w
           "Transformation update-revalidate-tag failed: Unexpected token"
           (add_trace w1 [EvRewrite "update-revalidate-tag" "lib/broken.ts"])).
  - cbn. rewrite list_elem_of_singleton. discriminate.
  - cbn. apply not_elem_of_nil.
  - vm_compute. reflexivity.
  - exact Hthrow.
Defined.

(** C6, refuted as stated: in a project whose page app/page.tsx cannot be
    read (and whose other candidate, lib/cache.ts, can), [analyze] throws
    the error of [fs.readFile]; it returns no report, for any file. *)
Lemma analyze_fails_on_unreadable_page :
  let w := Demo.project_with_unreadable_page in
  tree (fs w) !! "app/page.tsx" = Some Unreadable /\
  tree (fs w) !! "lib/cache.ts" = Some (File Scenario.cache_text) /\
  @glob Demo.host "app/**/*.tsx" (fs w) = ["app/page.tsx"] /\
  @glob Demo.host "lib/**/*.ts" (fs w) = ["lib/cache.ts"] /\
  @Compatibility.analyze Demo.host w
    = (Throw "EACCES: permission denied, open 'app/page.tsx'", w) /\
  ~ exists report, fst (@Compatibility.analyze Demo.host w) = Return report.
Proof.
  intros w.
  assert (@Compatibility.analyze Demo.host w
          = (Throw "EACCES: permission denied, open 'app/page.tsx'", w)) as Hthrow
    by (vm_compute; reflexivity).
  split; [vm_compute; reflexivity|]. split; [vm_compute; reflexivity|].
  split; [vm_compute; reflexivity|]. split; [vm_compute; reflexivity|].
  split; [exact Hthrow|].
  intros [report Hreport]. rewrite Hthrow in Hreport. discriminate.
Qed.

Lemma analyze_throws_on_unreadable_candidate_witness :
  let w := Demo.project_with_unreadable_page in
  "app/**/*.tsx" ∈ Compatibility.patterns /\
  "app/page.tsx" ∈ @glob Demo.host "app/**/*.tsx" (fs w) /\
  tree (fs w) !! "app/page.tsx" = Some Unreadable /\
  exists message, @Compatibility.analyze Demo.host w = (Throw message, w).
Proof.
  intros w.
  assert ("app/**/*.tsx" ∈ Compatibility.patterns) as Hpattern
    by (apply list_elem_of_In; vm_compute; tauto).
  assert ("app/page.tsx" ∈ @glob Demo.host "app/**/*.tsx" (fs w)) as Hfile
    by (apply list_elem_of_In; vm_compute; tauto).
  assert (tree (fs w) !! "app/page.tsx" = Some Unreadable) as Hentry
    by (vm_compute; reflexivity).
  split; [exact Hpattern|]. split; [exact Hfile|]. split; [exact Hentry|].
  apply (analyze_throws_on_unreadable_candidate (H := Demo.host) w
           "app/**/*.tsx" "app/page.tsx" Hpattern Hfile).
  intros content. rewrite Hentry. discriminate.
Defined.




(** * Further properties *)

(** ** The scanner, phase by phase *)

Lemma reads_in_of_reads {A} (c : Async A) (Q : A -> Prop) w : reads c Q -> reads_in w c Q.
Proof. intros Hc. apply Hc. Qed.

Lemma reads_in_ret {A} (a : A) (Q : A -> Prop) w : Q a -> reads_in w (ret a) Q.
Proof. intros Ha. split; [reflexivity|]. simpl. now intros ? [= <-]. Qed.

Lemma reads_in_bind {A B} (c : Async A) (k : A -> Async B) (P : A -> Prop) (Q : B -> Prop) w :
  reads_in w c P -> (forall a, P a -> reads_in w (k a) Q) -> reads_in w (bind c k) Q.
Proof.
  intros [Hw Ha] Hk. unfold reads_in, bind.
  destruct (c w) as [[a|m] w'] eqn:E; simpl in *; subst w'.
  - apply Hk. now apply Ha.
  - split; [reflexivity|discriminate].
Qed.

Lemma reads_in_for_of_with {A S} (I : S -> Prop) (xs : list A) (body : A -> S -> Async S) w :
  (forall x s, x ∈ xs -> I s -> reads_in w (body x s) I) ->
  forall s, I s -> reads_in w (for_of_with xs body s) I.
Proof.
  induction xs as [|x xs IH]; intros Hbody s Hs; cbn [for_of_with].
  - now apply reads_in_ret.
  - eapply reads_in_bind; [apply Hbody; [left|exact Hs]|].
    intros s' Hs'. apply IH; [|exact Hs']. intros y s0 Hy. apply Hbody. now right.
Qed.

Section ScannerPhases.
Context `{Host}.

Lemma reads_in_analyzeFile w pattern file :
  pattern ∈ Compatibility.patterns ->
  file ∈ glob pattern (fs w) ->
  reads_in w (Compatibility.analyzeFile file)
    (fun f => transformations f <> [] -> Listed w f).
Proof.
  intros Hpattern Hfile. unfold reads_in, Compatibility.analyzeFile, bind, Fs.readFile.
  destruct (tree (fs w) !! file) as [[content|]|] eqn:E; (split; [reflexivity|]);
    try discriminate.
  intros f [= <-] Htags. exists pattern, content. simpl in *. auto 10.
Qed.

(** [findFilesToTransform] adds records of the scan and keeps the rest of
    the report. *)
Lemma reads_in_findFilesToTransform w analysis :
  Forall (Listed w) (filesToTransform analysis) ->
  reads_in w (Compatibility.findFilesToTransform analysis)
    (fun a => same_verdict analysis a /\ Forall (Listed w) (filesToTransform a)).
Proof.
  intros Hfiles. unfold Compatibility.findFilesToTransform.
  apply reads_in_for_of_with; [|split; [repeat split|exact Hfiles]].
  intros pattern a Hpattern Ha.
  eapply reads_in_bind with (P := fun w0 => w0 = w).
  { split; [reflexivity|]. simpl. now intros ? [= <-]. }
  intros ? ->. apply reads_in_for_of_with; [|exact Ha].
  intros file a' Hfile [Hverdict Hlisted].
  eapply reads_in_bind; [apply (reads_in_analyzeFile w pattern file Hpattern Hfile)|].
  intros f Hf. destruct (0 <? length (transformations f))%nat eqn:E;
    apply reads_in_ret; [|now split].
  split; [exact Hverdict|]. cbn. apply Forall_app. split; [exact Hlisted|].
  constructor; [|constructor]. apply Hf. intros Hnil. rewrite Hnil in E. discriminate.
Qed.

(** [checkCompatibility] keeps the files and the version, only adds to the
    issues, and clears [isCompatible] exactly when the major version of the
    runtime is below 20. *)
Lemma reads_in_checkCompatibility w analysis :
  reads_in w (Compatibility.checkCompatibility analysis)
    (fun a =>
       filesToTransform a = filesToTransform analysis /\
       currentVersion a = currentVersion analysis /\
       issues analysis `prefix_of` issues a /\
       isCompatible a
       = (if Compatibility.number_lt node_major 20 then false else isCompatible analysis) /\
       (Compatibility.number_lt node_major 20 = true ->
        ("Node.js " +:+ process_version +:+
         " is not supported. Next.js 16 requires Node.js 20.9+") ∈ issues a)).
Proof.
  unfold Compatibility.checkCompatibility.
  eapply reads_in_bind with (P := fun _ => True).
  { split; [reflexivity|trivial]. }
  intros w0 _.
  set (start := if (0 <? _)%nat then _ else analysis).
  assert (filesToTransform start = filesToTransform analysis /\
          currentVersion start = currentVersion analysis /\
          issues analysis `prefix_of` issues start /\
          isCompatible start = isCompatible analysis) as Hstart.
  { subst start. destruct (0 <? _)%nat; cbn; repeat split; try reflexivity.
    now apply prefix_app_r. }
  clearbody start.
  eapply reads_in_bind with
    (P := fun a => filesToTransform a = filesToTransform analysis /\
                   currentVersion a = currentVersion analysis /\
                   issues analysis `prefix_of` issues a /\
                   isCompatible a = isCompatible analysis).
  - apply reads_in_for_of_with; [|exact Hstart].
    intros configFile a _ (Hf & Hv & Hi & Hc).
    eapply reads_in_bind; [apply reads_in_of_reads, reads_readFile|]. intros content _.
    destruct (Js.includes content "experimental.ppr"); apply reads_in_ret; cbn;
      repeat split; auto. now apply prefix_app_r.
  - intros a (Hf & Hv & Hi & Hc). fold node_major.
    destruct (Compatibility.number_lt node_major 20); apply reads_in_ret; cbn;
      repeat split; auto; try discriminate.
    + now apply prefix_app_r.
    + intros _. apply elem_of_app. right. left.
Qed.

Lemma calculateComplexity_keeps analysis :
  isCompatible (Compatibility.calculateComplexity analysis) = isCompatible analysis /\
  currentVersion (Compatibility.calculateComplexity analysis) = currentVersion analysis /\
  filesToTransform (Compatibility.calculateComplexity analysis) = filesToTransform analysis /\
  issues (Compatibility.calculateComplexity analysis) = issues analysis.
Proof.
  unfold Compatibility.calculateComplexity.
  destruct (_ || _); [now repeat split|]. destruct (_ || _); now repeat split.
Qed.

(** The loop over the problematic dependencies only adds issues and
    recommendations. *)
Lemma flag_problematic_keeps (packageJson : PackageJson) (deps : list string) analysis :
  let analysis' :=
    fold_left
      (fun analysis dep =>
         if Js.truthy (Js.or_else (dependencies packageJson !! dep)
                                  (devDependencies packageJson !! dep))
         then Compatibility.push_recommendation ("Consider updating or removing " +:+ dep)
                (Compatibility.push_issue
                   ("Dependency " +:+ dep +:+ " may not be compatible with Next.js 16")
                   analysis)
         else analysis)
      deps analysis in
  isCompatible analysis' = isCompatible analysis /\
  currentVersion analysis' = currentVersion analysis /\
  filesToTransform analysis' = filesToTransform analysis /\
  issues analysis `prefix_of` issues analysis'.
Proof.
  revert analysis. induction deps as [|dep deps IH]; intros analysis; cbn [fold_left].
  - now repeat split.
  - cbv zeta in IH.
    destruct (Js.truthy _).
    + specialize (IH (Compatibility.push_recommendation
                        ("Consider updating or removing " +:+ dep)
                        (Compatibility.push_issue
                           ("Dependency " +:+ dep +:+ " may not be compatible with Next.js 16")
                           analysis))).
      destruct IH as (Hc & Hv & Hf & Hi). cbn in *. repeat split; auto.
      etransitivity; [|exact Hi]. now apply prefix_app_r.
    + apply IH.
Qed.

(** What [analyzePackageJson] makes of the manifest, case by case. *)
Lemma analyzePackageJson_cases analysis w :
  match tree (fs w) !! "package.json" with
  | None =>
      Compatibility.analyzePackageJson analysis w
      = (Return (Compatibility.set_isCompatible false
                   (Compatibility.push_issue "No package.json found" analysis)), w)
  | Some Unreadable =>
      exists message, Compatibility.analyzePackageJson analysis w = (Throw message, w)
  | Some (File text) =>
      match JSON_parse text with
      | None => exists message, Compatibility.analyzePackageJson analysis w = (Throw message, w)
      | Some packageJson =>
          exists a,
            Compatibility.analyzePackageJson analysis w = (Return a, w) /\
            filesToTransform a = filesToTransform analysis /\
            issues analysis `prefix_of` issues a /\
            match declared_next packageJson with
            | Some v =>
                if Js.truthy (Some v) then
                  currentVersion a = v /\
                  if Compatibility.number_lt
                       (Compatibility.major (Compatibility.parseVersion v)) 14
                  then isCompatible a = false /\
                       ("Next.js version " +:+ v +:+
                        " is too old. Need version 14+ for migration to 16.") ∈ issues a
                  else isCompatible a = isCompatible analysis
                else isCompatible a = false /\ currentVersion a = currentVersion analysis /\
                     "Next.js not found in dependencies" ∈ issues a
            | None => isCompatible a = false /\ currentVersion a = currentVersion analysis /\
                      "Next.js not found in dependencies" ∈ issues a
            end
      end
  end.
Proof.
  assert (forall text,
            tree (fs w) !! "package.json" = Some (File text) ->
            Compatibility.readJson "package.json" w
            = (match JSON_parse text with
               | Some json => Return json
               | None => Throw ("package.json" +:+ ": Unexpected token in JSON")
               end, w)) as Hjson.
  { intros text E. unfold Compatibility.readJson, bind, Fs.readFile. rewrite E.
    now destruct (JSON_parse text). }
  destruct (tree (fs w) !! "package.json") as [[text|]|] eqn:E.
  - specialize (Hjson text eq_refl).
    destruct (JSON_parse text) as [packageJson|].
    2:{ unfold Compatibility.analyzePackageJson, bind at 1, Fs.pathExists.
        rewrite E, bool_decide_eq_true_2 by eauto. cbn [negb].
        unfold bind at 1. rewrite Hjson. eauto. }
    unfold Compatibility.analyzePackageJson, bind at 1, Fs.pathExists.
    rewrite E, bool_decide_eq_true_2 by eauto. cbn [negb].
    unfold bind at 1. rewrite Hjson.
    unfold ret at 1. eexists. split; [reflexivity|].
    match goal with
    | |- context [fold_left ?body ?deps ?start] =>
        pose proof (flag_problematic_keeps packageJson deps start) as K;
        cbv zeta in K; set (a := fold_left body deps start) in *
    end.
    destruct K as (Hc & Hv & Hf & Hi).
    rewrite Hc, Hv, Hf. clear Hc Hv Hf. unfold declared_next.
    assert (forall issue (l : list string), l ++ [issue] `prefix_of` issues a -> issue ∈ issues a)
      as Hin.
    { intros issue l [k ->]. apply elem_of_app. left. apply elem_of_app. right. left. }
    assert (forall issue (l : list string),
              l ++ [issue] `prefix_of` issues a -> l `prefix_of` issues a) as Hpre.
    { intros issue l Hl. etransitivity; [|exact Hl]. now apply prefix_app_r. }
    destruct (Js.or_else _ _) as [v|] eqn:Ev.
    + destruct (Js.truthy (Some v)) eqn:Et.
      * destruct (Compatibility.number_lt _ 14) eqn:Elt;
          cbn [isCompatible currentVersion filesToTransform issues
               Compatibility.set_isCompatible Compatibility.push_issue
               Compatibility.set_currentVersion] in *.
        -- split; [reflexivity|]. split; [eapply Hpre, Hi|].
           split; [reflexivity|]. split; [reflexivity|]. eapply Hin, Hi.
        -- split; [reflexivity|]. split; [exact Hi|]. split; reflexivity.
      * cbn [isCompatible currentVersion filesToTransform issues
             Compatibility.set_isCompatible Compatibility.push_issue] in *.
        split; [reflexivity|]. split; [eapply Hpre, Hi|].
        split; [reflexivity|]. split; [reflexivity|]. eapply Hin, Hi.
    + cbn [isCompatible currentVersion filesToTransform issues
           Compatibility.set_isCompatible Compatibility.push_issue] in *.
      split; [reflexivity|]. split; [eapply Hpre, Hi|].
      split; [reflexivity|]. split; [reflexivity|]. eapply Hin, Hi.
  - unfold Compatibility.analyzePackageJson, bind at 1, Fs.pathExists.
    rewrite E, bool_decide_eq_true_2 by eauto. cbn [negb].
    unfold bind at 1, Compatibility.readJson, bind at 1, Fs.readFile. rewrite E. eauto.
  - unfold Compatibility.analyzePackageJson, bind at 1, Fs.pathExists.
    rewrite E, bool_decide_eq_false_2 by (intros [? ?]; discriminate). reflexivity.
Qed.

End ScannerPhases.

Section ScannerReport.
Context `{Host}.

(** The report of [analyze], traced back through its phases. *)
Lemma analyze_phases w report w' :
  Compatibility.analyze w = (Return report, w') ->
  w' = w /\
  exists a1,
    Compatibility.analyzePackageJson initial_analysis w = (Return a1, w) /\
    currentVersion report = currentVersion a1 /\
    issues a1 `prefix_of` issues report /\
    isCompatible report
    = (if Compatibility.number_lt node_major 20 then false else isCompatible a1) /\
    (Compatibility.number_lt node_major 20 = true -> issues report <> []) /\
    Forall (Listed w) (filesToTransform report).
Proof.
  intros Hrun. pose proof (analyze_world w) as Hw. rewrite Hrun in Hw. simpl in Hw.
  split; [exact Hw|]. subst w'.
  unfold Compatibility.analyze in Hrun. fold initial_analysis in Hrun.
  unfold bind at 1 in Hrun.
  assert (exists a1, Compatibility.analyzePackageJson initial_analysis w = (Return a1, w) /\
                     filesToTransform a1 = []) as (a1 & E1 & Hfiles1).
  { pose proof (analyzePackageJson_cases initial_analysis w) as Hcases.
    destruct (tree (fs w) !! "package.json") as [[text|]|].
    - destruct (JSON_parse text).
      + destruct Hcases as (a & Ha & Hfiles & _). eauto.
      + destruct Hcases as [m Hm]. rewrite Hm in Hrun. discriminate.
    - destruct Hcases as [m Hm]. rewrite Hm in Hrun. discriminate.
    - eauto. }
  rewrite E1 in Hrun. exists a1. split; [exact E1|].
  unfold bind at 1 in Hrun.
  destruct (reads_in_findFilesToTransform w a1) as [Hw2 H2].
  { rewrite Hfiles1. constructor. }
  destruct (Compatibility.findFilesToTransform a1 w) as [[a2|m] w2]; [|discriminate].
  simpl in Hw2. subst w2. destruct (H2 a2 eq_refl) as ((Hc2 & Hv2 & Hi2 & _) & Hl2).
  unfold bind at 1 in Hrun.
  destruct (reads_in_checkCompatibility w a2) as [Hw3 H3].
  destruct (Compatibility.checkCompatibility a2 w) as [[a3|m] w3]; [|discriminate].
  simpl in Hw3. subst w3. destruct (H3 a3 eq_refl) as (Hf3 & Hv3 & Hi3 & Hc3 & Hn3).
  unfold ret in Hrun. injection Hrun as <-.
  destruct (calculateComplexity_keeps a3) as (Hc4 & Hv4 & Hf4 & Hi4).
  rewrite Hc4, Hv4, Hf4, Hi4, Hc3, Hv3, Hf3, Hc2, Hv2.
  rewrite Hi2 in Hi3.
  repeat split; auto.
  intros Hnode Hnil. specialize (Hn3 Hnode). rewrite Hnil in Hn3.
  now apply elem_of_nil in Hn3.
Qed.

(** X1: The gate, spelled out: a report says [isCompatible] exactly when the
    manifest can be read and parsed, declares a version of next that is
    not the empty string and whose major is not below 14, and the major
    of the runtime is not below 20.  Nothing else the scan finds (AMP
    files, [experimental.ppr], the dependencies it warns about) closes the
    gate. *)
Theorem compatible_iff (w : World) (report : ProjectAnalysis) (w' : World) :
  Compatibility.analyze w = (Return report, w') ->
  (isCompatible report = true <->
   exists text packageJson v,
     tree (fs w) !! "package.json" = Some (File text) /\
     JSON_parse text = Some packageJson /\
     declared_next packageJson = Some v /\
     v <> "" /\
     Compatibility.number_lt (Compatibility.major (Compatibility.parseVersion v)) 14 = false /\
     Compatibility.number_lt node_major 20 = false).
Proof.
  intros Hrun. destruct (analyze_phases _ _ _ Hrun) as (_ & a1 & E1 & _ & _ & Hc & _).
  pose proof (analyzePackageJson_cases initial_analysis w) as Hcases.
  rewrite Hc. clear Hc.
  destruct (tree (fs w) !! "package.json") as [[text|]|] eqn:E.
  - destruct (JSON_parse text) as [packageJson|] eqn:EJ.
    + destruct Hcases as (a & Ha & _ & _ & Hverdict).
      rewrite Ha in E1. injection E1 as <-.
      destruct (declared_next packageJson) as [v|] eqn:Ev.
      * destruct (Js.truthy (Some v)) eqn:Et.
        -- destruct Hverdict as [_ Hverdict].
           assert (v <> "") as Hv.
           { intros ->. discriminate. }
           destruct (Compatibility.number_lt
                       (Compatibility.major (Compatibility.parseVersion v)) 14) eqn:Elt.
           ++ destruct Hverdict as [-> _]. split.
              ** now destruct (Compatibility.number_lt node_major 20).
              ** intros (text' & pj' & v' & Ht & Hj & Hd & _ & Hlt & _).
                 injection Ht as <-. rewrite EJ in Hj. injection Hj as <-.
                 rewrite Ev in Hd. injection Hd as <-.
                 rewrite Elt in Hlt. discriminate.
           ++ rewrite Hverdict. cbn [initial_analysis isCompatible]. split.
              ** destruct (Compatibility.number_lt node_major 20); [discriminate|].
                 intros _. exists text, packageJson, v. auto 10.
              ** intros (? & ? & ? & _ & _ & _ & _ & _ & ->). reflexivity.
        -- destruct Hverdict as (-> & _). split.
           ++ now destruct (Compatibility.number_lt node_major 20).
           ++ intros (text' & pj' & v' & Ht & Hj & Hd & Hv & _).
              injection Ht as <-. rewrite EJ in Hj. injection Hj as <-.
              rewrite Ev in Hd. injection Hd as <-.
              cbn in Et. destruct (String.eqb_spec v ""); [contradiction|discriminate].
      * destruct Hverdict as (-> & _). split.
        -- now destruct (Compatibility.number_lt node_major 20).
        -- intros (text' & pj' & v' & Ht & Hj & Hd & _).
           injection Ht as <-. rewrite EJ in Hj. injection Hj as <-.
           rewrite Ev in Hd. discriminate.
    + destruct Hcases as [m Hm]. rewrite Hm in E1. discriminate.
  - destruct Hcases as [m Hm]. rewrite Hm in E1. discriminate.
  - rewrite Hcases in E1. injection E1 as <-. cbn. split.
    + now destruct (Compatibility.number_lt node_major 20).
    + intros (? & ? & ? & ? & _). discriminate.
Qed.

(** X2: A report that says [isCompatible = false] names at least one issue. *)
Theorem incompatible_report_names_an_issue (w : World) (report : ProjectAnalysis) (w' : World) :
  Compatibility.analyze w = (Return report, w') ->
  isCompatible report = false ->
  issues report <> [].
Proof.
  intros Hrun Hgate.
  destruct (analyze_phases _ _ _ Hrun) as (_ & a1 & E1 & _ & Hi & Hc & Hnode & _).
  destruct (Compatibility.number_lt node_major 20) eqn:En; [now apply Hnode|].
  rewrite Hc in Hgate.
  assert (exists issue, issue ∈ issues a1) as [issue Hissue].
  { pose proof (analyzePackageJson_cases initial_analysis w) as Hcases.
    destruct (tree (fs w) !! "package.json") as [[text|]|].
    - destruct (JSON_parse text) as [packageJson|].
      + destruct Hcases as (a & Ha & _ & _ & Hverdict).
        rewrite Ha in E1. injection E1 as <-.
        destruct (declared_next packageJson) as [v|].
        * destruct (Js.truthy (Some v)).
          -- destruct Hverdict as [_ Hverdict].
             destruct (Compatibility.number_lt _ 14).
             ++ destruct Hverdict as [_ Hin]. eauto.
             ++ rewrite Hverdict in Hgate. discriminate.
          -- destruct Hverdict as (_ & _ & Hin). eauto.
        * destruct Hverdict as (_ & _ & Hin). eauto.
      + destruct Hcases as [m Hm]. rewrite Hm in E1. discriminate.
    - destruct Hcases as [m Hm]. rewrite Hm in E1. discriminate.
    - rewrite Hcases in E1. injection E1 as <-. exists "No package.json found". cbn. left. }
  intros Hnil. destruct Hi as [k Hk]. rewrite Hnil in Hk.
  symmetry in Hk. apply app_eq_nil in Hk as [Hk _]. rewrite Hk in Hissue.
  now apply elem_of_nil in Hissue.
Qed.

(** X3: Every record of a report comes from the scan: its path is a match of
    one of the patterns, the file there could be read, its tags are the
    ones detected in the text of the file and there is at least one, and
    its type is the one of its path. *)
Theorem report_lists_scanned_files (w : World) (report : ProjectAnalysis) (w' : World) :
  Compatibility.analyze w = (Return report, w') ->
  forall f, f ∈ filesToTransform report -> Listed w f.
Proof.
  intros Hrun f Hf.
  destruct (analyze_phases _ _ _ Hrun) as (_ & _ & _ & _ & _ & _ & _ & Hlisted).
  rewrite Forall_forall in Hlisted. now apply Hlisted.
Qed.

(** X4: Without a manifest the analysis does not stop: when it returns, the
    report is incompatible, the version is "unknown" and the first issue
    is the missing manifest. *)
Theorem missing_manifest_is_reported (w : World) (report : ProjectAnalysis) (w' : World) :
  tree (fs w) !! "package.json" = None ->
  Compatibility.analyze w = (Return report, w') ->
  isCompatible report = false /\
  currentVersion report = "unknown" /\
  head (issues report) = Some "No package.json found".
Proof.
  intros Hmissing Hrun.
  destruct (analyze_phases _ _ _ Hrun) as (_ & a1 & E1 & Hv & Hi & Hc & _).
  pose proof (analyzePackageJson_cases initial_analysis w) as Hcases.
  rewrite Hmissing in Hcases. rewrite Hcases in E1. injection E1 as <-.
  rewrite Hc, Hv. cbn in *. split; [now destruct (Compatibility.number_lt node_major 20)|].
  split; [reflexivity|]. now destruct Hi as [k ->].
Qed.

(** X5: A declared version in which no dotted triple of numbers occurs
    ("latest", "canary", "15", "^15.0") parses as 0.0.0 and is therefore
    rejected as too old. *)
Theorem version_without_triple_is_too_old
    (w : World) (text : string) (packageJson : PackageJson) (v : string)
    (report : ProjectAnalysis) (w' : World) :
  tree (fs w) !! "package.json" = Some (File text) ->
  JSON_parse text = Some packageJson ->
  declared_next packageJson = Some v ->
  v <> "" ->
  Js.match_version v = None ->
  Compatibility.analyze w = (Return report, w') ->
  isCompatible report = false /\
  currentVersion report = v /\
  ("Next.js version " +:+ v +:+ " is too old. Need version 14+ for migration to 16.")
    ∈ issues report.
Proof.
  intros Hfile Hjson Hnext Hv Hmatch Hrun.
  destruct (analyze_phases _ _ _ Hrun) as (_ & a1 & E1 & Hver & Hi & Hc & _).
  pose proof (analyzePackageJson_cases initial_analysis w) as Hcases.
  rewrite Hfile, Hjson in Hcases. destruct Hcases as (a & Ha & _ & _ & Hverdict).
  rewrite Ha in E1. injection E1 as <-. rewrite Hnext in Hverdict.
  assert (Js.truthy (Some v) = true) as Ht.
  { cbn. destruct (String.eqb_spec v ""); [contradiction|reflexivity]. }
  rewrite Ht in Hverdict. destruct Hverdict as [Hcur Hverdict].
  unfold Compatibility.parseVersion in Hverdict. rewrite Hmatch in Hverdict.
  cbn in Hverdict. destruct Hverdict as [Hgate Hin].
  rewrite Hc, Hver, Hgate. split; [now destruct (Compatibility.number_lt node_major 20)|].
  split; [exact Hcur|]. destruct Hi as [k ->]. apply elem_of_app. now left.
Qed.

(** X6: On a runtime whose major version is below 20 [migrateCommand] changes
    nothing, whatever the project and the options: it returns at the gate,
    or throws what the analysis threw. *)
Theorem migrateCommand_on_old_runtime (options : Migrate.MigrateOptions) (w : World) :
  Compatibility.number_lt node_major 20 = true ->
  snd (Migrate.migrateCommand options w) = w /\
  (fst (Migrate.migrateCommand options w) = Return tt \/
   exists message,
     fst (Migrate.migrateCommand options w) = Throw message /\
     fst (Compatibility.analyze w) = Throw message).
Proof.
  intros Hnode.
  destruct (Compatibility.analyze w) as [[report|message] w1] eqn:E.
  - destruct (analyze_phases _ _ _ E) as (-> & a1 & _ & _ & _ & Hc & _).
    rewrite Hnode in Hc.
    assert (Migrate.migrateCommand options w = (Return tt, w)) as ->.
    { unfold Migrate.migrateCommand, bind at 1. now rewrite E, Hc. }
    split; [reflexivity|left; reflexivity].
  - pose proof (analyze_world w) as Hw. rewrite E in Hw. simpl in Hw. subst w1.
    assert (Migrate.migrateCommand options w = (Throw message, w)) as ->.
    { unfold Migrate.migrateCommand, bind at 1. now rewrite E. }
    split; [reflexivity|]. right. eauto.
Qed.

End ScannerReport.

Lemma compatible_iff_witness :
  exists report,
    @Compatibility.analyze Demo.host Demo.project = (Return report, Demo.project) /\
    isCompatible report = true /\
    exists text packageJson v,
      tree (fs Demo.project) !! "package.json" = Some (File text) /\
      @JSON_parse Demo.host text = Some packageJson /\
      @declared_next packageJson = Some v /\
      v <> "" /\
      Compatibility.number_lt (Compatibility.major (Compatibility.parseVersion v)) 14 = false /\
      Compatibility.number_lt (@node_major Demo.host) 20 = false.
Proof.
  eexists. split; [vm_compute; reflexivity|]. split; [reflexivity|].
  apply (proj1 (compatible_iff (H := Demo.host) Demo.project _ Demo.project
                  ltac:(vm_compute; reflexivity))).
  reflexivity.
Defined.

Lemma incompatible_report_names_an_issue_witness :
  @Compatibility.analyze Demo.host Demo.empty_project
    = (Return Scenario.incompatible_report, Demo.empty_project) /\
  issues Scenario.incompatible_report <> [].
Proof.
  assert (@Compatibility.analyze Demo.host Demo.empty_project
          = (Return Scenario.incompatible_report, Demo.empty_project)) as Hrun
    by (vm_compute; reflexivity).
  split; [exact Hrun|].
  apply (incompatible_report_names_an_issue (H := Demo.host) _ _ _ Hrun). reflexivity.
Defined.

Lemma report_lists_scanned_files_witness :
  exists report,
    @Compatibility.analyze Demo.host Demo.project = (Return report, Demo.project) /\
    Scenario.cache ∈ filesToTransform report /\
    @Listed Demo.host Demo.project Scenario.cache.
Proof.
  eexists. split; [vm_compute; reflexivity|].
  assert (Scenario.cache ∈
            [Scenario.middleware;
             {| path := "app/page.tsx"; type := Component;
                transformations := ["update-next-image"] |};
             Scenario.cache]) as Hin by (right; right; left).
  split; [exact Hin|].
  apply (report_lists_scanned_files (H := Demo.host) Demo.project _ Demo.project
           ltac:(vm_compute; reflexivity) Scenario.cache Hin).
Defined.

Lemma missing_manifest_is_reported_witness :
  tree (fs Demo.empty_project) !! "package.json" = None /\
  isCompatible Scenario.incompatible_report = false /\
  currentVersion Scenario.incompatible_report = "unknown" /\
  head (issues Scenario.incompatible_report) = Some "No package.json found".
Proof.
  split; [reflexivity|].
  apply (missing_manifest_is_reported (H := Demo.host) Demo.empty_project
           Scenario.incompatible_report Demo.empty_project).
  - reflexivity.
  - vm_compute. reflexivity.
Defined.

Lemma version_without_triple_is_too_old_witness :
  exists report,
    @Compatibility.analyze Further.host Further.latest_project
      = (Return report, Further.latest_project) /\
    Js.match_version "latest" = None /\
    isCompatible report = false /\
    currentVersion report = "latest" /\
    "Next.js version latest is too old. Need version 14+ for migration to 16."
      ∈ issues report.
Proof.
  eexists. split; [vm_compute; reflexivity|]. split; [reflexivity|].
  apply (version_without_triple_is_too_old (H := Further.host) Further.latest_project
           Further.latest_json_text
           {| dependencies := {[ "next" := "latest" ]}; devDependencies := ∅ |}
           "latest" _ Further.latest_project).
  - vm_compute. reflexivity.
  - vm_compute. reflexivity.
  - vm_compute. reflexivity.
  - discriminate.
  - reflexivity.
  - vm_compute. reflexivity.
Defined.

Lemma migrateCommand_on_old_runtime_witness :
  Compatibility.number_lt (@node_major Further.old_node_host) 20 = true /\
  snd (@Migrate.migrateCommand Further.old_node_host Scenario.options Demo.project)
    = Demo.project.
Proof.
  assert (Compatibility.number_lt (@node_major Further.old_node_host) 20 = true) as Hnode
    by reflexivity.
  split; [exact Hnode|].
  apply (migrateCommand_on_old_runtime (H := Further.old_node_host) Scenario.options
           Demo.project Hnode).
Defined.

(** ** Version strings *)







(** ** Detection and the registry of rules *)

Section Registry.
Context `{Host}.

Lemma detect_sublist filePath content :
  Compatibility.detect filePath content
    `sublist_of` map fst Engine.initializeTransformations.
Proof.
  change (map fst Engine.initializeTransformations)
    with ["middleware-to-proxy"; "update-revalidate-tag"; "add-cache-life-profile";
          "update-next-image"; "make-params-async"; "make-search-params-async";
          "make-cookies-headers-async"].
  unfold Compatibility.detect, Compatibility.push_if. rewrite andb_negb_r.
  repeat match goal with
         | |- context [if ?c then _ else _] => destruct c
         end;
    cbn [app];
    repeat first [apply sublist_nil | apply sublist_skip | apply sublist_cons].
Qed.

Lemma registry_NoDup : NoDup (map fst Engine.initializeTransformations).
Proof.
  change (map fst Engine.initializeTransformations)
    with ["middleware-to-proxy"; "update-revalidate-tag"; "add-cache-life-profile";
          "update-next-image"; "make-params-async"; "make-search-params-async";
          "make-cookies-headers-async"].
  apply (bool_decide_unpack _). vm_compute. exact I.
Qed.

Lemma registered_tag tag :
  tag ∈ map fst Engine.initializeTransformations ->
  is_Some (Engine.lookup_entry tag Engine.initializeTransformations) /\
  is_Some (Engine.lookup_entry tag Engine.descriptions).
Proof.
  change (map fst Engine.initializeTransformations)
    with ["middleware-to-proxy"; "update-revalidate-tag"; "add-cache-life-profile";
          "update-next-image"; "make-params-async"; "make-search-params-async";
          "make-cookies-headers-async"].
  intros Hin.
  repeat (apply elem_of_cons in Hin as [->|Hin]; [split; eexists; reflexivity|]).
  now apply elem_of_nil in Hin.
Qed.


(** X8: The tags [analyzeFile] gives a file follow the order in which
    [initializeTransformations] registers the rules, none occurs twice,
    and each of them has a rule in the registry and a description: the
    loop of [transformFile] skips no detected tag for want of a rule, and
    [getTransformationDescription] never falls back to the tag itself. *)
Theorem detect_follows_registry (filePath content : string) :
  Compatibility.detect filePath content
    `sublist_of` map fst Engine.initializeTransformations /\
  NoDup (Compatibility.detect filePath content) /\
  forall tag, tag ∈ Compatibility.detect filePath content ->
    is_Some (Engine.lookup_entry tag Engine.initializeTransformations) /\
    exists text,
      Engine.lookup_entry tag Engine.descriptions = Some text /\
      Engine.getTransformationDescription tag = text.
Proof.
  split; [apply detect_sublist|]. split.
  - eapply sublist_NoDup; [apply registry_NoDup|apply detect_sublist].
  - intros tag Hin.
    destruct (registered_tag tag) as [Hrule [text Htext]].
    { eapply elem_of_sublist; [exact Hin|apply detect_sublist]. }
    split; [exact Hrule|]. exists text. split; [exact Htext|].
    unfold Engine.getTransformationDescription. now rewrite Htext.
Qed.

End Registry.

(** ** The batch of [migrate] *)

Section Batch.
Context `{Host}.

(** When every tag has a rule and no rule throws, every tag is invoked. *)
Lemma run_rules_all_invoked filePath tags text final invoked :
  Forall (fun tag => is_Some (Engine.lookup_entry tag Engine.initializeTransformations)) tags ->
  run_rules filePath tags text = (Return final, invoked) ->
  invoked = tags.
Proof.
  revert text invoked. induction tags as [|tag rest IH]; intros text invoked Hreg Hrun.
  - simpl in Hrun. now injection Hrun as _ <-.
  - apply Forall_cons in Hreg as [[rule Hrule] Hreg].
    cbn [run_rules] in Hrun. rewrite Hrule in Hrun.
    destruct (rule _) as [text'|message]; [|discriminate].
    destruct (run_rules filePath rest text') as [outcome invoked'] eqn:E.
    injection Hrun as -> <-. f_equal. eapply IH; [exact Hreg|exact E].
Qed.

(** What [transformFile] returns are the changes of the rules it invoked. *)
Lemma transformFile_changes (f : FileToTransform) w fileResult w' :
  Engine.transformFile f w = (Return fileResult, w') ->
  exists text final invoked,
    tree (fs w) !! path f = Some (File text) /\
    run_rules (path f) (transformations f) text = (Return final, invoked) /\
    fileResult = map (Engine.transformation_change (path f)) invoked.
Proof.
  rewrite transformFile_spec.
  destruct (tree (fs w) !! path f) as [[text|]|]; try discriminate.
  destruct (run_rules (path f) (transformations f) text) as [[final|message] invoked] eqn:E;
    [|discriminate].
  intros [= <- _]. eauto 10.
Qed.

(** The loop of [migrate], with its counters and lists. *)
Lemma migrateFiles_accounting files result w :
  exists final w' errs chs,
    Engine.migrateFiles files result w = (Return final, w') /\
    (successful final + length errs = successful result + length files)%nat /\
    failed final = (failed result + length errs)%nat /\
    errors final = errors result ++ errs /\
    map error_file errs `sublist_of` map path files /\
    changes final = changes result ++ chs /\
    Forall (fun c => change_type c = Transformation /\ change_file c ∈ map path files) chs /\
    (Forall (fun f => Forall (fun tag => is_Some (Engine.lookup_entry tag
                                                   Engine.initializeTransformations))
                        (transformations f)) files ->
     errs = [] ->
     chs = flat_map (fun file => map (Engine.transformation_change (path file))
                                   (transformations file)) files).
Proof.
  revert result w. induction files as [|f files IH]; intros result w.
  - exists result, w, [], []. simpl. rewrite !app_nil_r.
    repeat split; try lia; constructor.
  - unfold Engine.migrateFiles. cbn [for_of_with]. unfold bind at 1.
    rewrite migrateFile_spec.
    destruct (Engine.transformFile f w) as [[fileResult|message] w1] eqn:E.
    + destruct (transformFile_changes _ _ _ _ E) as (text & final0 & invoked & _ & Hrules & ->).
      destruct (IH {| successful := S (successful result); failed := failed result;
                      changes := changes result
                                 ++ map (Engine.transformation_change (path f)) invoked;
                      errors := errors result |} w1)
        as (final & w' & errs & chs & Hrun & Hcount & Hfailed & Herrors & Hfiles & Hchanges
            & Hchs & Hpreview).
      exists final, w', errs, (map (Engine.transformation_change (path f)) invoked ++ chs).
      cbn [successful failed changes errors] in *.
      split; [exact Hrun|]. split; [cbn [length]; lia|]. split; [exact Hfailed|].
      split; [exact Herrors|]. split; [cbn [map]; now apply sublist_cons|].
      split; [now rewrite Hchanges, <- app_assoc|]. split.
      * apply Forall_app. split.
        -- apply Forall_forall. intros c (tag & <- & _)%list_elem_of_In%in_map_iff.
           split; [reflexivity|]. cbn. left.
        -- eapply Forall_impl; [exact Hchs|]. intros c [Ht Hc]. split; [exact Ht|].
           cbn [map]. now right.
      * intros Hreg Herrs. apply Forall_cons in Hreg as [Hf Hreg].
        cbn [flat_map]. rewrite (Hpreview Hreg Herrs).
        now rewrite (run_rules_all_invoked _ _ _ _ _ Hf Hrules).
    + destruct (IH {| successful := successful result; failed := S (failed result);
                      changes := changes result;
                      errors := errors result ++
                                [{| error_file := path f; error_message := message |}] |} w1)
        as (final & w' & errs & chs & Hrun & Hcount & Hfailed & Herrors & Hfiles & Hchanges
            & Hchs & Hpreview).
      exists final, w', ({| error_file := path f; error_message := message |} :: errs), chs.
      cbn [successful failed changes errors] in *.
      split; [exact Hrun|]. split; [cbn [length]; lia|]. split; [cbn [length]; lia|].
      split; [now rewrite Herrors, <- app_assoc|].
      split; [cbn [map error_file]; now apply sublist_skip|].
      split; [exact Hchanges|]. split.
      * eapply Forall_impl; [exact Hchs|]. intros c [Ht Hc]. split; [exact Ht|].
        cbn [map]. now right.
      * intros _ [=].
Qed.


(** X9: [migrate] throws only what [analyze] throws, and then nothing was
    touched.  Otherwise it returns, whatever happens to the single files:
    every record of the report is counted once, as a success or as a
    failure; there is one error per failure, and the errors name files of
    the report in the order of the report; every change is of type
    'transformation' and names a file of the report. *)
Theorem migrate_counts_every_file (w : World) :
  match Compatibility.analyze w with
  | (Throw message, _) => Engine.migrate w = (Throw message, w)
  | (Return report, _) =>
      exists result w',
        Engine.migrate w = (Return result, w') /\
        (successful result + failed result = length (filesToTransform report))%nat /\
        length (errors result) = failed result /\
        map error_file (errors result) `sublist_of` map path (filesToTransform report) /\
        Forall (fun c => change_type c = Transformation /\
                         change_file c ∈ map path (filesToTransform report))
          (changes result)
  end.
Proof.
  pose proof (analyze_world w) as Hw. unfold Engine.migrate, bind.
  destruct (Compatibility.analyze w) as [[report|message] w0]; simpl in Hw; subst w0;
    [|reflexivity].
  destruct (migrateFiles_accounting (filesToTransform report)
              {| successful := 0; failed := 0; changes := []; errors := [] |} w)
    as (final & w' & errs & chs & Hrun & Hcount & Hfailed & Herrors & Hfiles & Hchanges
        & Hchs & _).
  cbn [successful failed changes errors app] in *.
  exists final, w'. split; [exact Hrun|]. rewrite Hfailed, Herrors, Hchanges.
  cbn [Nat.add]. repeat split; [lia|exact Hfiles|exact Hchs].
Qed.


Lemma transformFile_keeps_paths (f : FileToTransform) w file :
  is_Some (tree (fs (snd (Engine.transformFile f w))) !! file)
  <-> is_Some (tree (fs w) !! file).
Proof.
  rewrite transformFile_spec.
  destruct (tree (fs w) !! path f) as [[text|]|] eqn:E; try reflexivity.
  destruct (run_rules (path f) (transformations f) text) as [[final|message] invoked];
    [|reflexivity].
  destruct (String.eqb final text); [reflexivity|]. cbn.
  destruct (decide (file = path f)) as [->|Hne].
  - rewrite lookup_insert_eq, E. split; eauto.
  - now rewrite lookup_insert_ne.
Qed.

Lemma migrateFiles_keeps_paths files result w file :
  is_Some (tree (fs (snd (Engine.migrateFiles files result w))) !! file)
  <-> is_Some (tree (fs w) !! file).
Proof.
  revert result w. induction files as [|f files IH]; intros result w; [reflexivity|].
  unfold Engine.migrateFiles. cbn [for_of_with]. unfold bind.
  pose proof (migrateFile_world f result w) as Hw.
  pose proof (migrateFile_spec f result w) as Hspec.
  destruct (Engine.migrateFile f result w) as [[result1|message] w1].
  - fold (Engine.migrateFiles files result1 w1). rewrite IH.
    simpl in Hw. rewrite Hw. apply transformFile_keeps_paths.
  - destruct (Engine.transformFile f w) as [[?|?] ?]; discriminate.
Qed.

(** X11: [migrate] writes to no file other than matches of the scanner's
    patterns, creates and deletes none (middleware.ts is rewritten where
    it is, no proxy.ts appears), leaves the backup catalog and the backup
    directories alone, and performs no effect other than invoking a rule
    and writing a file. *)
Theorem migrate_is_confined (w : World) :
  let w' := snd (Engine.migrate w) in
  metadata (fs w') = metadata (fs w) /\
  backupDirs (fs w') = backupDirs (fs w) /\
  (forall file, is_Some (tree (fs w') !! file) <-> is_Some (tree (fs w) !! file)) /\
  (forall file,
     (forall pattern, pattern ∈ Compatibility.patterns -> file ∉ glob pattern (fs w)) ->
     tree (fs w') !! file = tree (fs w) !! file) /\
  exists events,
    trace w' = trace w ++ events /\
    Forall (fun e => match e with
                     | EvRewrite _ _ | EvWriteFile _ _ => True
                     | _ => False
                     end) events.
Proof.
  unfold Engine.migrate, bind.
  destruct (Compatibility.analyze w) as [[report|message] w0] eqn:E.
  - destruct (analyze_phases _ _ _ E) as (-> & _ & _ & _ & _ & _ & _ & Hlisted).
    set (start := {| successful := 0; failed := 0; changes := []; errors := [] |}).
    destruct (migrateFiles_effects (filesToTransform report) start w)
      as (events & Htrace & Hevents & Hmeta & Hdirs & Htree).
    cbv zeta. split; [exact Hmeta|]. split; [exact Hdirs|].
    split; [intros file; apply migrateFiles_keeps_paths|]. split.
    + intros file Hfile. apply Htree.
      intros (f & <- & Hf%list_elem_of_In)%list_elem_of_In%in_map_iff.
      rewrite Forall_forall in Hlisted.
      destruct (Hlisted f Hf) as (pattern & content & Hpattern & Hglob & _).
      exact (Hfile pattern Hpattern Hglob).
    + exists events. split; [exact Htrace|].
      eapply Forall_impl; [exact Hevents|]. now intros [].
  - pose proof (analyze_world w) as Hw. rewrite E in Hw. simpl in Hw. subst w0.
    cbn. repeat split; auto. exists []. now rewrite app_nil_r.
Qed.

End Batch.


(** ** Backup directories and restoring from them *)

Section BackupFiles.
Context `{Host}.

Lemma backup_path_not_backupDir backupId : backup_path backupId <> BackupManager.backupDir.
Proof. unfold backup_path, BackupManager.backupDir. cbn. intros [=]. Qed.

(** The loop of [createFilesBackup], when it completes: every file of the
    list that exists was copied, nothing else changed. *)
Lemma createFilesBackup_loop dir files w w' :
  for_of files
    (fun file => found <- Fs.pathExists file ;;
                 if found then Fs.copy_to_backup file dir else ret tt)%async w
  = (Return tt, w') ->
  tree (fs w') = tree (fs w) /\
  metadata (fs w') = metadata (fs w) /\
  (forall d, d <> dir -> backupDirs (fs w') !! d = backupDirs (fs w) !! d) /\
  (is_Some (backupDirs (fs w) !! dir) -> is_Some (backupDirs (fs w') !! dir)) /\
  (forall file, file ∈ files -> tree (fs w) !! file <> Some Unreadable) /\
  (forall file content,
     file ∈ files -> tree (fs w) !! file = Some (File content) ->
     default ∅ (backupDirs (fs w') !! dir) !! file = Some (File content)) /\
  (forall file,
     file ∉ files \/ tree (fs w) !! file = None ->
     default ∅ (backupDirs (fs w') !! dir) !! file
     = default ∅ (backupDirs (fs w) !! dir) !! file).
Proof.
  revert w. induction files as [|x files IH]; intros w.
  - cbn [for_of]. unfold ret. intros [= <-]. repeat split; auto.
    + intros file []%elem_of_nil.
    + intros file content []%elem_of_nil.
  - cbn [for_of]. unfold bind at 1. unfold bind at 1, Fs.pathExists.
    destruct (tree (fs w) !! x) as [[content|]|] eqn:E.
    + rewrite bool_decide_eq_true_2 by eauto. unfold Fs.copy_to_backup. rewrite E.
      intros Hrun. apply IH in Hrun as (Htree & Hmeta & Hother & Hsome & Hreadable & Hcopied & Hrest).
      cbn [fs tree metadata backupDirs] in *.
      split; [exact Htree|]. split; [exact Hmeta|]. split.
      { intros d Hd. rewrite Hother by exact Hd. now rewrite lookup_insert_ne. }
      split.
      { intros _. apply Hsome. rewrite lookup_insert_eq. eauto. }
      split.
      { intros file [->|Hin]%elem_of_cons; [rewrite E; discriminate|now apply Hreadable]. }
      rewrite lookup_insert_eq in Hrest. cbv beta iota delta [default from_option Datatypes.id] in Hrest.
      split.
      * intros file c Hin Hfile. destruct (decide (file ∈ files)) as [Hfiles|Hfiles].
        -- now apply Hcopied.
        -- apply elem_of_cons in Hin as [->|Hin]; [|contradiction].
           rewrite Hrest by now left. rewrite lookup_insert_eq. congruence.
      * intros file Hfile.
        assert (file <> x) as Hne.
        { intros ->. destruct Hfile as [Hfile|Hfile]; [apply Hfile; left|congruence]. }
        rewrite Hrest.
        -- now rewrite lookup_insert_ne.
        -- destruct Hfile as [Hfile|Hfile]; [left|now right].
           intros Hin. apply Hfile. now right.
    + rewrite bool_decide_eq_true_2 by eauto. unfold Fs.copy_to_backup. rewrite E.
      discriminate.
    + rewrite bool_decide_eq_false_2 by (intros [? ?]; discriminate). unfold ret.
      intros Hrun. apply IH in Hrun as (Htree & Hmeta & Hother & Hsome & Hreadable & Hcopied & Hrest).
      split; [exact Htree|]. split; [exact Hmeta|]. split; [exact Hother|].
      split; [exact Hsome|]. split.
      { intros file [->|Hin]%elem_of_cons; [rewrite E; discriminate|now apply Hreadable]. }
      split.
      * intros file c [->|Hin]%elem_of_cons Hfile; [congruence|now apply Hcopied].
      * intros file Hfile. apply Hrest.
        destruct (decide (file = x)) as [->|Hne]; [now right|].
        destruct Hfile as [Hfile|Hfile]; [left|now right].
        intros Hin. apply Hfile. now right.
Qed.

(** What [createFilesBackup] leaves behind when it returns. *)
Lemma createFilesBackup_contents backupId w dir w' :
  BackupManager.createFilesBackup backupId w = (Return dir, w') ->
  dir = backup_path backupId /\
  tree (fs w') = tree (fs w) /\
  metadata (fs w') = metadata (fs w) /\
  (forall d, d <> dir -> backupDirs (fs w') !! d = backupDirs (fs w) !! d) /\
  (forall file, file ∈ BackupManager.filesToBackup ->
     tree (fs w) !! file <> Some Unreadable) /\
  exists copies,
    backupDirs (fs w') !! dir = Some copies /\
    (forall file content,
       file ∈ BackupManager.filesToBackup ->
       tree (fs w) !! file = Some (File content) ->
       copies !! file = Some (File content)) /\
    (forall file,
       file ∉ BackupManager.filesToBackup \/ tree (fs w) !! file = None ->
       copies !! file = default ∅ (backupDirs (fs w) !! dir) !! file).
Proof.
  unfold BackupManager.createFilesBackup, bind at 1. fold (backup_path backupId).
  destruct (Fs.ensureDir (backup_path backupId) w) as [[[]|m] w1] eqn:E1; [|discriminate].
  unfold Fs.ensureDir in E1. injection E1 as E1.
  unfold bind at 1.
  destruct (for_of _ _ w1) as [[[]|m] w2] eqn:E2; [|discriminate].
  unfold ret. intros [= <- <-].
  apply createFilesBackup_loop in E2
    as (Htree & Hmeta & Hother & Hsome & Hreadable & Hcopied & Hrest).
  rewrite <- E1 in *. cbn [fs tree metadata backupDirs] in *.
  split; [reflexivity|]. split; [exact Htree|]. split; [exact Hmeta|]. split.
  { intros d Hd. rewrite Hother by exact Hd.
    destruct (backupDirs (fs w) !! backup_path backupId); [reflexivity|].
    now rewrite lookup_insert_ne. }
  split; [exact Hreadable|].
  destruct Hsome as [copies Hcopies].
  { destruct (backupDirs (fs w) !! backup_path backupId) eqn:E; [rewrite E; eauto|].
    rewrite lookup_insert_eq. eauto. }
  exists copies. rewrite Hcopies in *.
  cbv beta iota delta [default from_option Datatypes.id] in Hcopied, Hrest.
  split; [reflexivity|]. split; [exact Hcopied|].
  intros file Hfile. rewrite (Hrest file Hfile).
  destruct (backupDirs (fs w) !! backup_path backupId) eqn:E; [now rewrite E|].
  now rewrite lookup_insert_eq.
Qed.

(** X12: The directory of a backup that did not exist before holds a copy of
    each file of the allowlist that exists, under its own name, and
    nothing else; taking the copies changes neither the project files, nor
    the catalog, nor any other backup directory.  [createFilesBackup]
    returns only if none of the allowlisted files is unreadable. *)
Theorem fresh_backup_directory_holds_the_allowlist
    (backupId : string) (w : World) (dir : string) (w' : World) :
  backupDirs (fs w) !! backup_path backupId = None ->
  BackupManager.createFilesBackup backupId w = (Return dir, w') ->
  dir = backup_path backupId /\
  tree (fs w') = tree (fs w) /\
  metadata (fs w') = metadata (fs w) /\
  (forall d, d <> dir -> backupDirs (fs w') !! d = backupDirs (fs w) !! d) /\
  exists copies,
    backupDirs (fs w') !! dir = Some copies /\
    forall file,
      copies !! file
      = if bool_decide (file ∈ BackupManager.filesToBackup)
        then tree (fs w) !! file else None.
Proof.
  intros Hfresh Hrun.
  apply createFilesBackup_contents in Hrun
    as (-> & Htree & Hmeta & Hother & Hreadable & copies & Hdir & Hcopied & Hrest).
  rewrite Hfresh in Hrest. cbv beta iota delta [default from_option Datatypes.id] in Hrest.
  split; [reflexivity|]. split; [exact Htree|]. split; [exact Hmeta|].
  split; [exact Hother|]. exists copies. split; [exact Hdir|].
  intros file. destruct (decide (file ∈ BackupManager.filesToBackup)) as [Hin|Hout].
  - rewrite bool_decide_eq_true_2 by exact Hin.
    destruct (tree (fs w) !! file) as [[content|]|] eqn:E.
    + now apply Hcopied.
    + now destruct (Hreadable file Hin).
    + rewrite Hrest by now right. apply lookup_empty.
  - rewrite bool_decide_eq_false_2 by exact Hout.
    rewrite Hrest by now left. apply lookup_empty.
Qed.

End BackupFiles.

Section Restore.
Context `{Host}.

Lemma createGitBackup_no_repository backupId w :
  no_repository ->
  BackupManager.createGitBackup backupId w = (Return None, add_trace w [EvGit GitCheckIsRepo]).
Proof.
  intros Hgit. unfold BackupManager.createGitBackup, try_catch, bind at 1.
  unfold BackupManager.git, bind, emit, ask. cbn [fst snd]. now rewrite Hgit.
Qed.

(** What [createBackup] leaves behind when it returns. *)
Lemma createBackup_spec w backupId w' :
  BackupManager.createBackup w = (Return backupId, w') ->
  backupId = "backup-" +:+ pretty (Date_now w) /\
  tree (fs w') = tree (fs w) /\
  (forall d, d <> backup_path backupId -> d <> BackupManager.backupDir ->
     backupDirs (fs w') !! d = backupDirs (fs w) !! d) /\
  (forall file, file ∈ BackupManager.filesToBackup ->
     tree (fs w) !! file <> Some Unreadable) /\
  (exists backup,
     id backup = backupId /\
     filesBackup backup = Some (backup_path backupId) /\
     (no_repository -> gitCommit backup = None) /\
     metadata (fs w') = Some (take 10 (backup :: catalog w))) /\
  exists copies,
    backupDirs (fs w') !! backup_path backupId = Some copies /\
    (forall file content,
       file ∈ BackupManager.filesToBackup ->
       tree (fs w) !! file = Some (File content) ->
       copies !! file = Some (File content)) /\
    (forall file,
       file ∉ BackupManager.filesToBackup \/ tree (fs w) !! file = None ->
       copies !! file = default ∅ (backupDirs (fs w) !! backup_path backupId) !! file).
Proof.
  unfold BackupManager.createBackup, bind at 1, get_world.
  set (backupId0 := "backup-" +:+ pretty (Date_now w)).
  unfold bind at 1.
  destruct (Fs.ensureDir BackupManager.backupDir w) as [[[]|m] w1] eqn:E1; [|discriminate].
  unfold Fs.ensureDir in E1. injection E1 as E1.
  unfold bind at 1.
  pose proof (keeps_createGitBackup (fun files => files) backupId0 w1) as H2.
  destruct (BackupManager.createGitBackup backupId0 w1) as [[commit|m] w2] eqn:E2;
    [|discriminate].
  cbn [snd] in H2.
  unfold bind at 1.
  destruct (BackupManager.createFilesBackup backupId0 w2) as [[dir|m] w3] eqn:E3;
    [|discriminate].
  apply createFilesBackup_contents in E3
    as (-> & Htree & Hmeta & Hother & Hreadable & copies & Hdir & Hcopied & Hrest).
  unfold bind at 1. rewrite saveBackupMetadata_spec. unfold ret.
  intros [= <- <-]. cbn [fs tree metadata backupDirs].
  rewrite H2 in *. rewrite <- E1 in *. cbn [fs tree metadata backupDirs] in *.
  assert (forall d, d <> BackupManager.backupDir ->
            match backupDirs (fs w) !! BackupManager.backupDir with
            | Some _ => backupDirs (fs w)
            | None => <[BackupManager.backupDir := ∅]> (backupDirs (fs w))
            end !! d = backupDirs (fs w) !! d) as Hroot.
  { intros d Hd. destruct (backupDirs (fs w) !! BackupManager.backupDir); [reflexivity|].
    now rewrite lookup_insert_ne. }
  split; [reflexivity|]. split; [exact Htree|]. split.
  { intros d Hd Hd'. rewrite Hother by exact Hd. now apply Hroot. }
  split; [exact Hreadable|]. split.
  { eexists (Build_Backup _ _ _ _ _). cbn [id filesBackup gitCommit].
    split; [reflexivity|]. split; [reflexivity|]. split.
    - intros Hgit. rewrite createGitBackup_no_repository in E2 by exact Hgit.
      now injection E2 as <- _.
    - unfold catalog. cbn [fs metadata]. now rewrite Hmeta. }
  exists copies. split; [exact Hdir|]. split; [exact Hcopied|].
  intros file Hfile. rewrite (Hrest file Hfile).
  now rewrite Hroot by apply backup_path_not_backupDir.
Qed.

(** The loop of [restoreBackup] over the files of a backup directory. *)
Lemma restore_loop dir copies files w :
  backupDirs (fs w) !! dir = Some copies ->
  (forall file, file ∈ files -> exists content, copies !! file = Some (File content)) ->
  exists w',
    for_of files (fun file => Fs.copy_from_backup dir file) w = (Return tt, w') /\
    metadata (fs w') = metadata (fs w) /\
    backupDirs (fs w') = backupDirs (fs w) /\
    forall file,
      tree (fs w') !! file
      = if bool_decide (file ∈ files) then copies !! file else tree (fs w) !! file.
Proof.
  revert w. induction files as [|x files IH]; intros w Hdir Hfiles.
  - exists w. cbn [for_of]. do 3 (split; [reflexivity|]). intros file.
    rewrite bool_decide_eq_false_2; [reflexivity|]. apply not_elem_of_nil.
  - destruct (Hfiles x) as [content Hx]; [left|].
    cbn [for_of]. unfold bind at 1, Fs.copy_from_backup at 1.
    rewrite Hdir. cbn [mbind option_bind]. rewrite Hx.
    match goal with
    | |- context [for_of files _ ?w0] =>
        destruct (IH w0) as (w' & Hrun & Hmeta & Hdirs & Htree)
    end.
    { exact Hdir. }
    { intros file Hin. apply Hfiles. now right. }
    exists w'. rewrite Hrun, Hmeta, Hdirs. cbn [fs metadata backupDirs].
    do 3 (split; [reflexivity|]). intros file. rewrite Htree. cbn [fs tree].
    destruct (decide (file ∈ files)) as [Hin|Hout].
    + rewrite !bool_decide_eq_true_2; [reflexivity|now right|exact Hin].
    + rewrite (bool_decide_eq_false_2 _ Hout).
      destruct (decide (file = x)) as [->|Hne].
      * rewrite bool_decide_eq_true_2 by left. now rewrite lookup_insert_eq.
      * rewrite bool_decide_eq_false_2.
        -- now rewrite lookup_insert_ne.
        -- intros [?|?]%elem_of_cons; contradiction.
Qed.

Lemma elem_of_readdir (copies : gmap string Entry) file :
  file ∈ map fst (map_to_list copies) <-> is_Some (copies !! file).
Proof.
  rewrite list_elem_of_In, in_map_iff. split.
  - intros ([name entry] & <- & Hin%list_elem_of_In%elem_of_map_to_list). eauto.
  - intros [entry Hentry]. exists (file, entry). split; [reflexivity|].
    now apply list_elem_of_In, elem_of_map_to_list.
Qed.

(** [restoreBackup] for an entry without a commit, whose directory holds
    readable copies: each copy is put back under its name, every other
    file stays. *)
Lemma restoreBackup_from_files backupId backup dir copies w :
  List.find (fun b => String.eqb (id b) backupId) (catalog w) = Some backup ->
  gitCommit backup = None ->
  filesBackup backup = Some dir ->
  dir <> "" ->
  backupDirs (fs w) !! dir = Some copies ->
  (forall file, copies !! file <> Some Unreadable) ->
  exists w',
    BackupManager.restoreBackup backupId w = (Return tt, w') /\
    metadata (fs w') = metadata (fs w) /\
    backupDirs (fs w') = backupDirs (fs w) /\
    forall file,
      tree (fs w') !! file
      = match copies !! file with
        | Some entry => Some entry
        | None => tree (fs w) !! file
        end.
Proof.
  intros Hfind Hgit Hfiles Hdir Hcopies Hreadable.
  unfold BackupManager.restoreBackup, bind at 1. rewrite listBackups_spec, Hfind, Hgit, Hfiles.
  unfold bind at 1, ret at 1.
  assert (Js.truthy (Some dir) = true) as ->.
  { cbn. destruct (String.eqb_spec dir ""); [contradiction|reflexivity]. }
  unfold bind at 1, Fs.dirExists. rewrite bool_decide_eq_true_2 by (rewrite Hcopies; eauto).
  unfold bind at 1, Fs.readdir. rewrite Hcopies.
  destruct (restore_loop dir copies (map fst (map_to_list copies)) w Hcopies)
    as (w' & Hrun & Hmeta & Hdirs & Htree).
  { intros file [entry Hentry]%elem_of_readdir.
    destruct entry as [content|]; [eauto|]. now destruct (Hreadable file). }
  exists w'. split; [exact Hrun|]. split; [exact Hmeta|]. split; [exact Hdirs|].
  intros file. rewrite Htree.
  destruct (copies !! file) as [entry|] eqn:E.
  - rewrite bool_decide_eq_true_2; [reflexivity|]. apply elem_of_readdir. eauto.
  - rewrite bool_decide_eq_false_2; [reflexivity|].
    intros [entry Hentry]%elem_of_readdir. congruence.
Qed.

(** X13: Backup, then anything that leaves the catalog and the backup
    directories alone, then restore, in a project without a repository
    and with a backup directory that is new: the restore returns; every
    file of the allowlist that existed when the backup was taken has the
    text it had then; and every other path -- the source files the
    migration rewrote, and allowlisted files that were created after the
    backup -- is as it was before the restore. *)
Theorem restoreBackup_restores_the_allowlist
    (w0 : World) (backupId : string) (w1 w2 : World) :
  no_repository ->
  BackupManager.createBackup w0 = (Return backupId, w1) ->
  backupDirs (fs w0) !! backup_path backupId = None ->
  metadata (fs w2) = metadata (fs w1) ->
  backupDirs (fs w2) = backupDirs (fs w1) ->
  exists w3,
    BackupManager.restoreBackup backupId w2 = (Return tt, w3) /\
    (forall file,
       file ∈ BackupManager.filesToBackup -> is_Some (tree (fs w0) !! file) ->
       tree (fs w3) !! file = tree (fs w0) !! file) /\
    (forall file,
       file ∉ BackupManager.filesToBackup \/ tree (fs w0) !! file = None ->
       tree (fs w3) !! file = tree (fs w2) !! file).
Proof.
  intros Hgit Hbackup Hfresh Hmeta Hdirs.
  apply createBackup_spec in Hbackup
    as (_ & _ & _ & Hreadable & (backup & Hid & Hfiles & Hcommit & Hcatalog)
        & copies & Hdir & Hcopied & Hrest).
  rewrite Hfresh in Hrest. cbv beta iota delta [default from_option Datatypes.id] in Hrest.
  destruct (restoreBackup_from_files backupId backup (backup_path backupId) copies w2)
    as (w3 & Hrun & _ & _ & Htree).
  - unfold catalog. rewrite Hmeta, Hcatalog. cbn [default from_option Datatypes.id take List.find].
    rewrite Hid, String.eqb_refl. reflexivity.
  - now apply Hcommit.
  - exact Hfiles.
  - unfold backup_path, BackupManager.backupDir. cbn. discriminate.
  - now rewrite Hdirs.
  - intros file Hfile.
    destruct (decide (file ∈ BackupManager.filesToBackup)) as [Hin|Hout].
    + destruct (tree (fs w0) !! file) as [[content|]|] eqn:E.
      * rewrite (Hcopied file content Hin E) in Hfile. discriminate.
      * now destruct (Hreadable file Hin).
      * rewrite Hrest in Hfile by now right. now rewrite lookup_empty in Hfile.
    + rewrite Hrest in Hfile by now left. now rewrite lookup_empty in Hfile.
  - exists w3. split; [exact Hrun|]. split.
    + intros file Hin [entry Hentry]. rewrite Htree, Hentry.
      destruct entry as [content|]; [|now destruct (Hreadable file Hin)].
      now rewrite (Hcopied file content Hin Hentry).
    + intros file Hfile. rewrite Htree, (Hrest file Hfile). now rewrite lookup_empty.
Qed.




End Restore.

Lemma fresh_backup_directory_holds_the_allowlist_witness :
  let run := BackupManager.createFilesBackup "backup-1" Demo.project in
  backupDirs (fs Demo.project) !! backup_path "backup-1" = None /\
  fst run = Return (backup_path "backup-1") /\
  exists copies,
    backupDirs (fs (snd run)) !! backup_path "backup-1" = Some copies /\
    forall file,
      copies !! file
      = if bool_decide (file ∈ BackupManager.filesToBackup)
        then tree (fs Demo.project) !! file else None.
Proof.
  intros run. split; [reflexivity|]. split; [vm_compute; reflexivity|].
  destruct (fresh_backup_directory_holds_the_allowlist
              "backup-1" Demo.project (backup_path "backup-1") (snd run))
    as (_ & _ & _ & _ & Hcopies).
  - reflexivity.
  - vm_compute. reflexivity.
  - exact Hcopies.
Defined.

Lemma restoreBackup_restores_the_allowlist_witness :
  exists w3,
    @BackupManager.restoreBackup Further.host "backup-1700000000000" Replay.migrated
      = (Return tt, w3) /\
    tree (fs Replay.migrated) !! "middleware.ts" <> tree (fs Demo.project) !! "middleware.ts" /\
    tree (fs w3) !! "middleware.ts" = tree (fs Demo.project) !! "middleware.ts" /\
    tree (fs Replay.migrated) !! "app/page.tsx" <> tree (fs Demo.project) !! "app/page.tsx" /\
    tree (fs w3) !! "app/page.tsx" = tree (fs Replay.migrated) !! "app/page.tsx".
Proof.
  destruct (restoreBackup_restores_the_allowlist (H := Further.host)
              Demo.project "backup-1700000000000" Replay.backed_up Replay.migrated)
    as (w3 & Hrun & Hin & Hout).
  - intros w. reflexivity.
  - vm_compute. reflexivity.
  - reflexivity.
  - vm_compute. reflexivity.
  - vm_compute. reflexivity.
  - exists w3. split; [exact Hrun|]. split; [vm_compute; discriminate|]. split.
    + apply Hin.
      * apply (bool_decide_unpack _). vm_compute. exact I.
      * eexists. vm_compute. reflexivity.
    + split; [vm_compute; discriminate|].
      apply Hout. left. apply (bool_decide_unpack _). vm_compute. exact I.
Defined.

(** ** The trace of effects *)

Section Traces.
Context `{Host} (P : Event -> Prop).

Lemma emits_same_world {A} (c : Async A) : (forall w, snd (c w) = w) -> emits P c.
Proof.
  intros Hc w. exists []. rewrite Hc, app_nil_r. split; [reflexivity|constructor].
Qed.

Lemma emits_ret {A} (a : A) : emits P (ret a).
Proof. now apply emits_same_world. Qed.

Lemma emits_throw {A} message : emits P (@throw A message).
Proof. now apply emits_same_world. Qed.

Lemma emits_ask {A} (q : World -> Completion A) : emits P (ask q).
Proof. now apply emits_same_world. Qed.

Lemma emits_emit e : P e -> emits P (emit e).
Proof. intros He w. exists [e]. split; [reflexivity|]. now constructor. Qed.

Lemma emits_bind_value {A B} (c : Async A) (k : A -> Async B) (Q : A -> Prop) :
  emits P c ->
  (forall w a, fst (c w) = Return a -> Q a) ->
  (forall a, Q a -> emits P (k a)) ->
  emits P (bind c k).
Proof.
  intros Hc HQ Hk w. unfold bind. destruct (Hc w) as (ev1 & Ht1 & Hp1).
  specialize (HQ w).
  destruct (c w) as [[a|m] w1]; simpl in *; [|eauto].
  destruct (Hk a (HQ a eq_refl) w1) as (ev2 & Ht2 & Hp2).
  exists (ev1 ++ ev2). rewrite Ht2, Ht1, <- app_assoc. split; [reflexivity|].
  apply Forall_app. now split.
Qed.

Lemma emits_bind {A B} (c : Async A) (k : A -> Async B) :
  emits P c -> (forall a, emits P (k a)) -> emits P (bind c k).
Proof.
  intros Hc Hk. apply emits_bind_value with (Q := fun _ => True); auto.
Qed.

Lemma emits_try_catch {A} (c : Async A) (handler : string -> Async A) :
  emits P c -> (forall m, emits P (handler m)) -> emits P (try_catch c handler).
Proof.
  intros Hc Hh w. unfold try_catch. destruct (Hc w) as (ev1 & Ht1 & Hp1).
  destruct (c w) as [[a|m] w1]; simpl in *; [eauto|].
  destruct (Hh m w1) as (ev2 & Ht2 & Hp2).
  exists (ev1 ++ ev2). rewrite Ht2, Ht1, <- app_assoc. split; [reflexivity|].
  apply Forall_app. now split.
Qed.

Lemma emits_for_of {A} (xs : list A) (body : A -> Async unit) :
  (forall x, emits P (body x)) -> emits P (for_of xs body).
Proof.
  intros Hbody. induction xs as [|x xs IH]; cbn [for_of].
  - apply emits_ret.
  - apply emits_bind; [apply Hbody|]. intros _. exact IH.
Qed.

Lemma emits_git {A} command (answer : World -> Completion A) :
  P (EvGit command) -> emits P (BackupManager.git command answer).
Proof.
  intros Hp. unfold BackupManager.git.
  apply emits_bind; [now apply emits_emit|]. intros _. apply emits_ask.
Qed.

Lemma emits_createGitBackup backupId :
  (forall command, P (EvGit command)) ->
  emits P (BackupManager.createGitBackup backupId).
Proof.
  intros Hp. unfold BackupManager.createGitBackup.
  apply emits_try_catch; [|intros; apply emits_ret].
  apply emits_bind; [apply emits_git, Hp|]. intros isRepo.
  destruct isRepo; cbn [negb]; [|apply emits_ret].
  apply emits_bind; [apply emits_git, Hp|]. intros changed.
  apply emits_bind.
  - destruct (0 <? changed)%nat; [|apply emits_ret].
    apply emits_bind; [apply emits_git, Hp|]. intros _.
    apply emits_bind; [apply emits_git, Hp|]. intros _. apply emits_ret.
  - intros _. apply emits_bind; [apply emits_git, Hp|]. intros _.
    apply emits_bind; [apply emits_git, Hp|]. intros commit. apply emits_ret.
Qed.

Lemma emits_ensureDir dir : P (EvEnsureDir dir) -> emits P (Fs.ensureDir dir).
Proof. intros Hp w. exists [EvEnsureDir dir]. split; [reflexivity|]. now constructor. Qed.

Lemma emits_copy_to_backup file dir :
  (forall src dest, P (EvCopy src dest)) -> emits P (Fs.copy_to_backup file dir).
Proof.
  intros Hp w. exists [EvCopy file (dir +:+ "/" +:+ file)]. unfold Fs.copy_to_backup.
  split; [now destruct (tree (fs w) !! file) as [[?|]|]|]. now constructor.
Qed.

Lemma emits_copy_from_backup dir file :
  (forall src dest, P (EvCopy src dest)) -> emits P (Fs.copy_from_backup dir file).
Proof.
  intros Hp w. exists [EvCopy (dir +:+ "/" +:+ file) file]. unfold Fs.copy_from_backup.
  split; [now destruct (_ ≫= _) as [[?|]|]|]. now constructor.
Qed.

Lemma emits_createFilesBackup backupId :
  (forall dir, P (EvEnsureDir dir)) ->
  (forall src dest, P (EvCopy src dest)) ->
  emits P (BackupManager.createFilesBackup backupId).
Proof.
  intros Hdir Hcopy. unfold BackupManager.createFilesBackup.
  apply emits_bind; [apply emits_ensureDir, Hdir|]. intros _.
  apply emits_bind; [|intros; apply emits_ret].
  apply emits_for_of. intros file.
  apply emits_bind; [now apply emits_same_world|]. intros found.
  destruct found; [now apply emits_copy_to_backup|apply emits_ret].
Qed.

Lemma emits_analyze : emits P Compatibility.analyze.
Proof. apply emits_same_world, analyze_world. Qed.

Lemma emits_previewChanges : emits P Engine.previewChanges.
Proof.
  unfold Engine.previewChanges. apply emits_bind; [apply emits_analyze|].
  intros analysis. apply emits_ret.
Qed.

Lemma emits_confirm message :
  (forall m, P (EvPrompt m)) -> emits P (Migrate.confirm message).
Proof.
  intros Hp. unfold Migrate.confirm.
  apply emits_bind; [apply emits_emit, Hp|]. intros _. apply emits_ask.
Qed.

Lemma emits_performanceAnalyze : P EvBuild -> emits P Migrate.performanceAnalyze.
Proof.
  intros Hp w. exists [EvBuild]. unfold Migrate.performanceAnalyze, bind, emit.
  split; [|now constructor]. now destruct (performance_analyze _).
Qed.

End Traces.

Section Commands.
Context `{Host}.

Lemma not_rewrite_backup_effects :
  (forall command, ~ is_rewrite (EvGit command)) /\
  (forall dir, ~ is_rewrite (EvEnsureDir dir)) /\
  (forall src dest, ~ is_rewrite (EvCopy src dest)) /\
  (forall c, ~ is_rewrite (EvWriteJson c)) /\
  (forall m, ~ is_rewrite (EvPrompt m)).
Proof. repeat split; intros; exact (fun contra => contra). Qed.

Lemma emits_createBackup :
  emits (fun e => ~ is_rewrite e) BackupManager.createBackup.
Proof.
  destruct not_rewrite_backup_effects as (Hgit & Hdir & Hcopy & Hjson & _).
  unfold BackupManager.createBackup.
  apply emits_bind; [now apply emits_same_world|]. intros w0.
  apply emits_bind; [apply emits_ensureDir, Hdir|]. intros _.
  apply emits_bind; [apply emits_createGitBackup, Hgit|]. intros commit.
  apply emits_bind; [now apply emits_createFilesBackup|]. intros dir.
  apply emits_bind; [|intros; apply emits_ret].
  intros w. rewrite saveBackupMetadata_spec. eexists [_]. split; [reflexivity|].
  constructor; [apply Hjson|constructor].
Qed.

(** The last effect of a [createBackup] that returns is the write of the
    catalog. *)
Lemma createBackup_trace w backupId w1 :
  BackupManager.createBackup w = (Return backupId, w1) ->
  exists pre entries,
    trace w1 = trace w ++ pre ++ [EvWriteJson entries] /\
    Forall (fun e => ~ is_rewrite e) pre.
Proof.
  destruct not_rewrite_backup_effects as (Hgit & Hdir & Hcopy & Hjson & _).
  unfold BackupManager.createBackup, bind at 1, get_world.
  set (backupId0 := "backup-" +:+ pretty (Date_now w)).
  unfold bind at 1.
  destruct (emits_ensureDir (fun e => ~ is_rewrite e) BackupManager.backupDir
              (Hdir _) w) as (ev1 & Ht1 & Hp1).
  destruct (Fs.ensureDir BackupManager.backupDir w) as [[[]|m] w2]; [|discriminate].
  unfold bind at 1.
  destruct (emits_createGitBackup (fun e => ~ is_rewrite e) backupId0 Hgit w2)
    as (ev2 & Ht2 & Hp2).
  destruct (BackupManager.createGitBackup backupId0 w2) as [[commit|m] w3]; [|discriminate].
  unfold bind at 1.
  destruct (emits_createFilesBackup (fun e => ~ is_rewrite e) backupId0 Hdir Hcopy w3)
    as (ev3 & Ht3 & Hp3).
  destruct (BackupManager.createFilesBackup backupId0 w3) as [[dir|m] w4]; [|discriminate].
  unfold bind at 1. rewrite saveBackupMetadata_spec. unfold ret. intros [= _ <-].
  cbn [snd trace] in *. exists (ev1 ++ ev2 ++ ev3). eexists.
  rewrite Ht3, Ht2, Ht1, <- !app_assoc. split; [reflexivity|].
  repeat (apply Forall_app; split); assumption.
Qed.

Lemma keeps_tree_createBackup : keeps tree BackupManager.createBackup.
Proof.
  unfold BackupManager.createBackup.
  apply keeps_bind; [now intros w|]. intros w0.
  apply keeps_bind; [now intros w|]. intros _.
  apply keeps_bind; [apply keeps_createGitBackup|]. intros commit.
  apply keeps_bind.
  { apply keeps_createFilesBackup; [apply keeps_tree_copy_to_backup|now intros dir w]. }
  intros dir. apply keeps_bind; [|intros; apply keeps_ret].
  intros w. now rewrite saveBackupMetadata_spec.
Qed.

Lemma keeps_same_world {X A} (part : FileSystem -> X) (c : Async A) :
  (forall w, snd (c w) = w) -> keeps part c.
Proof. intros Hc w. now rewrite Hc. Qed.

Lemma keeps_bind_value {X A B} (part : FileSystem -> X)
    (c : Async A) (k : A -> Async B) (Q : A -> Prop) :
  keeps part c ->
  (forall w a, fst (c w) = Return a -> Q a) ->
  (forall a, Q a -> keeps part (k a)) ->
  keeps part (bind c k).
Proof.
  intros Hc HQ Hk w. unfold bind. specialize (Hc w). specialize (HQ w).
  destruct (c w) as [[a|m] w1]; simpl in *; [|exact Hc].
  now rewrite (Hk a (HQ a eq_refl)).
Qed.

Lemma keeps_confirm {X} (part : FileSystem -> X) message :
  keeps part (Migrate.confirm message).
Proof. now intros w. Qed.

(** When the confirmation is asked for and not given, or the run is a dry
    run, a confirmation stage that says "proceed" leads into the preview. *)
Lemma migrateCommand_go_ahead (options : Migrate.MigrateOptions) :
  (Migrate.flag (Migrate.dryRun options) = true /\
   Migrate.flag (Migrate.performance options) = false) \/
  (Migrate.flag (Migrate.batch options) = false /\
   Migrate.flag (Migrate.yes options) = false /\
   forall message w, prompt_confirm message w <> Return true) ->
  forall message w proceed,
    fst ((if negb (Migrate.flag (Migrate.batch options))
             && negb (Migrate.flag (Migrate.yes options))
          then Migrate.confirm message else ret true) w) = Return proceed ->
    proceed = true ->
    Migrate.flag (Migrate.dryRun options) = true /\
    Migrate.flag (Migrate.performance options) = false.
Proof.
  intros Hquiet message w proceed Hrun ->.
  destruct Hquiet as [Hdry|(Hb & Hy & Hno)]; [exact Hdry|].
  rewrite Hb, Hy in Hrun. cbn in Hrun.
  now destruct (Hno message (add_trace w [EvPrompt message])).
Qed.

Lemma migrateCommand_keeps_tree (options : Migrate.MigrateOptions) :
  (Migrate.flag (Migrate.dryRun options) = true /\
   Migrate.flag (Migrate.performance options) = false) \/
  (Migrate.flag (Migrate.batch options) = false /\
   Migrate.flag (Migrate.yes options) = false /\
   forall message w, prompt_confirm message w <> Return true) ->
  keeps tree (Migrate.migrateCommand options).
Proof.
  intros Hquiet. pose proof (migrateCommand_go_ahead options Hquiet) as Hgo.
  unfold Migrate.migrateCommand.
  apply keeps_bind; [apply keeps_same_world, analyze_world|]. intros analysis.
  destruct (negb (isCompatible analysis)); [apply keeps_ret|].
  apply keeps_bind.
  { destruct (negb (bool_decide _)); [|apply keeps_ret].
    apply keeps_bind; [apply keeps_tree_createBackup|]. intros; apply keeps_ret. }
  intros _.
  eapply keeps_bind_value with
    (Q := fun proceed => proceed = true ->
                         Migrate.flag (Migrate.dryRun options) = true /\
                         Migrate.flag (Migrate.performance options) = false).
  - destruct (_ && _); [apply keeps_confirm|apply keeps_ret].
  - intros w proceed. apply Hgo.
  - intros [|] Hproceed; cbn [negb]; [|apply keeps_ret].
    destruct (Hproceed eq_refl) as [-> ->].
    apply keeps_bind; [apply keeps_ret|]. intros baseline.
    apply keeps_bind; [|intros; apply keeps_ret].
    unfold Engine.previewChanges.
    apply keeps_bind; [apply keeps_same_world, analyze_world|]. intros; apply keeps_ret.
Qed.

(** X15: Without a go-ahead [migrateCommand] rewrites nothing: on a dry run
    (without the performance analysis), and when the confirmation is asked
    for and not given, the project files are what they were and no rule
    was invoked and no file written, whatever else happens in the run
    (the backup that precedes the confirmation is still attempted). *)
Theorem migrateCommand_without_go_ahead (options : Migrate.MigrateOptions) :
  (Migrate.flag (Migrate.dryRun options) = true /\
   Migrate.flag (Migrate.performance options) = false) \/
  (Migrate.flag (Migrate.batch options) = false /\
   Migrate.flag (Migrate.yes options) = false /\
   forall message w, prompt_confirm message w <> Return true) ->
  keeps tree (Migrate.migrateCommand options) /\
  emits (fun e => ~ is_rewrite e) (Migrate.migrateCommand options).
Proof.
  intros Hquiet. split; [now apply migrateCommand_keeps_tree|].
  pose proof (migrateCommand_go_ahead options Hquiet) as Hgo.
  destruct not_rewrite_backup_effects as (Hgit & Hdir & Hcopy & Hjson & Hprompt).
  unfold Migrate.migrateCommand.
  apply emits_bind; [apply emits_analyze|]. intros analysis.
  destruct (negb (isCompatible analysis)); [apply emits_ret|].
  apply emits_bind.
  { destruct (negb (bool_decide _)); [|apply emits_ret].
    apply emits_bind; [apply emits_createBackup|]. intros; apply emits_ret. }
  intros _.
  eapply emits_bind_value with
    (Q := fun proceed => proceed = true ->
                         Migrate.flag (Migrate.dryRun options) = true /\
                         Migrate.flag (Migrate.performance options) = false).
  - destruct (_ && _); [now apply emits_confirm|apply emits_ret].
  - intros w proceed. apply Hgo.
  - intros [|] Hproceed; cbn [negb]; [|apply emits_ret].
    destruct (Hproceed eq_refl) as [-> ->].
    apply emits_bind; [apply emits_ret|]. intros baseline.
    apply emits_bind; [apply emits_previewChanges|]. intros; apply emits_ret.
Qed.

End Commands.

Section AfterTheBackup.
Context `{Host}.

Lemma migrate_keeps_backups :
  keeps metadata Engine.migrate /\ keeps backupDirs Engine.migrate.
Proof.
  split; intros w; unfold Engine.migrate, bind;
    pose proof (analyze_world w) as Hw;
    destruct (Compatibility.analyze w) as [[report|message] w0]; simpl in Hw; subst w0;
    try reflexivity;
    destruct (migrateFiles_effects (filesToTransform report)
                {| successful := 0; failed := 0; changes := []; errors := [] |} w)
      as (events & _ & _ & Hmeta & Hdirs & _); assumption.
Qed.

(** What follows the backup in [migrateCommand] -- confirmation, preview or
    migration, second analysis, report -- leaves alone every part of the
    file system that [migrate] and [writeFile] leave alone. *)
Lemma migrateCommand_after_backup {X} (part : FileSystem -> X)
    (options : Migrate.MigrateOptions) w report w1 :
  keeps part Engine.migrate ->
  (forall file content, keeps part (Fs.writeFile file content)) ->
  Migrate.flag (Migrate.performance options) = false ->
  Compatibility.analyze w = (Return report, w) ->
  isCompatible report = true ->
  (if negb (bool_decide (Migrate.backup options = Some false))
   then _ <- BackupManager.createBackup ;; ret tt
   else ret tt)%async w = (Return tt, w1) ->
  part (fs (snd (Migrate.migrateCommand options w))) = part (fs w1).
Proof.
  intros Hmigrate Hwrite Hperf Hanalyze Hcompat Hstage.
  unfold Migrate.migrateCommand, bind at 1. rewrite Hanalyze, Hcompat. cbn [negb].
  unfold bind at 1. rewrite Hstage, Hperf.
  enough (forall c : Async unit, keeps part c -> part (fs (snd (c w1))) = part (fs w1))
    as Htail.
  { apply Htail.
    apply keeps_bind; [destruct (negb _ && negb _); [apply keeps_confirm|apply keeps_ret]|].
    intros proceed. destruct (negb proceed); [apply keeps_ret|].
    apply keeps_bind; [apply keeps_ret|]. intros baseline.
    destruct (Migrate.flag (Migrate.dryRun options)).
    - apply keeps_bind; [|intros; apply keeps_ret].
      unfold Engine.previewChanges.
      apply keeps_bind; [apply keeps_same_world, analyze_world|]. intros; apply keeps_ret.
    - apply keeps_bind; [exact Hmigrate|]. intros results.
      apply keeps_bind; [apply keeps_same_world, analyze_world|]. intros _.
      apply keeps_bind; [destruct baseline; apply keeps_ret|]. intros comparison.
      apply keeps_bind; [now intros w0|]. intros w0.
      apply keeps_bind; [|intros; apply keeps_ret].
      unfold Migrate.generateReport.
      apply keeps_bind; [apply Hwrite|]. intros; apply keeps_ret. }
  intros c Hc. apply Hc.
Qed.

Lemma backup_stage_returns (options : Migrate.MigrateOptions) w backupId w1 :
  Migrate.backup options <> Some false ->
  BackupManager.createBackup w = (Return backupId, w1) ->
  (if negb (bool_decide (Migrate.backup options = Some false))
   then _ <- BackupManager.createBackup ;; ret tt
   else ret tt)%async w = (Return tt, w1).
Proof.
  intros Hbackup Hrun. rewrite bool_decide_eq_false_2 by exact Hbackup. cbn [negb].
  unfold bind. now rewrite Hrun.
Qed.

(** X16: The backup is taken before the confirmation is asked for and before
    the dry-run option is looked at: when the report is compatible, the
    backup is not switched off and [createBackup] returns, the entry it
    wrote is at the head of the catalog and its directory is in place
    when the command ends -- on a dry run, after a refusal, after a
    migration, and when a later step throws. *)
Theorem migrateCommand_leaves_its_backup
    (options : Migrate.MigrateOptions) (w : World) (report : ProjectAnalysis)
    (backupId : string) (w1 : World) :
  Migrate.flag (Migrate.performance options) = false ->
  Migrate.backup options <> Some false ->
  Compatibility.analyze w = (Return report, w) ->
  isCompatible report = true ->
  BackupManager.createBackup w = (Return backupId, w1) ->
  let w' := snd (Migrate.migrateCommand options w) in
  backupDirs (fs w') = backupDirs (fs w1) /\
  is_Some (backupDirs (fs w') !! backup_path backupId) /\
  exists backup,
    id backup = backupId /\
    filesBackup backup = Some (backup_path backupId) /\
    catalog w' = take 10 (backup :: catalog w).
Proof.
  intros Hperf Hbackup Hanalyze Hcompat Hrun w'.
  pose proof (backup_stage_returns options w backupId w1 Hbackup Hrun) as Hstage.
  destruct migrate_keeps_backups as [Hmeta Hdirs].
  assert (metadata (fs w') = metadata (fs w1)) as Hm.
  { apply (migrateCommand_after_backup metadata options w report w1); auto.
    now intros file content w0. }
  assert (backupDirs (fs w') = backupDirs (fs w1)) as Hd.
  { apply (migrateCommand_after_backup backupDirs options w report w1); auto.
    now intros file content w0. }
  apply createBackup_spec in Hrun
    as (_ & _ & _ & _ & (backup & Hid & Hfiles & _ & Hcatalog) & copies & Hcopies & _).
  split; [exact Hd|]. split; [rewrite Hd, Hcopies; eauto|].
  exists backup. split; [exact Hid|]. split; [exact Hfiles|].
  unfold catalog at 1. now rewrite Hm, Hcatalog.
Qed.

(** X17: Every rewrite of a run of [migrateCommand] that takes backups comes
    after a completed backup: the effects of the run split into a part
    without rule invocations and file writes and a rest, and when there
    is a rest, the first part ends with the write of the catalog. *)
Theorem migrateCommand_backs_up_before_rewriting
    (options : Migrate.MigrateOptions) (w : World) :
  Migrate.backup options <> Some false ->
  exists before after,
    trace (snd (Migrate.migrateCommand options w)) = trace w ++ before ++ after /\
    Forall (fun e => ~ is_rewrite e) before /\
    (after <> [] -> exists pre entries, before = pre ++ [EvWriteJson entries]).
Proof.
  intros Hbackup. unfold Migrate.migrateCommand, bind at 1.
  pose proof (analyze_world w) as Hw.
  destruct (Compatibility.analyze w) as [[report|message] w0]; simpl in Hw; subst w0.
  2:{ exists [], []. cbn. rewrite app_nil_r. repeat split; [constructor|now intros []]. }
  destruct (negb (isCompatible report)).
  { exists [], []. cbn. rewrite app_nil_r. repeat split; [constructor|now intros []]. }
  unfold bind at 1. rewrite bool_decide_eq_false_2 by exact Hbackup. cbn [negb].
  unfold bind at 1.
  destruct (emits_createBackup w) as (events & Htrace & Hevents).
  destruct (BackupManager.createBackup w) as [[backupId|message] w1] eqn:Hrun.
  2:{ exists events, []. cbn in *. rewrite app_nil_r.
      repeat split; [exact Htrace|exact Hevents|now intros []]. }
  destruct (createBackup_trace _ _ _ Hrun) as (pre & entries & Hpre & Hquiet).
  unfold ret at 1.
  enough (forall c : Async unit,
            emits (fun _ => True) c ->
            exists after, trace (snd (c w1)) = trace w1 ++ after) as Htail.
  { cbv beta iota.
    match goal with
    | |- context [snd (?c w1)] => destruct (Htail c) as (after & Hafter); cycle 1
    end.
    - exists (pre ++ [EvWriteJson entries]), after.
      split; [rewrite Hafter, Hpre; now rewrite <- !app_assoc|]. split.
      + apply Forall_app. split; [exact Hquiet|].
        constructor; [exact (fun contra => contra)|constructor].
      + intros _. eauto.
    - apply emits_bind; [destruct (negb _ && negb _); [now apply emits_confirm|apply emits_ret]|].
      intros proceed. destruct (negb proceed); [apply emits_ret|].
      apply emits_bind.
      { destruct (Migrate.flag (Migrate.performance options)); [|apply emits_ret].
        apply emits_bind; [now apply emits_performanceAnalyze|]. intros; apply emits_ret. }
      intros baseline.
      destruct (Migrate.flag (Migrate.dryRun options)).
      + apply emits_bind; [apply emits_previewChanges|]. intros; apply emits_ret.
      + apply emits_bind.
        { intros w0. unfold Engine.migrate, bind.
          pose proof (analyze_world w0) as Hw0.
          destruct (Compatibility.analyze w0) as [[report0|message] w2]; simpl in Hw0; subst w2.
          - destruct (migrateFiles_effects (filesToTransform report0)
                        {| successful := 0; failed := 0; changes := []; errors := [] |} w0)
              as (ev & Hev & _). exists ev. split; [exact Hev|].
            apply Forall_forall. trivial.
          - exists []. cbn. rewrite app_nil_r. split; [reflexivity|constructor]. }
        intros results.
        apply emits_bind; [apply emits_analyze|]. intros _.
        apply emits_bind.
        { destruct baseline as [before|]; [|apply emits_ret].
          destruct (Migrate.flag (Migrate.performance options)); [|apply emits_ret].
          apply emits_bind; [now apply emits_performanceAnalyze|]. intros; apply emits_ret. }
        intros comparison.
        apply emits_bind; [now apply emits_same_world|]. intros w0.
        apply emits_bind; [|intros; apply emits_ret].
        unfold Migrate.generateReport.
        apply emits_bind; [|intros; apply emits_ret].
        intros w2. eexists [_]. split; [reflexivity|]. now constructor. }
  intros c Hc. destruct (Hc w1) as (after & Hafter & _). eauto.
Qed.

End AfterTheBackup.

(** ** Rolling back *)

Section Rollback.
Context `{Host} `{Rollback.ListPrompt}.

(** With [--yes], [rollbackCommand] is [restoreBackup] of the newest
    entry of the catalog. *)
Lemma rollbackCommand_yes (options : Rollback.RollbackOptions) newest backups w :
  Migrate.flag (Rollback.yes options) = true ->
  catalog w = newest :: backups ->
  Rollback.rollbackCommand options w = BackupManager.restoreBackup (id newest) w.
Proof.
  intros Hyes Hcatalog. unfold Rollback.rollbackCommand, try_catch, bind at 1.
  rewrite listBackups_spec, Hcatalog, Hyes. cbn [negb]. unfold bind at 1, ret at 1.
  unfold bind at 1, ret at 1. cbn [negb].
  now destruct (BackupManager.restoreBackup (id newest) w) as [[[]|m] w'].
Qed.

Lemma rollbackCommand_empty_catalog (options : Rollback.RollbackOptions) w :
  catalog w = [] -> Rollback.rollbackCommand options w = (Return tt, w).
Proof.
  intros Hcatalog. unfold Rollback.rollbackCommand, try_catch, bind at 1.
  now rewrite listBackups_spec, Hcatalog.
Qed.

(** What [rollbackCommand] does when it asks: two prompts at most, and a
    restore only after a "yes". *)
Lemma rollbackCommand_asks (options : Rollback.RollbackOptions) newest backups w :
  Migrate.flag (Rollback.yes options) = false ->
  (forall message w0, prompt_confirm message w0 <> Return true) ->
  catalog w = newest :: backups ->
  exists events,
    snd (Rollback.rollbackCommand options w) = add_trace w events /\
    Forall (fun e => exists message, e = EvPrompt message) events.
Proof.
  intros Hyes Hno Hcatalog.
  unfold Rollback.rollbackCommand, try_catch, bind at 1.
  rewrite listBackups_spec, Hcatalog, Hyes. cbn [negb].
  unfold bind at 1, Rollback.choose, bind at 1, emit, ask. cbn [fst snd].
  destruct (Rollback.prompt_list _ _ _) as [selected|message].
  - unfold bind at 1, Migrate.confirm, bind at 1, emit, ask. cbn [fst snd fs trace].
    match goal with
    | |- context [prompt_confirm ?m ?w0] =>
        pose proof (Hno m w0) as Hanswer; destruct (prompt_confirm m w0) as [[|]|?]
    end; [now destruct Hanswer| |];
      eexists [_; _]; unfold add_trace; cbn [fst snd fs trace]; rewrite <- app_assoc;
      (split; [reflexivity|]); repeat constructor; eauto.
  - eexists [_]. split; [reflexivity|]. repeat constructor. eauto.
Qed.

(** X18: [rollbackCommand] restores nothing when there is no backup -- it
    returns at once -- and when the confirmation it asks for is not given:
    the file system is what it was, and the only effects are the prompts. *)
Theorem rollbackCommand_without_go_ahead (options : Rollback.RollbackOptions) (w : World) :
  catalog w = [] \/
  (Migrate.flag (Rollback.yes options) = false /\
   forall message w0, prompt_confirm message w0 <> Return true) ->
  fs (snd (Rollback.rollbackCommand options w)) = fs w /\
  (catalog w = [] -> Rollback.rollbackCommand options w = (Return tt, w)) /\
  exists events,
    trace (snd (Rollback.rollbackCommand options w)) = trace w ++ events /\
    Forall (fun e => exists message, e = EvPrompt message) events.
Proof.
  intros Hquiet.
  destruct (catalog w) as [|newest backups] eqn:Hcatalog.
  - rewrite (rollbackCommand_empty_catalog options w Hcatalog).
    split; [reflexivity|]. split; [reflexivity|].
    exists []. cbn. rewrite app_nil_r. split; [reflexivity|constructor].
  - destruct Hquiet as [?|[Hyes Hno]]; [discriminate|].
    destruct (rollbackCommand_asks options newest backups w Hyes Hno Hcatalog)
      as (events & -> & Hevents).
    split; [reflexivity|]. split; [discriminate|]. now exists events.
Qed.

(** X19: The undo that [migrateCommand] announces, in a project without a
    repository: after a run of [migrateCommand] that took its backup (in a
    new directory), [rollbackCommand --yes] returns; it gives every file
    of the allowlist that existed before the run the text it had then;
    and it leaves every other path as the run left it -- the source files
    the migration rewrote stay rewritten, and the report stays. *)
Theorem rollback_after_migrateCommand
    (options : Migrate.MigrateOptions) (undo : Rollback.RollbackOptions)
    (w : World) (report : ProjectAnalysis) (backupId : string) (w1 : World) :
  no_repository ->
  Migrate.flag (Migrate.performance options) = false ->
  Migrate.backup options <> Some false ->
  Migrate.flag (Rollback.yes undo) = true ->
  Compatibility.analyze w = (Return report, w) ->
  isCompatible report = true ->
  BackupManager.createBackup w = (Return backupId, w1) ->
  backupDirs (fs w) !! backup_path backupId = None ->
  let w' := snd (Migrate.migrateCommand options w) in
  exists w'',
    Rollback.rollbackCommand undo w' = (Return tt, w'') /\
    (forall file,
       file ∈ BackupManager.filesToBackup -> is_Some (tree (fs w) !! file) ->
       tree (fs w'') !! file = tree (fs w) !! file) /\
    (forall file,
       file ∉ BackupManager.filesToBackup \/ tree (fs w) !! file = None ->
       tree (fs w'') !! file = tree (fs w') !! file).
Proof.
  intros Hgit Hperf Hbackup Hyes Hanalyze Hcompat Hrun Hfresh w'.
  pose proof (backup_stage_returns options w backupId w1 Hbackup Hrun) as Hstage.
  destruct migrate_keeps_backups as [Hmeta Hdirs].
  assert (metadata (fs w') = metadata (fs w1)) as Hm.
  { apply (migrateCommand_after_backup metadata options w report w1); auto.
    now intros file content w0. }
  assert (backupDirs (fs w') = backupDirs (fs w1)) as Hd.
  { apply (migrateCommand_after_backup backupDirs options w report w1); auto.
    now intros file content w0. }
  apply createBackup_spec in Hrun
    as (_ & _ & _ & Hreadable & (backup & Hid & Hfiles & Hcommit & Hcatalog)
        & copies & Hdir & Hcopied & Hrest).
  rewrite Hfresh in Hrest. cbv beta iota delta [default from_option Datatypes.id] in Hrest.
  assert (catalog w' = backup :: take 9 (catalog w)) as Hcat.
  { unfold catalog at 1. now rewrite Hm, Hcatalog. }
  rewrite (rollbackCommand_yes undo backup (take 9 (catalog w)) w' Hyes Hcat), Hid.
  destruct (restoreBackup_from_files backupId backup (backup_path backupId) copies w')
    as (w'' & Hrestore & _ & _ & Htree).
  - rewrite Hcat. cbn [List.find]. now rewrite Hid, String.eqb_refl.
  - now apply Hcommit.
  - exact Hfiles.
  - unfold backup_path, BackupManager.backupDir. cbn. discriminate.
  - now rewrite Hd.
  - intros file Hfile.
    destruct (decide (file ∈ BackupManager.filesToBackup)) as [Hin|Hout].
    + destruct (tree (fs w) !! file) as [[content|]|] eqn:E.
      * rewrite (Hcopied file content Hin E) in Hfile. discriminate.
      * now destruct (Hreadable file Hin).
      * rewrite Hrest in Hfile by now right. now rewrite lookup_empty in Hfile.
    + rewrite Hrest in Hfile by now left. now rewrite lookup_empty in Hfile.
  - exists w''. split; [exact Hrestore|]. split.
    + intros file Hin [entry Hentry]. rewrite Htree, Hentry.
      destruct entry as [content|]; [|now destruct (Hreadable file Hin)].
      now rewrite (Hcopied file content Hin Hentry).
    + intros file Hfile. rewrite Htree, (Hrest file Hfile). now rewrite lookup_empty.
Qed.

End Rollback.

(** ** The wizard *)

Section Wizard.
Context `{Host} `{Rollback.ListPrompt} `{Interactive.ActionPrompt}.

Lemma analyzeCommand_reads (options : Analyze.AnalyzeOptions) w :
  Migrate.flag (Analyze.performance options) = false ->
  Analyze.analyzeCommand options w
  = (match fst (Compatibility.analyze w) with
     | Return _ => Return tt
     | Throw message => Throw message
     end, w).
Proof.
  intros Hperf. unfold Analyze.analyzeCommand, try_catch, bind at 1. rewrite Hperf.
  pose proof (analyze_world w) as Hw.
  now destruct (Compatibility.analyze w) as [[report|m] w0]; simpl in Hw; subst w0.
Qed.

(** X20: In the wizard nothing is rewritten and nothing restored unless a
    confirmation is answered with yes: whatever action is chosen, the
    project files are what they were; and the actions other than migrate
    and rollback do nothing beyond asking for the action. *)
Theorem wizard_needs_a_confirmation (w : World) :
  (forall message w0, prompt_confirm message w0 <> Return true) ->
  tree (fs (snd (Interactive.interactiveCommand w))) = tree (fs w) /\
  forall action,
    Interactive.prompt_action "What would you like to do?"
      (add_trace w [EvPrompt "What would you like to do?"]) = Return action ->
    action <> Interactive.ActionMigrate ->
    action <> Interactive.ActionRollback ->
    snd (Interactive.interactiveCommand w)
    = add_trace w [EvPrompt "What would you like to do?"].
Proof.
  intros Hno.
  set (w1 := add_trace w [EvPrompt "What would you like to do?"]).
  assert (Interactive.interactiveCommand w
          = match Interactive.prompt_action "What would you like to do?" w1 with
            | Return Interactive.ActionAnalyze =>
                Analyze.analyzeCommand
                  {| Analyze.performance := None; Analyze.detailed := Some true |} w1
            | Return Interactive.ActionMigrate =>
                Migrate.migrateCommand
                  {| Migrate.dryRun := None; Migrate.yes := None; Migrate.backup := None;
                     Migrate.performance := None; Migrate.batch := None |} w1
            | Return Interactive.ActionRollback =>
                Rollback.rollbackCommand {| Rollback.yes := None |} w1
            | Return _ => (Return tt, w1)
            | Throw message => (Throw message, w1)
            end) as ->.
  { unfold Interactive.interactiveCommand, bind at 1.
    unfold bind at 1, emit, ask. cbn [fst snd]. unfold w1, add_trace.
    now destruct (Interactive.prompt_action _ _) as [[]|]. }
  destruct (Interactive.prompt_action "What would you like to do?" w1) as [action|message];
    [|split; [reflexivity|discriminate]].
  destruct action.
  - rewrite analyzeCommand_reads by reflexivity. split; [reflexivity|]. reflexivity.
  - split; [|now intros ? [= <-]].
    transitivity (tree (fs w1)); [|reflexivity].
    apply (migrateCommand_keeps_tree
             {| Migrate.dryRun := None; Migrate.yes := None; Migrate.backup := None;
                Migrate.performance := None; Migrate.batch := None |}).
    right. split; [reflexivity|]. split; [reflexivity|exact Hno].
  - split; [|now intros ? [= <-]].
    destruct (catalog w1) as [|newest backups] eqn:Hcatalog.
    + now rewrite rollbackCommand_empty_catalog.
    + destruct (rollbackCommand_asks {| Rollback.yes := None |} newest backups w1
                  eq_refl Hno Hcatalog) as (events & -> & _).
      reflexivity.
  - split; reflexivity.
  - split; reflexivity.
Qed.

End Wizard.

(** ** A second pass of the cache-invalidation rule *)

Section SecondPass.
Import Ast.

Lemma append_max_identifier name n :
  is_identifier_named name (append_max n) = is_identifier_named name n.
Proof.
  destruct n as [k cs]. cbn [append_max].
  destruct k; try reflexivity.
  destruct cs as [|callee [|arg [|arg2 args]]]; try reflexivity.
  now destruct (is_identifier_named "revalidateTag" callee).
Qed.

Lemma map_append_max_fixed cs :
  Forall (fun c => append_max (append_max c) = append_max c) cs ->
  map append_max (map append_max cs) = map append_max cs.
Proof.
  induction 1 as [|c cs Hc _ IH]; [reflexivity|]. cbn [map]. now rewrite Hc, IH.
Qed.

Lemma append_max_idempotent n : append_max (append_max n) = append_max n.
Proof.
  induction n as [k cs IH] using node_induction.
  apply map_append_max_fixed in IH.
  assert (append_max (Node k (map append_max cs)) = Node k (map append_max cs) ->
          append_max (Node k cs) = Node k (map append_max cs) ->
          append_max (append_max (Node k cs)) = append_max (Node k cs)) as Hplain.
  { intros Hfixed ->. exact Hfixed. }
  destruct k; try (apply Hplain; cbn [append_max]; now rewrite ?IH).
  destruct cs as [|callee [|arg [|arg2 args]]].
  - reflexivity.
  - apply Hplain; [|reflexivity]. cbn [append_max map] in *. now rewrite IH.
  - cbn [append_max map app] in *.
    destruct (is_identifier_named "revalidateTag" callee) eqn:Hcallee.
    + cbn [append_max map]. injection IH as -> ->. reflexivity.
    + cbn [append_max map]. rewrite append_max_identifier, Hcallee.
      now rewrite IH.
  - apply Hplain; [|reflexivity]. cbn [append_max map] in *. now rewrite IH.
Qed.

Lemma find_children_none pred i cs :
  Forall (fun c => find pred c = []) cs -> find_children pred i cs = [].
Proof.
  intros Hcs. revert i. induction Hcs as [|c cs Hc _ IH]; intros i; [reflexivity|].
  cbn [find_children]. now rewrite Hc, IH.
Qed.

Lemma append_max_leaves_no_target n :
  find (fun n => Engine.is_call_of ["revalidateTag"] n && has_one_argument n)
    (append_max n) = [].
Proof.
  induction n as [k cs IH] using node_induction.
  assert (forall extra,
            Forall (fun c => find (fun n => Engine.is_call_of ["revalidateTag"] n
                                            && has_one_argument n) c = []) extra ->
            find_children (fun n => Engine.is_call_of ["revalidateTag"] n
                                    && has_one_argument n) 0
              (map append_max cs ++ extra) = []) as Hchildren.
  { intros extra Hextra. apply find_children_none, Forall_app. split; [|exact Hextra].
    apply Forall_forall. intros c' (c & <- & Hin)%list_elem_of_In%in_map_iff.
    rewrite Forall_forall in IH. now apply IH, list_elem_of_In. }
  pose proof (Hchildren [] (Forall_nil_2 _)) as Hsame. rewrite app_nil_r in Hsame.
  assert (find (fun n => Engine.is_call_of ["revalidateTag"] n && has_one_argument n)
            (Node k (map append_max cs)) = [] \/
          exists callee arg,
            k = KCall /\ cs = [callee; arg] /\
            is_identifier_named "revalidateTag" callee = true) as [Hplain|Htarget].
  { destruct k; try (left; rewrite find_unfold, Hsame; reflexivity).
    destruct cs as [|callee [|arg [|arg2 args]]];
      try (left; rewrite find_unfold, Hsame; cbn [map Engine.is_call_of has_one_argument];
           now rewrite ?andb_false_r).
    destruct (is_identifier_named "revalidateTag" callee) eqn:Hcallee; [right; eauto|].
    left. rewrite find_unfold, Hsame. cbn [map Engine.is_call_of existsb].
    now rewrite append_max_identifier, Hcallee. }
  - destruct k; try exact Hplain.
    destruct cs as [|callee [|arg [|arg2 args]]]; try exact Hplain.
    cbn [append_max]. destruct (is_identifier_named "revalidateTag" callee); [|exact Hplain].
    rewrite find_unfold, Hchildren;
      [cbn [map app has_one_argument]; now rewrite andb_false_r|].
    constructor; [reflexivity|constructor].
  - destruct Htarget as (callee & arg & -> & -> & Hcallee).
    cbn [append_max]. rewrite Hcallee.
    rewrite find_unfold, Hchildren;
      [cbn [map app has_one_argument]; now rewrite andb_false_r|].
    constructor; [reflexivity|constructor].
Qed.

(** X21: The tree rewrite of [updateRevalidateTag] does its work in one pass:
    in the tree it returns no call of the identifier [revalidateTag] has
    exactly one argument, and a second pass over that tree (the rule is
    detected again after a migration, since the rewrite adds no
    "cacheLife") changes nothing -- no second 'max' is appended. *)
Theorem updateRevalidateTag_rewrite_is_complete (root : node) :
  let rewritten :=
    forEach (find (Engine.is_call_of ["revalidateTag"]) root) Engine.push_max root in
  find (fun n => Engine.is_call_of ["revalidateTag"] n && has_one_argument n) rewritten = [] /\
  forEach (find (Engine.is_call_of ["revalidateTag"]) rewritten) Engine.push_max rewritten
  = rewritten.
Proof.
  cbv zeta. rewrite !push_max_everywhere. split.
  - apply append_max_leaves_no_target.
  - apply append_max_idempotent.
Qed.

End SecondPass.

(** ** Rules whose targets lie apart *)

Section Targets.
Import Ast.

Lemma find_children_nil_inv pred i cs :
  find_children pred i cs = [] -> Forall (fun c => find pred c = []) cs.
Proof.
  revert i. induction cs as [|c cs IH]; intros i Hnil; [constructor|].
  cbn [find_children] in Hnil. apply app_eq_nil in Hnil as [Hc Hcs].
  constructor; [|now apply (IH (S i))].
  destruct (find pred c); [reflexivity|discriminate].
Qed.

Lemma apart_children pred k cs :
  targets_apart pred (Node k cs) = true ->
  (pred (Node k cs) = true -> Forall (fun c => find pred c = []) cs) /\
  Forall (fun c => targets_apart pred c = true) cs.
Proof.
  cbn [targets_apart]. intros [Htop Hcs]%andb_true_iff. split.
  - intros Hp. rewrite Hp in Htop. apply Forall_forall. intros c Hc%list_elem_of_In.
    rewrite forallb_forall in Htop. specialize (Htop c Hc).
    destruct (find pred c); [reflexivity|discriminate].
  - apply Forall_forall. intros c Hc%list_elem_of_In. rewrite forallb_forall in Hcs.
    now apply Hcs.
Qed.

(** When the targets lie apart, the callbacks at the collected paths
    replace every target by its image and leave the rest of the tree. *)
Lemma rewrite_everywhere pred f n :
  targets_apart pred n = true ->
  forEach (find pred n) f n = rewrite_targets pred f n.
Proof.
  induction n as [k cs IH] using node_induction. intros Hapart.
  apply apart_children in Hapart as [Htop Hcs].
  rewrite find_unfold. destruct (pred (Node k cs)) eqn:Hp.
  - rewrite (find_children_none _ _ _ (Htop eq_refl)). cbn [app].
    unfold forEach. cbn [fold_left modify rewrite_targets]. now rewrite Hp.
  - cbn [app].
    pose proof (forEach_children pred f (rewrite_targets pred f) k [] cs []) as Hchildren.
    cbn [app length] in Hchildren. rewrite !app_nil_r in Hchildren.
    rewrite Hchildren.
    + cbn [rewrite_targets]. now rewrite Hp.
    + apply Forall_forall. intros c Hc. rewrite Forall_forall in IH, Hcs.
      apply IH; [exact Hc|]. now apply Hcs.
Qed.

(** A rewrite whose callback leaves no target where there was one, and
    that turns no other node into a target, leaves no target at all. *)
Lemma find_rewrite_targets pred f n :
  (forall k cs,
     pred (Node k cs) = true -> Forall (fun c => find pred c = []) cs ->
     find pred (f (Node k cs)) = []) ->
  (forall k cs, pred (Node k (map (rewrite_targets pred f) cs)) = pred (Node k cs)) ->
  targets_apart pred n = true ->
  find pred (rewrite_targets pred f n) = [].
Proof.
  intros Hf Hpred. induction n as [k cs IH] using node_induction. intros Hapart.
  apply apart_children in Hapart as [Htop Hcs].
  cbn [rewrite_targets]. destruct (pred (Node k cs)) eqn:Hp.
  - apply Hf; [exact Hp|now apply Htop].
  - rewrite find_unfold, Hpred, Hp. cbn [app]. apply find_children_none.
    apply Forall_forall. intros c' (c & <- & Hin%list_elem_of_In)%list_elem_of_In%in_map_iff.
    rewrite Forall_forall in IH, Hcs. apply IH; auto.
Qed.

Lemma await_callee_identifier name c :
  is_identifier_named name
    (rewrite_targets (Engine.is_call_of ["cookies"; "headers"]) Engine.await_callee c)
  = is_identifier_named name c.
Proof.
  destruct c as [k cs]. cbn [rewrite_targets].
  destruct (Engine.is_call_of _ (Node k cs)) eqn:Hp; [|reflexivity].
  destruct k; try discriminate. destruct cs as [|callee args]; [discriminate|].
  cbn [Engine.await_callee]. now destruct (_ || _).
Qed.

Lemma awaited_calls_are_gone n :
  targets_apart (Engine.is_call_of ["cookies"; "headers"]) n = true ->
  find (Engine.is_call_of ["cookies"; "headers"])
    (rewrite_targets (Engine.is_call_of ["cookies"; "headers"]) Engine.await_callee n) = [].
Proof.
  apply find_rewrite_targets.
  - intros k cs Hp Hcs. destruct k; try discriminate.
    destruct cs as [|callee args]; [discriminate|].
    cbn [Engine.is_call_of existsb] in Hp. rewrite orb_false_r in Hp.
    cbn [Engine.await_callee]. rewrite Hp.
    apply Forall_cons in Hcs as [Hcallee Hargs].
    rewrite find_unfold. cbn [Engine.is_call_of existsb is_identifier_named node_kind
                              awaitExpression orb app].
    apply find_children_none. constructor; [|exact Hargs].
    unfold awaitExpression. rewrite find_unfold. cbn [Engine.is_call_of app].
    apply find_children_none. now constructor.
  - intros k cs. destruct k; try reflexivity.
    destruct cs as [|callee args]; [reflexivity|].
    cbn [map Engine.is_call_of existsb]. now rewrite !await_callee_identifier.
Qed.

Lemma image_rewrite_kind c :
  node_kind (rewrite_targets (Engine.is_import_from "next/legacy/image")
               (Engine.set_import_source "next/image") c)
  = node_kind c.
Proof.
  destruct c as [k cs]. cbn [rewrite_targets].
  destruct (Engine.is_import_from _ (Node k cs)) eqn:Hp; [|reflexivity].
  destruct k; try discriminate. reflexivity.
Qed.

Lemma last_map {A B} (g : A -> B) (l : list A) : last (map g l) = g <$> last l.
Proof.
  induction l as [|x [|y l] IH]; [reflexivity|reflexivity|].
  exact IH.
Qed.

Lemma is_import_from_kind value cs :
  Engine.is_import_from value (Node KImport cs)
  = match node_kind <$> last cs with
    | Some (KLiteral v) => String.eqb v value
    | _ => false
    end.
Proof.
  cbn [Engine.is_import_from]. destruct (last cs) as [[k cs']|]; [|reflexivity].
  reflexivity.
Qed.

Lemma legacy_imports_are_gone n :
  targets_apart (Engine.is_import_from "next/legacy/image") n = true ->
  find (Engine.is_import_from "next/legacy/image")
    (rewrite_targets (Engine.is_import_from "next/legacy/image")
       (Engine.set_import_source "next/image") n) = [].
Proof.
  apply find_rewrite_targets.
  - intros k cs Hp Hcs. destruct k; try discriminate.
    cbn [Engine.set_import_source].
    assert (cs <> []) as Hne by (intros ->; discriminate).
    assert (pred (length cs) < length cs)%nat as Hlt by (destruct cs; [congruence|simpl; lia]).
    rewrite find_unfold, is_import_from_kind, last_lookup, length_insert.
    rewrite list_lookup_insert_eq by exact Hlt. cbn [fmap option_fmap option_map node_kind literal].
    cbn [String.eqb Ascii.eqb Bool.eqb app].
    apply find_children_none. now apply Forall_insert.
  - intros k cs. destruct k; try reflexivity.
    rewrite !is_import_from_kind, last_map.
    destruct (last cs) as [c|]; [|reflexivity].
    cbn [fmap option_fmap option_map]. now rewrite image_rewrite_kind.
Qed.

(** X22: After [updateNextImage] has rewritten a tree in which the imports do
    not contain one another, no import from 'next/legacy/image' is left;
    after [makeCookiesHeadersAsync] has rewritten a tree in which the calls
    of [cookies] and [headers] do not contain one another, no call has
    the identifier [cookies] or [headers] as its callee.  A second pass of
    either rule finds nothing to do. *)
Theorem rewritten_targets_are_gone (root : node) :
  (targets_apart (Engine.is_import_from "next/legacy/image") root = true ->
   find (Engine.is_import_from "next/legacy/image")
     (forEach (find (Engine.is_import_from "next/legacy/image") root)
        (Engine.set_import_source "next/image") root) = []) /\
  (targets_apart (Engine.is_call_of ["cookies"; "headers"]) root = true ->
   find (Engine.is_call_of ["cookies"; "headers"])
     (forEach (find (Engine.is_call_of ["cookies"; "headers"]) root)
        Engine.await_callee root) = []).
Proof.
  split; intros Hapart; rewrite rewrite_everywhere by exact Hapart.
  - now apply legacy_imports_are_gone.
  - now apply awaited_calls_are_gone.
Qed.

End Targets.

Section TargetRules.
Context `{Host}.


End TargetRules.

(** ** The rules on [params] and [searchParams] *)

Section Members.
Import Ast.
Context (name : string).








End Members.

Section MemberRules.
Context `{Host}.


End MemberRules.

(** ** The commit of a backup *)

Section GitBackup.
Context `{Host}.


End GitBackup.

Lemma migrateCommand_without_go_ahead_witness :
  tree (fs (snd (@Migrate.migrateCommand Demo.host Replay.dry_run Demo.project)))
  = tree (fs Demo.project) /\
  emits (fun e => ~ is_rewrite e) (@Migrate.migrateCommand Demo.host Replay.dry_run).
Proof.
  destruct (migrateCommand_without_go_ahead (H := Demo.host) Replay.dry_run)
    as [Hkeeps Hemits].
  - left. split; reflexivity.
  - split; [apply Hkeeps|exact Hemits].
Defined.

Lemma migrateCommand_leaves_its_backup_witness :
  exists backup,
    id backup = "backup-1700000000000" /\
    catalog (snd (@Migrate.migrateCommand Further.host Replay.dry_run Demo.project))
    = take 10 (backup :: catalog Demo.project).
Proof.
  destruct (migrateCommand_leaves_its_backup (H := Further.host) Replay.dry_run
              Demo.project Replay.report "backup-1700000000000" Replay.backed_up)
    as (_ & _ & backup & Hid & _ & Hcatalog).
  - reflexivity.
  - discriminate.
  - vm_compute. reflexivity.
  - reflexivity.
  - vm_compute. reflexivity.
  - exists backup. now split.
Defined.

Lemma migrateCommand_backs_up_before_rewriting_witness :
  exists before after,
    trace (snd (@Migrate.migrateCommand Demo.host Scenario.options Demo.project))
    = trace Demo.project ++ before ++ after /\
    Forall (fun e => ~ is_rewrite e) before /\
    (after <> [] -> exists pre entries, before = pre ++ [EvWriteJson entries]).
Proof.
  apply (migrateCommand_backs_up_before_rewriting (H := Demo.host) Scenario.options
           Demo.project).
  discriminate.
Defined.

Lemma rollbackCommand_without_go_ahead_witness :
  fs (snd (@Rollback.rollbackCommand Further.host Replay.first_choice Replay.ask_first
             Replay.migrated))
  = fs Replay.migrated.
Proof.
  apply (rollbackCommand_without_go_ahead (H := Further.host) (H0 := Replay.first_choice)
           Replay.ask_first Replay.migrated).
  right. split; [reflexivity|]. intros message w0. discriminate.
Defined.

Lemma rollback_after_migrateCommand_witness :
  exists w'',
    @Rollback.rollbackCommand Further.host Replay.first_choice Replay.yes Replay.after_command
      = (Return tt, w'') /\
    tree (fs Replay.after_command) !! "middleware.ts"
      <> tree (fs Demo.project) !! "middleware.ts" /\
    tree (fs w'') !! "middleware.ts" = tree (fs Demo.project) !! "middleware.ts" /\
    tree (fs Replay.after_command) !! "app/page.tsx"
      <> tree (fs Demo.project) !! "app/page.tsx" /\
    tree (fs w'') !! "app/page.tsx" = tree (fs Replay.after_command) !! "app/page.tsx".
Proof.
  destruct (rollback_after_migrateCommand (H := Further.host) (H0 := Replay.first_choice)
              Scenario.options Replay.yes Demo.project Replay.report
              "backup-1700000000000" Replay.backed_up)
    as (w'' & Hrun & Hin & Hout).
  - intros w. reflexivity.
  - reflexivity.
  - discriminate.
  - reflexivity.
  - vm_compute. reflexivity.
  - reflexivity.
  - vm_compute. reflexivity.
  - reflexivity.
  - exists w''. split; [exact Hrun|]. split; [vm_compute; discriminate|]. split.
    + apply Hin.
      * apply (bool_decide_unpack _). vm_compute. exact I.
      * eexists. vm_compute. reflexivity.
    + split; [vm_compute; discriminate|].
      apply Hout. left. apply (bool_decide_unpack _). vm_compute. exact I.
Defined.

Lemma wizard_needs_a_confirmation_witness :
  tree (fs (snd (@Interactive.interactiveCommand Further.host Replay.first_choice
                   Replay.choose_migrate Demo.project)))
  = tree (fs Demo.project).
Proof.
  destruct (wizard_needs_a_confirmation (H := Further.host) (H0 := Replay.first_choice)
              (H1 := Replay.choose_migrate) Demo.project) as [Htree _].
  - intros message w0. discriminate.
  - exact Htree.
Defined.

Lemma rewritten_targets_are_gone_witness :
  targets_apart (Engine.is_import_from "next/legacy/image") (Ast.file Demo.image_program)
  = true /\
  Ast.find (Engine.is_import_from "next/legacy/image")
    (Ast.forEach
       (Ast.find (Engine.is_import_from "next/legacy/image") (Ast.file Demo.image_program))
       (Engine.set_import_source "next/image") (Ast.file Demo.image_program)) = [].
Proof.
  split; [reflexivity|].
  apply (proj1 (rewritten_targets_are_gone (Ast.file Demo.image_program))).
  reflexivity.
Defined.


